(** * The binder of the Python analyzer, embedded in Rocq

    This development embeds [binder.ts] (package [pyright-internal],
    directory [analyzer]): the parse-tree walker that creates scopes and
    symbol tables and builds the code-flow graph of a source file.

    The embedding is shallow.  The [Binder] class becomes a record of its
    fields; the objects it allocates and mutates (flow labels, scopes,
    symbols, declarations, the maps captured by deferred tasks) live in a
    heap that is threaded with the binder through a state-and-exception
    monad; each method of the class is a monadic function of the same
    name.  The closures handed to [_deferBinding] are defunctionalised:
    a deferred callback is the function or lambda node whose body it
    binds.

    Collaborators whose source is outside [binder.ts] (the parse-node
    types, the base tree walker, [Scope], [Symbol], the flow-node
    types, the static-expression evaluator, the import lookup) are
    either taken as parameters (class [Collaborators]) or modelled
    from the specification; every such definition says so. *)

From Stdlib Require Import ZArith Bool Lia.
From stdpp Require Import base option list gmap strings.

(** Induction over the parse tree goes through the lists and options
    of children. *)
Scheme All for list.
Scheme All for option.
Scheme All for prod.

Local Open Scope string_scope.
Local Open Scope list_scope.
Local Open Scope stdpp_scope.

(* ================================================================== *)
(** ** Parse nodes *)
(* ================================================================== *)

(** Modelled from the spec: the keyword and operator tags of
    [tokenizerTypes.ts], limited to the ones the binder inspects. *)
Module KeywordType.
Inductive t := None_ | True_ | False_ | Debug | Other.
End KeywordType.

Module OperatorType.
Inductive t := And | Or | Not | Is | IsNot | Equals | NotEquals | In | NotIn | Other (n : nat).
Definition eqb (a b : t) : bool :=
  match a, b with
  | And, And | Or, Or | Not, Not | Is, Is | IsNot, IsNot
  | Equals, Equals | NotEquals, NotEquals | In, In | NotIn, NotIn => true
  | Other n, Other m => Nat.eqb n m
  | _, _ => false
  end.
End OperatorType.

Module ArgumentCategory.
Inductive t := Simple | UnpackedList | UnpackedDictionary.
End ArgumentCategory.

Module ImportType.
Inductive t := BuiltIn | ThirdParty | Local.
End ImportType.

Module UnescapeErrorType.
Inductive t :=
| InvalidEscapeSequence
| EscapeWithinFormatExpression
| SingleCloseBraceWithinFormatLiteral
| UnterminatedFormatExpression.
End UnescapeErrorType.

(** Modelled from the spec: the import-info record a pre-pass attaches to
    every module-name node ([importResult.ts]). *)
Module ImplicitImport.
Record t := {
  name : string;
  path : string;
}.
End ImplicitImport.

Module ImportResult.
Record t := {
  importName : string;
  isImportFound : bool;
  isStubFile : bool;
  isNativeLib : bool;
  importType : ImportType.t;
  isPyTypedPresent : bool;
  (** [nonStubImportResult]: absent, or whether that import was found. *)
  nonStubImportResult : option bool;
  resolvedPaths : list string;
  implicitImports : list ImplicitImport.t;
}.
End ImportResult.

(** Modelled from the spec: the parse nodes of [parseNodes.ts].  Every
    node carries the identity [id] under which the analyzer attaches
    information to it.  Node kinds without expression children are
    records; a record [XNode.t] is injected into [ParseNode] by the
    constructor [X]. *)
Module NameNode.
Record t := {
  id : nat;
  value : string;
}.
End NameNode.
Abbreviation NameNode := NameNode.t.

Module ModuleNameNode.
Record t := {
  id : nat;
  leadingDots : nat;
  nameParts : list NameNode;
  importInfo : option ImportResult.t;
}.
End ModuleNameNode.
Abbreviation ModuleNameNode := ModuleNameNode.t.

Module ImportAsNode.
Record t := {
  id : nat;
  module : ModuleNameNode;
  alias : option NameNode;
}.
End ImportAsNode.
Abbreviation ImportAsNode := ImportAsNode.t.

Module ImportFromAsNode.
Record t := {
  id : nat;
  name : NameNode;
  alias : option NameNode;
}.
End ImportFromAsNode.
Abbreviation ImportFromAsNode := ImportFromAsNode.t.

Module ImportFromNode.
Record t := {
  id : nat;
  module : ModuleNameNode;
  imports : list ImportFromAsNode;
  isWildcardImport : bool;
}.
End ImportFromNode.
Abbreviation ImportFromNode := ImportFromNode.t.

Inductive ParseNode :=
(* expressions *)
| Name (n : NameNode)
| MemberAccessNode (id : nat) (leftExpression : ParseNode) (memberName : NameNode)
| ConstantNode (id : nat) (constType : KeywordType.t)
| NumberNode (id : nat)
| StringListNode (id : nat) (unescapeErrors : list UnescapeErrorType.t)
| CallNode (id : nat) (leftExpression : ParseNode) (arguments : list ParseNode)
| ArgumentNode (id : nat) (argumentCategory : ArgumentCategory.t)
    (name : option NameNode) (valueExpression : ParseNode)
| BinaryOperationNode (id : nat) (leftExpression : ParseNode)
    (operator : OperatorType.t) (rightExpression : ParseNode)
| UnaryOperationNode (id : nat) (operator : OperatorType.t) (expression : ParseNode)
| TernaryNode (id : nat) (ifExpression testExpression elseExpression : ParseNode)
| AssignmentExpressionNode (id : nat) (name : NameNode) (rightExpression : ParseNode)
| AwaitNode (id : nat) (expression : ParseNode)
| TupleNode (id : nat) (expressions : list ParseNode)
| ListNode (id : nat) (entries : list ParseNode)
| UnpackNode (id : nat) (expression : ParseNode)
| TypeAnnotationNode (id : nat) (valueExpression typeAnnotation : ParseNode)
| IndexNode (id : nat) (baseExpression : ParseNode) (items : list ParseNode)
| LambdaNode (id : nat) (parameters : list ParseNode) (expression : ParseNode)
| ListComprehensionNode (id : nat) (expression : ParseNode) (comprehensions : list ParseNode)
| ListComprehensionForNode (id : nat) (targetExpression iterableExpression : ParseNode)
| ListComprehensionIfNode (id : nat) (testExpression : ParseNode)
| YieldNode (id : nat) (expression : option ParseNode)
| YieldFromNode (id : nat) (expression : ParseNode)
(** any node kind the binder has no visitor for (dictionary, set, slice,
    ellipsis, ...): the base walker just visits its children in order *)
| OtherNode (id : nat) (children : list ParseNode)
(* statements *)
| AssignmentNode (id : nat) (leftExpression rightExpression : ParseNode)
    (typeAnnotationComment : option ParseNode)
| AugmentedAssignmentNode (id : nat) (leftExpression rightExpression destExpression : ParseNode)
| DelNode (id : nat) (expressions : list ParseNode)
| PassNode (id : nat)
| IfNode (id : nat) (testExpression ifSuite : ParseNode) (elseSuite : option ParseNode)
| WhileNode (id : nat) (testExpression whileSuite : ParseNode) (elseSuite : option ParseNode)
| ForNode (id : nat) (targetExpression iterableExpression forSuite : ParseNode)
    (elseSuite : option ParseNode)
| TryNode (id : nat) (trySuite : ParseNode) (exceptClauses : list ParseNode)
    (elseSuite finallySuite : option ParseNode)
| ExceptNode (id : nat) (typeExpression : option ParseNode) (name : option NameNode)
    (exceptSuite : ParseNode)
| WithNode (id : nat) (withItems : list ParseNode) (suite : ParseNode)
| WithItemNode (id : nat) (expression : ParseNode) (target : option ParseNode)
| RaiseNode (id : nat) (typeExpression valueExpression tracebackExpression : option ParseNode)
| ReturnNode (id : nat) (returnExpression : option ParseNode)
| BreakNode (id : nat)
| ContinueNode (id : nat)
| AssertNode (id : nat) (testExpression : ParseNode) (exceptionExpression : option ParseNode)
| GlobalNode (id : nat) (nameList : list NameNode)
| NonlocalNode (id : nat) (nameList : list NameNode)
| ImportNode (id : nat) (list : list ImportAsNode)
| ImportAs (n : ImportAsNode)
| ImportFrom (n : ImportFromNode)
| ImportFromAs (n : ImportFromAsNode)
| ModuleName (n : ModuleNameNode)
| ClassNode (id : nat) (decorators : list ParseNode) (name : NameNode)
    (arguments : list ParseNode) (suite : ParseNode)
| FunctionNode (id : nat) (decorators : list ParseNode) (isAsync : bool) (name : NameNode)
    (parameters : list ParseNode)
    (returnTypeAnnotation functionAnnotationComment : option ParseNode) (suite : ParseNode)
| ParameterNode (id : nat) (name : option NameNode)
    (typeAnnotation defaultValue : option ParseNode)
| DecoratorNode (id : nat) (leftExpression : ParseNode) (arguments : list ParseNode)
| SuiteNode (id : nat) (statements : list ParseNode)
| StatementListNode (id : nat) (statements : list ParseNode)
| ModuleNode (id : nat) (statements : list ParseNode).

(** The identity of a node: the key of the analyzer's side tables. *)
Definition nodeId (node : ParseNode) : nat :=
  match node with
  | Name n => NameNode.id n
  | ImportAs n => ImportAsNode.id n
  | ImportFrom n => ImportFromNode.id n
  | ImportFromAs n => ImportFromAsNode.id n
  | ModuleName n => ModuleNameNode.id n
  | MemberAccessNode id _ _ | ConstantNode id _ | NumberNode id | StringListNode id _
  | CallNode id _ _ | ArgumentNode id _ _ _ | BinaryOperationNode id _ _ _
  | UnaryOperationNode id _ _ | TernaryNode id _ _ _ | AssignmentExpressionNode id _ _
  | AwaitNode id _ | TupleNode id _ | ListNode id _ | UnpackNode id _
  | TypeAnnotationNode id _ _ | IndexNode id _ _ | LambdaNode id _ _
  | ListComprehensionNode id _ _ | ListComprehensionForNode id _ _
  | ListComprehensionIfNode id _ | YieldNode id _ | YieldFromNode id _ | OtherNode id _
  | AssignmentNode id _ _ _ | AugmentedAssignmentNode id _ _ _ | DelNode id _ | PassNode id
  | IfNode id _ _ _ | WhileNode id _ _ _ | ForNode id _ _ _ _ | TryNode id _ _ _ _
  | ExceptNode id _ _ _ | WithNode id _ _ | WithItemNode id _ _ | RaiseNode id _ _ _
  | ReturnNode id _ | BreakNode id | ContinueNode id | AssertNode id _ _
  | GlobalNode id _ | NonlocalNode id _ | ImportNode id _ | ClassNode id _ _ _ _
  | FunctionNode id _ _ _ _ _ _ _ | ParameterNode id _ _ _ | DecoratorNode id _ _
  | SuiteNode id _ | StatementListNode id _ | ModuleNode id _ => id
  end.

(* ================================================================== *)
(** ** Flow nodes *)
(* ================================================================== *)

(** Modelled from the spec: the flag bits of a flow node ([codeFlow.ts]),
    one bit per node kind, [Unbind] being a modifier of [Assignment]. *)
Module FlowFlags.
Definition Unreachable : Z := 1.
Definition Start : Z := 2.
Definition BranchLabel : Z := 4.
Definition LoopLabel : Z := 8.
Definition Assignment : Z := 16.
Definition Unbind : Z := 32.
Definition WildcardImport : Z := 64.
Definition TrueCondition : Z := 128.
Definition FalseCondition : Z := 256.
Definition Call : Z := 512.
Definition PreFinallyGate : Z := 1024.
Definition PostFinally : Z := 2048.
Definition AssignmentAlias : Z := 4096.
End FlowFlags.

(** The JavaScript test [a & b] used as a condition. *)
Definition hasFlag (flags bit : Z) : bool := negb (Z.land flags bit =? 0)%Z.

(** Modelled from the spec: the flow-node variants of [codeFlow.ts].  A
    node refers to its antecedent directly.  The antecedent list of a
    label is the one part of the graph that keeps changing while the
    binder runs: it is kept in the heap under the label's id, and a
    [Label] value stands for the reference to that label. *)
Module FlowNode.
Inductive t :=
| Base (flags : Z) (id : nat)
| Label (flags : Z) (id : nat)
| Assignment (flags : Z) (id : nat) (node : ParseNode) (antecedent : t) (targetSymbolId : nat)
| AssignmentAlias (flags : Z) (id : nat) (antecedent : t) (targetSymbolId aliasSymbolId : nat)
| Call (flags : Z) (id : nat) (node : ParseNode) (antecedent : t)
| Condition (flags : Z) (id : nat) (expression : ParseNode) (antecedent : t)
| PreFinallyGate (flags : Z) (id : nat) (antecedent : t) (isGateClosed : bool)
| PostFinally (flags : Z) (id : nat) (antecedent : option t) (preFinallyGate : t)
| WildcardImport (flags : Z) (id : nat) (node : ImportFromNode) (names : list string)
    (antecedent : t).

Definition flags (n : t) : Z :=
  match n with
  | Base f _ | Label f _ | Assignment f _ _ _ _ | AssignmentAlias f _ _ _ _
  | Call f _ _ _ | Condition f _ _ _ | PreFinallyGate f _ _ _ | PostFinally f _ _ _
  | WildcardImport f _ _ _ _ => f
  end.

Definition id (n : t) : nat :=
  match n with
  | Base _ i | Label _ i | Assignment _ i _ _ _ | AssignmentAlias _ i _ _ _
  | Call _ i _ _ | Condition _ i _ _ | PreFinallyGate _ i _ _ | PostFinally _ i _ _
  | WildcardImport _ i _ _ _ => i
  end.

(** [flowNode.flags |= bit] *)
Definition orFlags (bit : Z) (n : t) : t :=
  match n with
  | Base f i => Base (Z.lor f bit) i
  | Label f i => Label (Z.lor f bit) i
  | Assignment f i nd a s => Assignment (Z.lor f bit) i nd a s
  | AssignmentAlias f i a s1 s2 => AssignmentAlias (Z.lor f bit) i a s1 s2
  | Call f i nd a => Call (Z.lor f bit) i nd a
  | Condition f i e a => Condition (Z.lor f bit) i e a
  | PreFinallyGate f i a g => PreFinallyGate (Z.lor f bit) i a g
  | PostFinally f i a g => PostFinally (Z.lor f bit) i a g
  | WildcardImport f i nd ns a => WildcardImport (Z.lor f bit) i nd ns a
  end.
End FlowNode.
Abbreviation FlowNode := FlowNode.t.

(** [codeFlow.ts] hands out flow-node ids from a counter that starts at
    1; the static initialiser of the [Binder] class takes the first one
    for the node that stands for unreachable code. *)
Definition _unreachableFlowNode : FlowNode :=
  FlowNode.Base FlowFlags.Unreachable 1.

(* ================================================================== *)
(** ** Declarations, symbols and scopes *)
(* ================================================================== *)

(** A JavaScript [Map] whose iteration order matters: an association
    list in insertion order. *)
Fixpoint assocGet {A} (k : string) (m : list (string * A)) : option A :=
  match m with
  | [] => None
  | (k', v) :: m' => if String.eqb k k' then Some v else assocGet k m'
  end.

Fixpoint assocSet {A} (k : string) (v : A) (m : list (string * A)) : list (string * A) :=
  match m with
  | [] => [(k, v)]
  | (k', v') :: m' => if String.eqb k k' then (k, v) :: m' else (k', v') :: assocSet k v m'
  end.

(** Modelled from the spec: [ModuleLoaderActions] of [declaration.ts],
    a path and the loader actions of the implicitly imported
    submodules. *)
Inductive ModuleLoaderActions := mkModuleLoaderActions {
  loaderPath : string;
  loaderImplicitImports : option (list (string * ModuleLoaderActions));
}.

(** Modelled from the spec: the declaration variants of
    [declaration.ts].  [node] is the identity of the declaring parse
    node; text ranges are left out. *)
Inductive AliasDeclaration := mkAliasDeclaration {
  aliasNode : nat;
  aliasPath : string;
  aliasModuleName : string;
  symbolName : option string;
  usesLocalName : bool;
  firstNamePart : option string;
  submoduleFallback : option AliasDeclaration;
  aliasImplicitImports : option (list (string * ModuleLoaderActions));
}.

Module VariableDeclaration.
Record t := {
  node : nat;
  isConstant : bool;
  inferredTypeSource : option nat;
  typeAnnotationNode : option nat;
  isFinal : bool;
  isDefinedByMemberAccess : bool;
  typeAliasName : option nat;
  typeAliasAnnotation : option nat;
  path : string;
  moduleName : string;
}.
End VariableDeclaration.

Module FunctionDeclaration.
Record t := {
  node : nat;
  isMethod : bool;
  isGenerator : bool;
  returnStatements : option (list nat);
  yieldStatements : option (list nat);
  raiseStatements : option (list nat);
  path : string;
  moduleName : string;
}.

Definition pushReturnStatement (n : nat) (d : t) : t :=
  {| node := node d; isMethod := isMethod d; isGenerator := isGenerator d;
     returnStatements := Some (default [] (returnStatements d) ++ [n]);
     yieldStatements := yieldStatements d; raiseStatements := raiseStatements d;
     path := path d; moduleName := moduleName d |}.

Definition pushRaiseStatement (n : nat) (d : t) : t :=
  {| node := node d; isMethod := isMethod d; isGenerator := isGenerator d;
     returnStatements := returnStatements d;
     yieldStatements := yieldStatements d;
     raiseStatements := Some (default [] (raiseStatements d) ++ [n]);
     path := path d; moduleName := moduleName d |}.

Definition pushYieldStatement (n : nat) (d : t) : t :=
  {| node := node d; isMethod := isMethod d; isGenerator := isGenerator d;
     returnStatements := returnStatements d;
     yieldStatements := Some (default [] (yieldStatements d) ++ [n]);
     raiseStatements := raiseStatements d;
     path := path d; moduleName := moduleName d |}.

Definition setIsGenerator (b : bool) (d : t) : t :=
  {| node := node d; isMethod := isMethod d; isGenerator := b;
     returnStatements := returnStatements d;
     yieldStatements := yieldStatements d; raiseStatements := raiseStatements d;
     path := path d; moduleName := moduleName d |}.
End FunctionDeclaration.

Inductive Declaration :=
| IntrinsicDeclaration (node : nat) (intrinsicType : string) (path moduleName : string)
| VariableDecl (d : VariableDeclaration.t)
| ParameterDeclaration (node : nat) (path moduleName : string)
| FunctionDecl (d : FunctionDeclaration.t)
| ClassDeclaration (node : nat) (path moduleName : string)
| SpecialBuiltInClassDeclaration (node : nat) (path moduleName : string)
| AliasDecl (d : AliasDeclaration).

(** Modelled from the spec: the flag set of a symbol ([symbol.ts]). *)
Module SymbolFlags.
Definition None_ : Z := 0.
Definition InitiallyUnbound : Z := 1.
Definition ExternallyHidden : Z := 2.
Definition ClassMember : Z := 4.
Definition InstanceMember : Z := 8.
Definition PrivateMember : Z := 16.
Definition IgnoredForProtocolMatch : Z := 32.
Definition ClassVar : Z := 64.
End SymbolFlags.

(** The id that stands for "no single symbol" in an assignment node. *)
Definition indeterminateSymbolId : nat := 0.

(** Modelled from the spec: a symbol ([symbol.ts]) has a process-unique
    id, a flag set and the ordered list of its declarations; a
    declaration is appended and never removed.  Declarations are
    objects of the heap, the list holds references to them. *)
Module Symbol.
Record t := {
  id : nat;
  flags : Z;
  declarations : list nat;
}.

Definition orFlags (bit : Z) (s : t) : t :=
  {| id := id s; flags := Z.lor (flags s) bit; declarations := declarations s |}.

Definition setIsExternallyHidden := orFlags SymbolFlags.ExternallyHidden.
Definition setIsIgnoredForProtocolMatch := orFlags SymbolFlags.IgnoredForProtocolMatch.
Definition setIsInstanceMember := orFlags SymbolFlags.InstanceMember.
Definition setIsClassMember := orFlags SymbolFlags.ClassMember.
Definition setIsClassVar := orFlags SymbolFlags.ClassVar.
Definition setIsPrivateMember := orFlags SymbolFlags.PrivateMember.

Definition isIgnoredForProtocolMatch (s : t) : bool :=
  hasFlag (flags s) SymbolFlags.IgnoredForProtocolMatch.
Definition isClassMember (s : t) : bool := hasFlag (flags s) SymbolFlags.ClassMember.

Definition addDeclaration (declaration : nat) (s : t) : t :=
  {| id := id s; flags := flags s; declarations := declarations s ++ [declaration] |}.
End Symbol.

Module ScopeType.
Inductive t := Builtin | Module | Class | Function | ListComprehension.
End ScopeType.

(** Modelled from the spec: a scope ([scope.ts]) has a kind, a parent
    and a symbol table.  The binder never iterates over the table of a
    scope it builds, so that table is a finite map from names to the
    symbols (references into the heap). *)
Module Scope.
Record t := {
  type : ScopeType.t;
  parent : option nat;
  symbolTable : gmap string nat;
}.

Definition setSymbol (name : string) (symbol : nat) (s : t) : t :=
  {| type := type s; parent := parent s; symbolTable := <[name := symbol]> (symbolTable s) |}.
End Scope.

Module NameBindingType.
Inductive t := Nonlocal | Global.
#[global] Instance eq_dec : EqDecision t.
Proof. solve_decision. Defined.
End NameBindingType.

(* ================================================================== *)
(** ** The file being bound *)
(* ================================================================== *)

Module DiagnosticLevel.
Inductive t := none | information | warning | error.
End DiagnosticLevel.

Module PythonVersion.
Definition V3_10 : Z := 778.
End PythonVersion.

Module ExecutionEnvironment.
Record t := {
  pythonVersion : Z;
  pythonPlatform : option string;
}.
End ExecutionEnvironment.

(** Modelled from the spec: what [importLookup] returns for a resolved
    path.  The table of the imported module is iterated in insertion
    order, so it is an association list here. *)
Module ImportLookupResult.
Record t := {
  symbolTable : list (string * Symbol.t);
}.
End ImportLookupResult.

(** Modelled from the spec: the file-info record ([analyzerFileInfo.ts]),
    limited to what the binder reads.  [builtinsScope] is the symbol
    table of the scope of the builtins module, when there is one. *)
Module AnalyzerFileInfo.
Record t := {
  filePath : string;
  moduleName : string;
  isStubFile : bool;
  isTypingStubFile : bool;
  builtinsScope : option (list (string * Symbol.t));
  executionEnvironment : ExecutionEnvironment.t;
  reportMissingImports : DiagnosticLevel.t;
  reportMissingTypeStubs : DiagnosticLevel.t;
  reportMissingModuleSource : DiagnosticLevel.t;
  reportInvalidStringEscapeSequence : DiagnosticLevel.t;
  reportPrivateUsage : DiagnosticLevel.t;
  importLookup : string -> option ImportLookupResult.t;
}.
End AnalyzerFileInfo.

(** A diagnostic handed to the sink: its category, the localised
    message (by its key and argument), the rule it was reported under
    and the node it is reported at. *)
Module Diagnostic.
Record t := {
  category : DiagnosticLevel.t;
  message : string;
  argument : string;
  rule : option string;
  range : nat;
  createTypeStubAction : option string;
}.
End Diagnostic.

(* ================================================================== *)
(** ** The state of the binder *)
(* ================================================================== *)

(** The closure handed to [_deferBinding], defunctionalised: the
    function or lambda whose body is bound later, with what the closure
    captured (the function declaration, and the chain of enclosing
    scope nodes that the parent links of the node give, each with the
    flag described at [ParseTreeUtils]). *)
Inductive DeferredCallback :=
| FunctionBody (node : ParseNode) (functionDeclaration : nat)
    (ancestors : list (ParseNode * bool))
| LambdaBody (node : ParseNode) (ancestors : list (ParseNode * bool)).

Module DeferredBindingTask.
Record t := {
  scope : option nat;
  nonLocalBindingsMap : nat;
  codeFlowExpressionMap : option nat;
  callback : DeferredCallback;
}.
End DeferredBindingTask.

(** The fields of the [Binder] class.  A field that holds a scope, a
    declaration or a map holds a reference into the heap; a field that
    holds a flow label holds the [FlowNode.Label] value of that label. *)
Record Binder := {
  _fileInfo : AnalyzerFileInfo.t;
  _deferredBindingTasks : list DeferredBindingTask.t;
  _currentScope : option nat;
  _notLocalBindings : nat;
  _nestedExceptDepth : Z;
  _currentFlowNode : option FlowNode;
  _targetFunctionDeclaration : option nat;
  _currentBreakTarget : option FlowNode;
  _currentContinueTarget : option FlowNode;
  _currentTrueTarget : option FlowNode;
  _currentFalseTarget : option FlowNode;
  _currentExceptTargets : option (list FlowNode);
  _finallyTargets : list FlowNode;
  _currentReturnTarget : option FlowNode;
  _currentExecutionScopeReferenceMap : option nat;
  _typingImportAliases : list string;
  _typingSymbolAliases : gmap string string;
}.

(** The objects the binder allocates and mutates.  [nextFlowNodeId] and
    [nextSymbolId] are the counters behind [getUniqueFlowNodeId] and the
    symbol ids; [antecedents] maps the id of a label to its antecedent
    list; scopes, declarations and the two kinds of maps are found under
    a reference drawn from [nextObjectId]. *)
Record Heap := {
  nextFlowNodeId : nat;
  antecedents : gmap nat (list FlowNode);
  nextSymbolId : nat;
  symbols : gmap nat Symbol.t;
  nextObjectId : nat;
  scopes : gmap nat Scope.t;
  declarations : gmap nat Declaration;
  nameBindings : gmap nat (gmap string NameBindingType.t);
  referenceMaps : gmap nat (gmap string string);
}.

(** The information [analyzerNodeInfo.ts] attaches to parse nodes, one
    table per attachment, keyed by the identity of the node. *)
Record NodeInfo := {
  flowNode : gmap nat FlowNode;
  afterFlowNode : gmap nat FlowNode;
  scope : gmap nat nat;
  declaration : gmap nat nat;
  codeFlowExpressions : gmap nat nat;
}.

(** The whole state a method of the binder runs in. *)
Record State := {
  binder : Binder;
  heap : Heap;
  nodeInfo : NodeInfo;
  diagnostics : list Diagnostic.t;
}.

(** Field updates ([this.field = v]). *)
Definition set__deferredBindingTasks (v : list DeferredBindingTask.t) (b : Binder) : Binder :=
  {| _fileInfo := _fileInfo b; _deferredBindingTasks := v; _currentScope := _currentScope b;
  _notLocalBindings := _notLocalBindings b; _nestedExceptDepth := _nestedExceptDepth b;
  _currentFlowNode := _currentFlowNode b; _targetFunctionDeclaration :=
  _targetFunctionDeclaration b; _currentBreakTarget := _currentBreakTarget b;
  _currentContinueTarget := _currentContinueTarget b; _currentTrueTarget := _currentTrueTarget
  b; _currentFalseTarget := _currentFalseTarget b; _currentExceptTargets :=
  _currentExceptTargets b; _finallyTargets := _finallyTargets b; _currentReturnTarget :=
  _currentReturnTarget b; _currentExecutionScopeReferenceMap :=
  _currentExecutionScopeReferenceMap b; _typingImportAliases := _typingImportAliases b;
  _typingSymbolAliases := _typingSymbolAliases b |}.
Definition set__currentScope (v : option nat) (b : Binder) : Binder :=
  {| _fileInfo := _fileInfo b; _deferredBindingTasks := _deferredBindingTasks b; _currentScope
  := v; _notLocalBindings := _notLocalBindings b; _nestedExceptDepth := _nestedExceptDepth b;
  _currentFlowNode := _currentFlowNode b; _targetFunctionDeclaration :=
  _targetFunctionDeclaration b; _currentBreakTarget := _currentBreakTarget b;
  _currentContinueTarget := _currentContinueTarget b; _currentTrueTarget := _currentTrueTarget
  b; _currentFalseTarget := _currentFalseTarget b; _currentExceptTargets :=
  _currentExceptTargets b; _finallyTargets := _finallyTargets b; _currentReturnTarget :=
  _currentReturnTarget b; _currentExecutionScopeReferenceMap :=
  _currentExecutionScopeReferenceMap b; _typingImportAliases := _typingImportAliases b;
  _typingSymbolAliases := _typingSymbolAliases b |}.
Definition set__notLocalBindings (v : nat) (b : Binder) : Binder :=
  {| _fileInfo := _fileInfo b; _deferredBindingTasks := _deferredBindingTasks b; _currentScope
  := _currentScope b; _notLocalBindings := v; _nestedExceptDepth := _nestedExceptDepth b;
  _currentFlowNode := _currentFlowNode b; _targetFunctionDeclaration :=
  _targetFunctionDeclaration b; _currentBreakTarget := _currentBreakTarget b;
  _currentContinueTarget := _currentContinueTarget b; _currentTrueTarget := _currentTrueTarget
  b; _currentFalseTarget := _currentFalseTarget b; _currentExceptTargets :=
  _currentExceptTargets b; _finallyTargets := _finallyTargets b; _currentReturnTarget :=
  _currentReturnTarget b; _currentExecutionScopeReferenceMap :=
  _currentExecutionScopeReferenceMap b; _typingImportAliases := _typingImportAliases b;
  _typingSymbolAliases := _typingSymbolAliases b |}.
Definition set__nestedExceptDepth (v : Z) (b : Binder) : Binder :=
  {| _fileInfo := _fileInfo b; _deferredBindingTasks := _deferredBindingTasks b; _currentScope
  := _currentScope b; _notLocalBindings := _notLocalBindings b; _nestedExceptDepth := v;
  _currentFlowNode := _currentFlowNode b; _targetFunctionDeclaration :=
  _targetFunctionDeclaration b; _currentBreakTarget := _currentBreakTarget b;
  _currentContinueTarget := _currentContinueTarget b; _currentTrueTarget := _currentTrueTarget
  b; _currentFalseTarget := _currentFalseTarget b; _currentExceptTargets :=
  _currentExceptTargets b; _finallyTargets := _finallyTargets b; _currentReturnTarget :=
  _currentReturnTarget b; _currentExecutionScopeReferenceMap :=
  _currentExecutionScopeReferenceMap b; _typingImportAliases := _typingImportAliases b;
  _typingSymbolAliases := _typingSymbolAliases b |}.
Definition set__currentFlowNode (v : option FlowNode) (b : Binder) : Binder :=
  {| _fileInfo := _fileInfo b; _deferredBindingTasks := _deferredBindingTasks b; _currentScope
  := _currentScope b; _notLocalBindings := _notLocalBindings b; _nestedExceptDepth :=
  _nestedExceptDepth b; _currentFlowNode := v; _targetFunctionDeclaration :=
  _targetFunctionDeclaration b; _currentBreakTarget := _currentBreakTarget b;
  _currentContinueTarget := _currentContinueTarget b; _currentTrueTarget := _currentTrueTarget
  b; _currentFalseTarget := _currentFalseTarget b; _currentExceptTargets :=
  _currentExceptTargets b; _finallyTargets := _finallyTargets b; _currentReturnTarget :=
  _currentReturnTarget b; _currentExecutionScopeReferenceMap :=
  _currentExecutionScopeReferenceMap b; _typingImportAliases := _typingImportAliases b;
  _typingSymbolAliases := _typingSymbolAliases b |}.
Definition set__targetFunctionDeclaration (v : option nat) (b : Binder) : Binder :=
  {| _fileInfo := _fileInfo b; _deferredBindingTasks := _deferredBindingTasks b; _currentScope
  := _currentScope b; _notLocalBindings := _notLocalBindings b; _nestedExceptDepth :=
  _nestedExceptDepth b; _currentFlowNode := _currentFlowNode b; _targetFunctionDeclaration :=
  v; _currentBreakTarget := _currentBreakTarget b; _currentContinueTarget :=
  _currentContinueTarget b; _currentTrueTarget := _currentTrueTarget b; _currentFalseTarget :=
  _currentFalseTarget b; _currentExceptTargets := _currentExceptTargets b; _finallyTargets :=
  _finallyTargets b; _currentReturnTarget := _currentReturnTarget b;
  _currentExecutionScopeReferenceMap := _currentExecutionScopeReferenceMap b;
  _typingImportAliases := _typingImportAliases b; _typingSymbolAliases := _typingSymbolAliases
  b |}.
Definition set__currentBreakTarget (v : option FlowNode) (b : Binder) : Binder :=
  {| _fileInfo := _fileInfo b; _deferredBindingTasks := _deferredBindingTasks b; _currentScope
  := _currentScope b; _notLocalBindings := _notLocalBindings b; _nestedExceptDepth :=
  _nestedExceptDepth b; _currentFlowNode := _currentFlowNode b; _targetFunctionDeclaration :=
  _targetFunctionDeclaration b; _currentBreakTarget := v; _currentContinueTarget :=
  _currentContinueTarget b; _currentTrueTarget := _currentTrueTarget b; _currentFalseTarget :=
  _currentFalseTarget b; _currentExceptTargets := _currentExceptTargets b; _finallyTargets :=
  _finallyTargets b; _currentReturnTarget := _currentReturnTarget b;
  _currentExecutionScopeReferenceMap := _currentExecutionScopeReferenceMap b;
  _typingImportAliases := _typingImportAliases b; _typingSymbolAliases := _typingSymbolAliases
  b |}.
Definition set__currentContinueTarget (v : option FlowNode) (b : Binder) : Binder :=
  {| _fileInfo := _fileInfo b; _deferredBindingTasks := _deferredBindingTasks b; _currentScope
  := _currentScope b; _notLocalBindings := _notLocalBindings b; _nestedExceptDepth :=
  _nestedExceptDepth b; _currentFlowNode := _currentFlowNode b; _targetFunctionDeclaration :=
  _targetFunctionDeclaration b; _currentBreakTarget := _currentBreakTarget b;
  _currentContinueTarget := v; _currentTrueTarget := _currentTrueTarget b; _currentFalseTarget
  := _currentFalseTarget b; _currentExceptTargets := _currentExceptTargets b; _finallyTargets
  := _finallyTargets b; _currentReturnTarget := _currentReturnTarget b;
  _currentExecutionScopeReferenceMap := _currentExecutionScopeReferenceMap b;
  _typingImportAliases := _typingImportAliases b; _typingSymbolAliases := _typingSymbolAliases
  b |}.
Definition set__currentTrueTarget (v : option FlowNode) (b : Binder) : Binder :=
  {| _fileInfo := _fileInfo b; _deferredBindingTasks := _deferredBindingTasks b; _currentScope
  := _currentScope b; _notLocalBindings := _notLocalBindings b; _nestedExceptDepth :=
  _nestedExceptDepth b; _currentFlowNode := _currentFlowNode b; _targetFunctionDeclaration :=
  _targetFunctionDeclaration b; _currentBreakTarget := _currentBreakTarget b;
  _currentContinueTarget := _currentContinueTarget b; _currentTrueTarget := v;
  _currentFalseTarget := _currentFalseTarget b; _currentExceptTargets := _currentExceptTargets
  b; _finallyTargets := _finallyTargets b; _currentReturnTarget := _currentReturnTarget b;
  _currentExecutionScopeReferenceMap := _currentExecutionScopeReferenceMap b;
  _typingImportAliases := _typingImportAliases b; _typingSymbolAliases := _typingSymbolAliases
  b |}.
Definition set__currentFalseTarget (v : option FlowNode) (b : Binder) : Binder :=
  {| _fileInfo := _fileInfo b; _deferredBindingTasks := _deferredBindingTasks b; _currentScope
  := _currentScope b; _notLocalBindings := _notLocalBindings b; _nestedExceptDepth :=
  _nestedExceptDepth b; _currentFlowNode := _currentFlowNode b; _targetFunctionDeclaration :=
  _targetFunctionDeclaration b; _currentBreakTarget := _currentBreakTarget b;
  _currentContinueTarget := _currentContinueTarget b; _currentTrueTarget := _currentTrueTarget
  b; _currentFalseTarget := v; _currentExceptTargets := _currentExceptTargets b;
  _finallyTargets := _finallyTargets b; _currentReturnTarget := _currentReturnTarget b;
  _currentExecutionScopeReferenceMap := _currentExecutionScopeReferenceMap b;
  _typingImportAliases := _typingImportAliases b; _typingSymbolAliases := _typingSymbolAliases
  b |}.
Definition set__currentExceptTargets (v : option (list FlowNode)) (b : Binder) : Binder :=
  {| _fileInfo := _fileInfo b; _deferredBindingTasks := _deferredBindingTasks b; _currentScope
  := _currentScope b; _notLocalBindings := _notLocalBindings b; _nestedExceptDepth :=
  _nestedExceptDepth b; _currentFlowNode := _currentFlowNode b; _targetFunctionDeclaration :=
  _targetFunctionDeclaration b; _currentBreakTarget := _currentBreakTarget b;
  _currentContinueTarget := _currentContinueTarget b; _currentTrueTarget := _currentTrueTarget
  b; _currentFalseTarget := _currentFalseTarget b; _currentExceptTargets := v; _finallyTargets
  := _finallyTargets b; _currentReturnTarget := _currentReturnTarget b;
  _currentExecutionScopeReferenceMap := _currentExecutionScopeReferenceMap b;
  _typingImportAliases := _typingImportAliases b; _typingSymbolAliases := _typingSymbolAliases
  b |}.
Definition set__finallyTargets (v : list FlowNode) (b : Binder) : Binder :=
  {| _fileInfo := _fileInfo b; _deferredBindingTasks := _deferredBindingTasks b; _currentScope
  := _currentScope b; _notLocalBindings := _notLocalBindings b; _nestedExceptDepth :=
  _nestedExceptDepth b; _currentFlowNode := _currentFlowNode b; _targetFunctionDeclaration :=
  _targetFunctionDeclaration b; _currentBreakTarget := _currentBreakTarget b;
  _currentContinueTarget := _currentContinueTarget b; _currentTrueTarget := _currentTrueTarget
  b; _currentFalseTarget := _currentFalseTarget b; _currentExceptTargets :=
  _currentExceptTargets b; _finallyTargets := v; _currentReturnTarget := _currentReturnTarget
  b; _currentExecutionScopeReferenceMap := _currentExecutionScopeReferenceMap b;
  _typingImportAliases := _typingImportAliases b; _typingSymbolAliases := _typingSymbolAliases
  b |}.
Definition set__currentReturnTarget (v : option FlowNode) (b : Binder) : Binder :=
  {| _fileInfo := _fileInfo b; _deferredBindingTasks := _deferredBindingTasks b; _currentScope
  := _currentScope b; _notLocalBindings := _notLocalBindings b; _nestedExceptDepth :=
  _nestedExceptDepth b; _currentFlowNode := _currentFlowNode b; _targetFunctionDeclaration :=
  _targetFunctionDeclaration b; _currentBreakTarget := _currentBreakTarget b;
  _currentContinueTarget := _currentContinueTarget b; _currentTrueTarget := _currentTrueTarget
  b; _currentFalseTarget := _currentFalseTarget b; _currentExceptTargets :=
  _currentExceptTargets b; _finallyTargets := _finallyTargets b; _currentReturnTarget := v;
  _currentExecutionScopeReferenceMap := _currentExecutionScopeReferenceMap b;
  _typingImportAliases := _typingImportAliases b; _typingSymbolAliases := _typingSymbolAliases
  b |}.
Definition set__currentExecutionScopeReferenceMap (v : option nat) (b : Binder) : Binder :=
  {| _fileInfo := _fileInfo b; _deferredBindingTasks := _deferredBindingTasks b; _currentScope
  := _currentScope b; _notLocalBindings := _notLocalBindings b; _nestedExceptDepth :=
  _nestedExceptDepth b; _currentFlowNode := _currentFlowNode b; _targetFunctionDeclaration :=
  _targetFunctionDeclaration b; _currentBreakTarget := _currentBreakTarget b;
  _currentContinueTarget := _currentContinueTarget b; _currentTrueTarget := _currentTrueTarget
  b; _currentFalseTarget := _currentFalseTarget b; _currentExceptTargets :=
  _currentExceptTargets b; _finallyTargets := _finallyTargets b; _currentReturnTarget :=
  _currentReturnTarget b; _currentExecutionScopeReferenceMap := v; _typingImportAliases :=
  _typingImportAliases b; _typingSymbolAliases := _typingSymbolAliases b |}.
Definition set__typingImportAliases (v : list string) (b : Binder) : Binder :=
  {| _fileInfo := _fileInfo b; _deferredBindingTasks := _deferredBindingTasks b; _currentScope
  := _currentScope b; _notLocalBindings := _notLocalBindings b; _nestedExceptDepth :=
  _nestedExceptDepth b; _currentFlowNode := _currentFlowNode b; _targetFunctionDeclaration :=
  _targetFunctionDeclaration b; _currentBreakTarget := _currentBreakTarget b;
  _currentContinueTarget := _currentContinueTarget b; _currentTrueTarget := _currentTrueTarget
  b; _currentFalseTarget := _currentFalseTarget b; _currentExceptTargets :=
  _currentExceptTargets b; _finallyTargets := _finallyTargets b; _currentReturnTarget :=
  _currentReturnTarget b; _currentExecutionScopeReferenceMap :=
  _currentExecutionScopeReferenceMap b; _typingImportAliases := v; _typingSymbolAliases :=
  _typingSymbolAliases b |}.
Definition set__typingSymbolAliases (v : gmap string string) (b : Binder) : Binder :=
  {| _fileInfo := _fileInfo b; _deferredBindingTasks := _deferredBindingTasks b; _currentScope
  := _currentScope b; _notLocalBindings := _notLocalBindings b; _nestedExceptDepth :=
  _nestedExceptDepth b; _currentFlowNode := _currentFlowNode b; _targetFunctionDeclaration :=
  _targetFunctionDeclaration b; _currentBreakTarget := _currentBreakTarget b;
  _currentContinueTarget := _currentContinueTarget b; _currentTrueTarget := _currentTrueTarget
  b; _currentFalseTarget := _currentFalseTarget b; _currentExceptTargets :=
  _currentExceptTargets b; _finallyTargets := _finallyTargets b; _currentReturnTarget :=
  _currentReturnTarget b; _currentExecutionScopeReferenceMap :=
  _currentExecutionScopeReferenceMap b; _typingImportAliases := _typingImportAliases b;
  _typingSymbolAliases := v |}.

Definition set_nextFlowNodeId (v : nat) (h : Heap) : Heap :=
  {| nextFlowNodeId := v; antecedents := antecedents h; nextSymbolId := nextSymbolId h;
  symbols := symbols h; nextObjectId := nextObjectId h; scopes := scopes h; declarations :=
  declarations h; nameBindings := nameBindings h; referenceMaps := referenceMaps h |}.
Definition set_antecedents (v : gmap nat (list FlowNode)) (h : Heap) : Heap :=
  {| nextFlowNodeId := nextFlowNodeId h; antecedents := v; nextSymbolId := nextSymbolId h;
  symbols := symbols h; nextObjectId := nextObjectId h; scopes := scopes h; declarations :=
  declarations h; nameBindings := nameBindings h; referenceMaps := referenceMaps h |}.
Definition set_nextSymbolId (v : nat) (h : Heap) : Heap :=
  {| nextFlowNodeId := nextFlowNodeId h; antecedents := antecedents h; nextSymbolId := v;
  symbols := symbols h; nextObjectId := nextObjectId h; scopes := scopes h; declarations :=
  declarations h; nameBindings := nameBindings h; referenceMaps := referenceMaps h |}.
Definition set_symbols (v : gmap nat Symbol.t) (h : Heap) : Heap :=
  {| nextFlowNodeId := nextFlowNodeId h; antecedents := antecedents h; nextSymbolId :=
  nextSymbolId h; symbols := v; nextObjectId := nextObjectId h; scopes := scopes h;
  declarations := declarations h; nameBindings := nameBindings h; referenceMaps :=
  referenceMaps h |}.
Definition set_nextObjectId (v : nat) (h : Heap) : Heap :=
  {| nextFlowNodeId := nextFlowNodeId h; antecedents := antecedents h; nextSymbolId :=
  nextSymbolId h; symbols := symbols h; nextObjectId := v; scopes := scopes h; declarations :=
  declarations h; nameBindings := nameBindings h; referenceMaps := referenceMaps h |}.
Definition set_scopes (v : gmap nat Scope.t) (h : Heap) : Heap :=
  {| nextFlowNodeId := nextFlowNodeId h; antecedents := antecedents h; nextSymbolId :=
  nextSymbolId h; symbols := symbols h; nextObjectId := nextObjectId h; scopes := v;
  declarations := declarations h; nameBindings := nameBindings h; referenceMaps :=
  referenceMaps h |}.
Definition set_declarations (v : gmap nat Declaration) (h : Heap) : Heap :=
  {| nextFlowNodeId := nextFlowNodeId h; antecedents := antecedents h; nextSymbolId :=
  nextSymbolId h; symbols := symbols h; nextObjectId := nextObjectId h; scopes := scopes h;
  declarations := v; nameBindings := nameBindings h; referenceMaps := referenceMaps h |}.
Definition set_nameBindings (v : gmap nat (gmap string NameBindingType.t)) (h : Heap) : Heap :=
  {| nextFlowNodeId := nextFlowNodeId h; antecedents := antecedents h; nextSymbolId :=
  nextSymbolId h; symbols := symbols h; nextObjectId := nextObjectId h; scopes := scopes h;
  declarations := declarations h; nameBindings := v; referenceMaps := referenceMaps h |}.
Definition set_referenceMaps (v : gmap nat (gmap string string)) (h : Heap) : Heap :=
  {| nextFlowNodeId := nextFlowNodeId h; antecedents := antecedents h; nextSymbolId :=
  nextSymbolId h; symbols := symbols h; nextObjectId := nextObjectId h; scopes := scopes h;
  declarations := declarations h; nameBindings := nameBindings h; referenceMaps := v |}.

Definition set_flowNode (v : gmap nat FlowNode) (i : NodeInfo) : NodeInfo :=
  {| flowNode := v; afterFlowNode := afterFlowNode i; scope := scope i; declaration :=
  declaration i; codeFlowExpressions := codeFlowExpressions i |}.
Definition set_afterFlowNode (v : gmap nat FlowNode) (i : NodeInfo) : NodeInfo :=
  {| flowNode := flowNode i; afterFlowNode := v; scope := scope i; declaration := declaration
  i; codeFlowExpressions := codeFlowExpressions i |}.
Definition set_scope (v : gmap nat nat) (i : NodeInfo) : NodeInfo :=
  {| flowNode := flowNode i; afterFlowNode := afterFlowNode i; scope := v; declaration :=
  declaration i; codeFlowExpressions := codeFlowExpressions i |}.
Definition set_declaration (v : gmap nat nat) (i : NodeInfo) : NodeInfo :=
  {| flowNode := flowNode i; afterFlowNode := afterFlowNode i; scope := scope i; declaration
  := v; codeFlowExpressions := codeFlowExpressions i |}.
Definition set_codeFlowExpressions (v : gmap nat nat) (i : NodeInfo) : NodeInfo :=
  {| flowNode := flowNode i; afterFlowNode := afterFlowNode i; scope := scope i; declaration
  := declaration i; codeFlowExpressions := v |}.

Definition set_binder (v : Binder) (s : State) : State :=
  {| binder := v; heap := heap s; nodeInfo := nodeInfo s; diagnostics := diagnostics s |}.
Definition set_heap (v : Heap) (s : State) : State :=
  {| binder := binder s; heap := v; nodeInfo := nodeInfo s; diagnostics := diagnostics s |}.
Definition set_nodeInfo (v : NodeInfo) (s : State) : State :=
  {| binder := binder s; heap := heap s; nodeInfo := v; diagnostics := diagnostics s |}.
Definition set_diagnostics (v : list Diagnostic.t) (s : State) : State :=
  {| binder := binder s; heap := heap s; nodeInfo := nodeInfo s; diagnostics := v |}.

(* ================================================================== *)
(** ** The monad the methods run in *)
(* ================================================================== *)

(** A method either returns in a new state, throws (an assertion that
    fails, a property read off [undefined]), or, for the recursive
    walker, stops for lack of fuel. *)
Inductive Result (A : Type) :=
| Ok (a : A) (s : State)
| Throw (error : string)
| OutOfFuel.
Arguments Ok {A} a s.
Arguments Throw {A} error.
Arguments OutOfFuel {A}.

Definition M (A : Type) : Type := State -> Result A.

Definition ret {A} (a : A) : M A := fun s => Ok a s.

Definition bind {A B} (m : M A) (f : A -> M B) : M B :=
  fun s =>
    match m s with
    | Ok a s' => f a s'
    | Throw e => Throw e
    | OutOfFuel => OutOfFuel
    end.

Definition throw {A} (error : string) : M A := fun _ => Throw error.
Definition outOfFuel {A} : M A := fun _ => OutOfFuel.
Definition gets {A} (f : State -> A) : M A := fun s => Ok (f s) s.
Definition modify (f : State -> State) : M unit := fun s => Ok tt (f s).

Declare Scope binder_scope.
Delimit Scope binder_scope with binder.
Notation "'let*' x ':=' m 'in' k" := (bind m (fun x => k))
  (at level 10, x name, m at level 100, k at level 200) : binder_scope.
Notation "'let*' ' p ':=' m 'in' k" := (bind m (fun x => match x with p => k end))
  (at level 10, p pattern, m at level 100, k at level 200) : binder_scope.
Notation "m ;; k" := (bind m (fun _ => k))
  (at level 100, k at level 200, right associativity) : binder_scope.
Local Open Scope binder_scope.

Definition getsBinder {A} (f : Binder -> A) : M A := gets (fun s => f (binder s)).
Definition getsHeap {A} (f : Heap -> A) : M A := gets (fun s => f (heap s)).
Definition getsNodeInfo {A} (f : NodeInfo -> A) : M A := gets (fun s => f (nodeInfo s)).
Definition modifyBinder (f : Binder -> Binder) : M unit :=
  modify (fun s => set_binder (f (binder s)) s).
Definition modifyHeap (f : Heap -> Heap) : M unit :=
  modify (fun s => set_heap (f (heap s)) s).
Definition modifyNodeInfo (f : NodeInfo -> NodeInfo) : M unit :=
  modify (fun s => set_nodeInfo (f (nodeInfo s)) s).

(** [value!] followed by a property access: a [TypeError] on [undefined]. *)
Definition unwrap {A} (o : option A) (what : string) : M A :=
  match o with
  | Some a => ret a
  | None => throw ("TypeError: " +:+ what +:+ " is undefined")
  end.

Definition assert (b : bool) (what : string) : M unit :=
  if b then ret tt else throw ("assertion failed: " +:+ what).

Definition when (b : bool) (m : M unit) : M unit := if b then m else ret tt.

(** [list.forEach(f)] and [for (const x of list)]. *)
Definition forEach {A} (l : list A) (f : A -> M unit) : M unit :=
  (fix go (l : list A) : M unit :=
     match l with
     | [] => ret tt
     | x :: l' => f x;; go l'
     end) l.

Definition whenSome {A} (o : option A) (f : A -> M unit) : M unit :=
  match o with
  | Some a => f a
  | None => ret tt
  end.

(* ================================================================== *)
(** ** Collaborators taken as parameters *)
(* ================================================================== *)

(** Functions the binder imports from modules whose source is not part
    of [binder.ts].  Nothing is assumed about them. *)
Class Collaborators := {
  (** [staticExpressions.ts] *)
  evaluateStaticBoolLikeExpression : ParseNode -> ExecutionEnvironment.t -> option bool;
  (** [codeFlow.ts] *)
  isCodeFlowSupportedForReference : ParseNode -> bool;
  createKeyForReference : ParseNode -> string;
  (** [symbolUtils.ts] *)
  getNamesInDunderAll : list (string * Symbol.t) -> option (list string);
  (** [symbolNameUtils.ts] *)
  isConstantName : string -> bool;
  isPrivateOrProtectedName : string -> bool;
  (** [pathUtils.ts] *)
  getFileName : string -> string;
  stripFileExtension : string -> string;
  (** [parseTreeUtils.ts] *)
  getDocString : list ParseNode -> option string;
}.

(** [name.startsWith(prefix)] *)
Definition startsWith (prefix name : string) : bool := String.prefix prefix name.

(* ================================================================== *)
(** ** Objects of the heap *)
(* ================================================================== *)

(** [getUniqueFlowNodeId()] of [codeFlow.ts]. *)
Definition getUniqueFlowNodeId : M nat :=
  let* id := getsHeap nextFlowNodeId in
  modifyHeap (set_nextFlowNodeId (S id));;
  ret id.

(** A fresh reference for a scope, a declaration or a map. *)
Definition newObject : M nat :=
  let* ref := getsHeap nextObjectId in
  modifyHeap (set_nextObjectId (S ref));;
  ret ref.

(** [label.antecedents] *)
Definition antecedentsOf (h : Heap) (label : FlowNode) : list FlowNode :=
  default [] (antecedents h !! FlowNode.id label).

(** [new Scope(type, parent)] *)
Definition newScope (type : ScopeType.t) (parent : option nat) : M nat :=
  let* ref := newObject in
  modifyHeap (fun h =>
    set_scopes (<[ref := {| Scope.type := type; Scope.parent := parent;
                            Scope.symbolTable := ∅ |}]> (scopes h)) h);;
  ret ref.

Definition getScopeObject (scope : nat) : M Scope.t :=
  let* o := getsHeap (fun h => scopes h !! scope) in
  unwrap o "scope".

(** [scope.type] *)
Definition scopeType (scope : nat) : M ScopeType.t :=
  let* sc := getScopeObject scope in ret (Scope.type sc).

(** [scope.parent] *)
Definition scopeParent (scope : nat) : M (option nat) :=
  let* sc := getScopeObject scope in ret (Scope.parent sc).

(** Modelled from the spec: [scope.lookUpSymbol(name)] returns the symbol
    defined in this scope or nothing. *)
Definition lookUpSymbol (scope : nat) (name : string) : M (option nat) :=
  let* sc := getScopeObject scope in ret (Scope.symbolTable sc !! name).

(** Modelled from the spec: [scope.addSymbol(name, flags)] creates a
    symbol and installs it. *)
Definition addSymbol (scope : nat) (name : string) (flags : Z) : M nat :=
  let* sc := getScopeObject scope in
  let* id := getsHeap nextSymbolId in
  modifyHeap (fun h =>
    set_nextSymbolId (S id)
      (set_symbols (<[id := {| Symbol.id := id; Symbol.flags := flags;
                               Symbol.declarations := [] |}]> (symbols h))
         (set_scopes (<[scope := Scope.setSymbol name id sc]> (scopes h)) h)));;
  ret id.

(** Modelled from the spec: [scope.lookUpSymbolRecursive(name)] walks the
    parent pointers and returns the first match with the scope it came
    from.  A parent is allocated before its children, so the chain is
    no longer than the number of scopes. *)
Fixpoint lookUpSymbolRecursiveFrom (fuel : nat) (table : gmap nat Scope.t)
    (scope : nat) (name : string) : option (nat * nat) :=
  match fuel with
  | O => None
  | S fuel' =>
      match table !! scope with
      | None => None
      | Some sc =>
          match Scope.symbolTable sc !! name with
          | Some symbol => Some (symbol, scope)
          | None =>
              match Scope.parent sc with
              | Some parent => lookUpSymbolRecursiveFrom fuel' table parent name
              | None => None
              end
          end
      end
  end.

Definition lookUpSymbolRecursive (scope : nat) (name : string) : M (option (nat * nat)) :=
  getsHeap (fun h => lookUpSymbolRecursiveFrom (S (size (scopes h))) (scopes h) scope name).

(** Modelled from the spec: [scope.getGlobalScope()] is the nearest
    ancestor (the scope itself included) of kind module or builtin. *)
Fixpoint getGlobalScopeFrom (fuel : nat) (table : gmap nat Scope.t) (scope : nat) : option nat :=
  match fuel with
  | O => None
  | S fuel' =>
      match table !! scope with
      | None => None
      | Some sc =>
          match Scope.type sc with
          | ScopeType.Module | ScopeType.Builtin => Some scope
          | _ =>
              match Scope.parent sc with
              | Some parent => getGlobalScopeFrom fuel' table parent
              | None => None
              end
          end
      end
  end.

Definition getGlobalScope (scope : nat) : M nat :=
  let* o := getsHeap (fun h => getGlobalScopeFrom (S (size (scopes h))) (scopes h) scope) in
  unwrap o "scope.parent".

Definition getSymbol (symbol : nat) : M Symbol.t :=
  let* o := getsHeap (fun h => symbols h !! symbol) in
  unwrap o "symbol".

(** A method of a symbol that updates it in place. *)
Definition updateSymbol (symbol : nat) (f : Symbol.t -> Symbol.t) : M unit :=
  modifyHeap (fun h => set_symbols (alter f symbol (symbols h)) h).

Definition newDeclaration (d : Declaration) : M nat :=
  let* ref := newObject in
  modifyHeap (fun h => set_declarations (<[ref := d]> (declarations h)) h);;
  ret ref.

Definition getDeclaration (declaration : nat) : M Declaration :=
  let* o := getsHeap (fun h => declarations h !! declaration) in
  unwrap o "declaration".

(** [symbol.addDeclaration(declaration)] for a declaration object that
    is created on the spot. *)
Definition addNewDeclaration (symbol : nat) (d : Declaration) : M nat :=
  let* ref := newDeclaration d in
  updateSymbol symbol (Symbol.addDeclaration ref);;
  ret ref.

(** [new Map<string, NameBindingType>()] and [new Map<string, string>()] *)
Definition newNameBindings : M nat :=
  let* ref := newObject in
  modifyHeap (fun h => set_nameBindings (<[ref := ∅]> (nameBindings h)) h);;
  ret ref.

Definition newReferenceMap : M nat :=
  let* ref := newObject in
  modifyHeap (fun h => set_referenceMaps (<[ref := ∅]> (referenceMaps h)) h);;
  ret ref.

(** [this._notLocalBindings.get(name)] and [.set(name, type)] *)
Definition notLocalBindingsGet (name : string) : M (option NameBindingType.t) :=
  let* ref := getsBinder _notLocalBindings in
  getsHeap (fun h => default ∅ (nameBindings h !! ref) !! name).

Definition notLocalBindingsSet (name : string) (type : NameBindingType.t) : M unit :=
  let* ref := getsBinder _notLocalBindings in
  modifyHeap (fun h =>
    set_nameBindings (<[ref := <[name := type]> (default ∅ (nameBindings h !! ref))]>
                        (nameBindings h)) h).

(** [this._currentExecutionScopeReferenceMap!.set(key, key)] *)
Definition referenceMapSet (key value : string) : M unit :=
  let* o := getsBinder _currentExecutionScopeReferenceMap in
  let* ref := unwrap o "_currentExecutionScopeReferenceMap" in
  modifyHeap (fun h =>
    set_referenceMaps (<[ref := <[key := value]> (default ∅ (referenceMaps h !! ref))]>
                         (referenceMaps h)) h).

(** Modelled from the spec: the accessors of [analyzerNodeInfo.ts]. *)
Module AnalyzerNodeInfo.
Definition getFlowNode (node : nat) : M (option FlowNode) :=
  getsNodeInfo (fun i => flowNode i !! node).

(** The binder passes [this._currentFlowNode!], which is [undefined]
    until the start node of the module exists. *)
Definition setFlowNode (node : nat) (flowNode' : option FlowNode) : M unit :=
  modifyNodeInfo (fun i =>
    set_flowNode (match flowNode' with
                  | Some f => <[node := f]> (flowNode i)
                  | None => delete node (flowNode i)
                  end) i).

Definition setAfterFlowNode (node : nat) (flowNode' : option FlowNode) : M unit :=
  modifyNodeInfo (fun i =>
    set_afterFlowNode (match flowNode' with
                       | Some f => <[node := f]> (afterFlowNode i)
                       | None => delete node (afterFlowNode i)
                       end) i).

Definition getScope (node : nat) : M (option nat) :=
  getsNodeInfo (fun i => scope i !! node).

Definition setScope (node : nat) (scope' : nat) : M unit :=
  modifyNodeInfo (fun i => set_scope (<[node := scope']> (scope i)) i).

Definition setDeclaration (node : nat) (declaration' : nat) : M unit :=
  modifyNodeInfo (fun i => set_declaration (<[node := declaration']> (declaration i)) i).

Definition setCodeFlowExpressions (node : nat) (map : nat) : M unit :=
  modifyNodeInfo (fun i =>
    set_codeFlowExpressions (<[node := map]> (codeFlowExpressions i)) i).
End AnalyzerNodeInfo.

(** Modelled from the spec: the helpers of [parseTreeUtils.ts] that look
    up the parent links of a node.  The walker passes the chain of
    enclosing module, class, function, lambda and comprehension nodes,
    innermost first; each goes with a flag saying whether the descent
    went into the part of the node that runs in the node's own scope
    (the suite of a class or function, the body of a lambda) rather
    than into its decorators, arguments or parameters. *)
Module ParseTreeUtils.
Fixpoint getEnclosingClass (ancestors : list (ParseNode * bool)) (stopAtFunction : bool)
    : option ParseNode :=
  match ancestors with
  | [] => None
  | (curNode, _) :: rest =>
      match curNode with
      | ClassNode _ _ _ _ _ => Some curNode
      | ModuleNode _ _ => None
      | FunctionNode _ _ _ _ _ _ _ _ =>
          if stopAtFunction then None else getEnclosingClass rest stopAtFunction
      | _ => getEnclosingClass rest stopAtFunction
      end
  end.

(** The chain from the enclosing function on (empty when there is
    none): its head is the function, its tail the ancestors of the
    function. *)
Fixpoint enclosingFunctionChain (ancestors : list (ParseNode * bool))
    : list (ParseNode * bool) :=
  match ancestors with
  | [] => []
  | (curNode, _) :: rest =>
      match curNode with
      | FunctionNode _ _ _ _ _ _ _ _ => ancestors
      | ClassNode _ _ _ _ _ => []
      | _ => enclosingFunctionChain rest
      end
  end.

Definition getEnclosingFunction (ancestors : list (ParseNode * bool)) : option ParseNode :=
  fst <$> head (enclosingFunctionChain ancestors).

(** The ancestors from the nearest one whose own scope the position
    is evaluated in. *)
Fixpoint getEvaluationScopeNode (ancestors : list (ParseNode * bool))
    : list (ParseNode * bool) :=
  match ancestors with
  | [] => []
  | (curNode, inOwnScope) :: rest =>
      match curNode with
      | ListComprehensionNode _ _ _ | ModuleNode _ _ => ancestors
      | _ => if inOwnScope then ancestors else getEvaluationScopeNode rest
      end
  end.

(** The evaluation node of the target of an assignment expression: the
    containing lambda, function or module, but not a class. *)
Fixpoint getEvaluationNodeForAssignmentExpression (ancestors : list (ParseNode * bool))
    : option ParseNode :=
  match ancestors with
  | [] => None
  | (curNode, inOwnScope) :: rest =>
      match curNode with
      | ModuleNode _ _ => Some curNode
      | FunctionNode _ _ _ _ _ _ _ _ | LambdaNode _ _ _ =>
          if inOwnScope then Some curNode
          else getEvaluationNodeForAssignmentExpression rest
      | ClassNode _ _ _ _ _ =>
          if inOwnScope then None
          else getEvaluationNodeForAssignmentExpression rest
      | _ => getEvaluationNodeForAssignmentExpression rest
      end
  end.
End ParseTreeUtils.

(* ================================================================== *)
(** ** The base tree walker *)
(* ================================================================== *)

Definition optionToList {A} (o : option A) : list A :=
  match o with
  | Some a => [a]
  | None => []
  end.

(** Modelled from the spec: the children the base walker
    ([parseTreeWalker.ts]) visits after a visitor returned [true], in
    source order. *)
Definition getChildNodes (node : ParseNode) : list ParseNode :=
  match node with
  | Name _ | ConstantNode _ _ | NumberNode _ | StringListNode _ _ | PassNode _
  | BreakNode _ | ContinueNode _ => []
  | MemberAccessNode _ leftExpression memberName => [leftExpression; Name memberName]
  | CallNode _ leftExpression arguments => leftExpression :: arguments
  | ArgumentNode _ _ name valueExpression => (Name <$> optionToList name) ++ [valueExpression]
  | BinaryOperationNode _ leftExpression _ rightExpression => [leftExpression; rightExpression]
  | UnaryOperationNode _ _ expression => [expression]
  | TernaryNode _ ifExpression testExpression elseExpression =>
      [ifExpression; testExpression; elseExpression]
  | AssignmentExpressionNode _ name rightExpression => [Name name; rightExpression]
  | AwaitNode _ expression => [expression]
  | TupleNode _ expressions => expressions
  | ListNode _ entries => entries
  | UnpackNode _ expression => [expression]
  | TypeAnnotationNode _ valueExpression typeAnnotation => [valueExpression; typeAnnotation]
  | IndexNode _ baseExpression items => baseExpression :: items
  | LambdaNode _ parameters expression => parameters ++ [expression]
  | ListComprehensionNode _ expression comprehensions => expression :: comprehensions
  | ListComprehensionForNode _ targetExpression iterableExpression =>
      [targetExpression; iterableExpression]
  | ListComprehensionIfNode _ testExpression => [testExpression]
  | YieldNode _ expression => optionToList expression
  | YieldFromNode _ expression => [expression]
  | OtherNode _ children => children
  | AssignmentNode _ leftExpression rightExpression typeAnnotationComment =>
      [leftExpression; rightExpression] ++ optionToList typeAnnotationComment
  | AugmentedAssignmentNode _ leftExpression rightExpression _ =>
      [leftExpression; rightExpression]
  | DelNode _ expressions => expressions
  | IfNode _ testExpression ifSuite elseSuite =>
      [testExpression; ifSuite] ++ optionToList elseSuite
  | WhileNode _ testExpression whileSuite elseSuite =>
      [testExpression; whileSuite] ++ optionToList elseSuite
  | ForNode _ targetExpression iterableExpression forSuite elseSuite =>
      [targetExpression; iterableExpression; forSuite] ++ optionToList elseSuite
  | TryNode _ trySuite exceptClauses elseSuite finallySuite =>
      trySuite :: exceptClauses ++ optionToList elseSuite ++ optionToList finallySuite
  | ExceptNode _ typeExpression name exceptSuite =>
      optionToList typeExpression ++ (Name <$> optionToList name) ++ [exceptSuite]
  | WithNode _ withItems suite => withItems ++ [suite]
  | WithItemNode _ expression target => expression :: optionToList target
  | RaiseNode _ typeExpression valueExpression tracebackExpression =>
      optionToList typeExpression ++ optionToList valueExpression
        ++ optionToList tracebackExpression
  | ReturnNode _ returnExpression => optionToList returnExpression
  | AssertNode _ testExpression exceptionExpression =>
      testExpression :: optionToList exceptionExpression
  | GlobalNode _ nameList | NonlocalNode _ nameList => Name <$> nameList
  | ImportNode _ list => ImportAs <$> list
  | ImportAs n =>
      ModuleName (ImportAsNode.module n) :: (Name <$> optionToList (ImportAsNode.alias n))
  | ImportFrom n =>
      ModuleName (ImportFromNode.module n) :: (ImportFromAs <$> ImportFromNode.imports n)
  | ImportFromAs n =>
      Name (ImportFromAsNode.name n) :: (Name <$> optionToList (ImportFromAsNode.alias n))
  | ModuleName n => Name <$> ModuleNameNode.nameParts n
  | ClassNode _ decorators name arguments suite =>
      decorators ++ [Name name] ++ arguments ++ [suite]
  | FunctionNode _ decorators _ name parameters returnTypeAnnotation
      functionAnnotationComment suite =>
      decorators ++ [Name name] ++ parameters ++ optionToList returnTypeAnnotation
        ++ optionToList functionAnnotationComment ++ [suite]
  | ParameterNode _ name typeAnnotation defaultValue =>
      (Name <$> optionToList name) ++ optionToList typeAnnotation ++ optionToList defaultValue
  | DecoratorNode _ leftExpression arguments => leftExpression :: arguments
  | SuiteNode _ statements | StatementListNode _ statements | ModuleNode _ statements =>
      statements
  end.

(** The class [YieldFinder]: a walker whose visitors for [yield] and
    [yield from] record the find and stop the descent; every other node
    gets the base traversal.  [checkContainsYield] is the result of the
    walk. *)
Module YieldFinder.
Fixpoint checkContainsYield (node : ParseNode) : bool :=
  let some :=
    fix some (nodes : list ParseNode) : bool :=
      match nodes with
      | [] => false
      | child :: rest => checkContainsYield child || some rest
      end in
  let opt (o : option ParseNode) : bool :=
    match o with
    | Some child => checkContainsYield child
    | None => false
    end in
  match node with
  | YieldNode _ _ | YieldFromNode _ _ => true
  | Name _ | ConstantNode _ _ | NumberNode _ | StringListNode _ _ | PassNode _
  | BreakNode _ | ContinueNode _ | GlobalNode _ _ | NonlocalNode _ _ | ImportNode _ _
  | ImportAs _ | ImportFrom _ | ImportFromAs _ | ModuleName _ => false
  | MemberAccessNode _ leftExpression _ => checkContainsYield leftExpression
  | CallNode _ leftExpression arguments => checkContainsYield leftExpression || some arguments
  | ArgumentNode _ _ _ valueExpression => checkContainsYield valueExpression
  | BinaryOperationNode _ leftExpression _ rightExpression =>
      checkContainsYield leftExpression || checkContainsYield rightExpression
  | UnaryOperationNode _ _ expression => checkContainsYield expression
  | TernaryNode _ ifExpression testExpression elseExpression =>
      checkContainsYield ifExpression || checkContainsYield testExpression
      || checkContainsYield elseExpression
  | AssignmentExpressionNode _ _ rightExpression => checkContainsYield rightExpression
  | AwaitNode _ expression => checkContainsYield expression
  | TupleNode _ expressions => some expressions
  | ListNode _ entries => some entries
  | UnpackNode _ expression => checkContainsYield expression
  | TypeAnnotationNode _ valueExpression typeAnnotation =>
      checkContainsYield valueExpression || checkContainsYield typeAnnotation
  | IndexNode _ baseExpression items => checkContainsYield baseExpression || some items
  | LambdaNode _ parameters expression => some parameters || checkContainsYield expression
  | ListComprehensionNode _ expression comprehensions =>
      checkContainsYield expression || some comprehensions
  | ListComprehensionForNode _ targetExpression iterableExpression =>
      checkContainsYield targetExpression || checkContainsYield iterableExpression
  | ListComprehensionIfNode _ testExpression => checkContainsYield testExpression
  | OtherNode _ children => some children
  | AssignmentNode _ leftExpression rightExpression typeAnnotationComment =>
      checkContainsYield leftExpression || checkContainsYield rightExpression
      || opt typeAnnotationComment
  | AugmentedAssignmentNode _ leftExpression rightExpression _ =>
      checkContainsYield leftExpression || checkContainsYield rightExpression
  | DelNode _ expressions => some expressions
  | IfNode _ testExpression ifSuite elseSuite =>
      checkContainsYield testExpression || checkContainsYield ifSuite || opt elseSuite
  | WhileNode _ testExpression whileSuite elseSuite =>
      checkContainsYield testExpression || checkContainsYield whileSuite || opt elseSuite
  | ForNode _ targetExpression iterableExpression forSuite elseSuite =>
      checkContainsYield targetExpression || checkContainsYield iterableExpression
      || checkContainsYield forSuite || opt elseSuite
  | TryNode _ trySuite exceptClauses elseSuite finallySuite =>
      checkContainsYield trySuite || some exceptClauses || opt elseSuite || opt finallySuite
  | ExceptNode _ typeExpression _ exceptSuite =>
      opt typeExpression || checkContainsYield exceptSuite
  | WithNode _ withItems suite => some withItems || checkContainsYield suite
  | WithItemNode _ expression target => checkContainsYield expression || opt target
  | RaiseNode _ typeExpression valueExpression tracebackExpression =>
      opt typeExpression || opt valueExpression || opt tracebackExpression
  | ReturnNode _ returnExpression => opt returnExpression
  | AssertNode _ testExpression exceptionExpression =>
      checkContainsYield testExpression || opt exceptionExpression
  | ClassNode _ decorators _ arguments suite =>
      some decorators || some arguments || checkContainsYield suite
  | FunctionNode _ decorators _ _ parameters returnTypeAnnotation
      functionAnnotationComment suite =>
      some decorators || some parameters || opt returnTypeAnnotation
      || opt functionAnnotationComment || checkContainsYield suite
  | ParameterNode _ _ typeAnnotation defaultValue => opt typeAnnotation || opt defaultValue
  | DecoratorNode _ leftExpression arguments =>
      checkContainsYield leftExpression || some arguments
  | SuiteNode _ statements | StatementListNode _ statements | ModuleNode _ statements =>
      some statements
  end.
End YieldFinder.

(* ================================================================== *)
(** ** The methods of the binder: the code-flow graph *)
(* ================================================================== *)

Section BinderMethods.
Context `{Collaborators}.

(** [this._currentFlowNode!], read for one of its properties. *)
Definition currentFlowNode : M FlowNode :=
  let* o := getsBinder _currentFlowNode in
  unwrap o "_currentFlowNode".

Definition _isCodeUnreachable : M bool :=
  let* cur := currentFlowNode in
  ret (hasFlag (FlowNode.flags cur) FlowFlags.Unreachable).

Definition _createStartFlowNode : M FlowNode :=
  let* id := getUniqueFlowNodeId in
  ret (FlowNode.Base FlowFlags.Start id).

Definition _createBranchLabel : M FlowNode :=
  let* id := getUniqueFlowNodeId in
  modifyHeap (fun h => set_antecedents (<[id := []]> (antecedents h)) h);;
  ret (FlowNode.Label FlowFlags.BranchLabel id).

Definition _createLoopLabel : M FlowNode :=
  let* id := getUniqueFlowNodeId in
  modifyHeap (fun h => set_antecedents (<[id := []]> (antecedents h)) h);;
  ret (FlowNode.Label FlowFlags.LoopLabel id).

Definition _finishFlowLabel (node : FlowNode) : M FlowNode :=
  let* nodeAntecedents := getsHeap (fun h => antecedentsOf h node) in
  match nodeAntecedents with
  | [] =>
      (* If there were no antecedents, this is unreachable. *)
      ret _unreachableFlowNode
  | [antecedent] =>
      (* If there was only one antecedent, there's no need for a label to exist. *)
      ret antecedent
  | _ => ret node
  end.

Definition _addAntecedent (label antecedent : FlowNode) : M unit :=
  let* cur := currentFlowNode in
  if negb (hasFlag (FlowNode.flags cur) FlowFlags.Unreachable) then
    (* Don't add the same antecedent twice. *)
    let* labelAntecedents := getsHeap (fun h => antecedentsOf h label) in
    if negb (existsb (fun existing => FlowNode.id existing =? FlowNode.id antecedent)%nat
               labelAntecedents)
    then
      modifyHeap (fun h =>
        set_antecedents (<[FlowNode.id label := labelAntecedents ++ [antecedent]]>
                           (antecedents h)) h)
    else ret tt
  else ret tt.

Definition _addExceptTargets (flowNode : FlowNode) : M unit :=
  (* If there are any except targets, then we're in a try block, and we
     have to assume that an exception can be raised after every assignment. *)
  let* targets := getsBinder _currentExceptTargets in
  match targets with
  | Some labels => forEach labels (fun label => _addAntecedent label flowNode)
  | None => ret tt
  end.

(** Indicates whether the expression is a NOT, AND or OR expression. *)
Definition _isLogicalExpression (expression : ParseNode) : bool :=
  match expression with
  | UnaryOperationNode _ operator _ => OperatorType.eqb operator OperatorType.Not
  | BinaryOperationNode _ _ operator _ =>
      OperatorType.eqb operator OperatorType.And || OperatorType.eqb operator OperatorType.Or
  | _ => false
  end.

(** The method appends to the list it is given and returns a boolean;
    here it returns the boolean and the list. *)
Fixpoint _isNarrowingExpression (expression : ParseNode) (expressionList : list ParseNode)
    : bool * list ParseNode :=
  match expression with
  | Name _ | MemberAccessNode _ _ _ =>
      if isCodeFlowSupportedForReference expression
      then (true, expressionList ++ [expression])
      else (false, expressionList)
  | AssignmentExpressionNode _ name _ => (true, expressionList ++ [Name name])
  | BinaryOperationNode _ leftExpression operator rightExpression =>
      let isOrIsNotOperator :=
        OperatorType.eqb operator OperatorType.Is || OperatorType.eqb operator OperatorType.IsNot in
      let equalsOrNotEqualsOperator :=
        OperatorType.eqb operator OperatorType.Equals
        || OperatorType.eqb operator OperatorType.NotEquals in
      if isOrIsNotOperator || equalsOrNotEqualsOperator then
        let otherwise (_ : unit) :=
          let '(isLeftNarrowing, expressionList) :=
            _isNarrowingExpression leftExpression expressionList in
          (* Look for "X is Y" or "X is not Y". *)
          if isOrIsNotOperator then (isLeftNarrowing, expressionList)
          else
            (* Look for X == <literal>, X != <literal> or <literal> == X, <literal> != X *)
            let '(isRightNarrowing, expressionList) :=
              _isNarrowingExpression rightExpression expressionList in
            (isLeftNarrowing || isRightNarrowing, expressionList) in
        match rightExpression with
        | ConstantNode _ KeywordType.None_ =>
            (* Look for "X is None", "X is not None", "X == None", "X != None". *)
            _isNarrowingExpression leftExpression expressionList
        | _ =>
            (* Look for "type(X) is Y" or "type(X) is not Y". *)
            match leftExpression with
            | CallNode _ (Name callee)
                [ArgumentNode _ ArgumentCategory.Simple _ valueExpression] =>
                if isOrIsNotOperator && String.eqb (NameNode.value callee) "type"
                then _isNarrowingExpression valueExpression expressionList
                else otherwise tt
            | _ => otherwise tt
            end
        end
      else if OperatorType.eqb operator OperatorType.In then
        (* Look for "X in Y". *)
        _isNarrowingExpression leftExpression expressionList
      else (false, expressionList)
  | UnaryOperationNode _ operator expression' =>
      if OperatorType.eqb operator OperatorType.Not
      then _isNarrowingExpression expression' expressionList
      else (false, expressionList)
  | AugmentedAssignmentNode _ _ rightExpression _ =>
      _isNarrowingExpression rightExpression expressionList
  | CallNode _ (Name callee) [ArgumentNode _ _ _ valueExpression; _] =>
      if String.eqb (NameNode.value callee) "isinstance"
         || String.eqb (NameNode.value callee) "issubclass"
      then _isNarrowingExpression valueExpression expressionList
      else (false, expressionList)
  | CallNode _ (Name callee) [ArgumentNode _ _ _ valueExpression] =>
      if String.eqb (NameNode.value callee) "callable"
      then _isNarrowingExpression valueExpression expressionList
      else (false, expressionList)
  | _ => (false, expressionList)
  end.

Definition _createFlowConditional (flags : Z) (antecedent : FlowNode) (expression : ParseNode)
    : M FlowNode :=
  if hasFlag (FlowNode.flags antecedent) FlowFlags.Unreachable then ret antecedent
  else
    let* fileInfo := getsBinder _fileInfo in
    let staticValue :=
      evaluateStaticBoolLikeExpression expression
        (AnalyzerFileInfo.executionEnvironment fileInfo) in
    if (bool_decide (staticValue = Some true) && hasFlag flags FlowFlags.FalseCondition)
       || (bool_decide (staticValue = Some false) && hasFlag flags FlowFlags.TrueCondition)
    then ret _unreachableFlowNode
    else
      let '(isNarrowing, expressionList) := _isNarrowingExpression expression [] in
      if negb isNarrowing then ret antecedent
      else
        forEach expressionList (fun expr =>
          let referenceKey := createKeyForReference expr in
          referenceMapSet referenceKey referenceKey);;
        let* id := getUniqueFlowNodeId in
        let conditionalFlowNode := FlowNode.Condition flags id expression antecedent in
        _addExceptTargets conditionalFlowNode;;
        ret conditionalFlowNode.

Definition _createCallFlowNode (node : ParseNode) : M unit :=
  let* unreachable := _isCodeUnreachable in
  when (negb unreachable)
    (let* id := getUniqueFlowNodeId in
     let* cur := currentFlowNode in
     let flowNode := FlowNode.Call FlowFlags.Call id node cur in
     modifyBinder (set__currentFlowNode (Some flowNode)));;
  let* cur := getsBinder _currentFlowNode in
  AnalyzerNodeInfo.setFlowNode (nodeId node) cur.

Definition _createAssignmentAliasFlowNode (targetSymbolId aliasSymbolId : nat) : M unit :=
  let* unreachable := _isCodeUnreachable in
  when (negb unreachable)
    (let* id := getUniqueFlowNodeId in
     let* cur := currentFlowNode in
     let flowNode :=
       FlowNode.AssignmentAlias FlowFlags.AssignmentAlias id cur targetSymbolId aliasSymbolId in
     modifyBinder (set__currentFlowNode (Some flowNode))).

Definition _createFlowAssignment (node : ParseNode) (unbound : bool) : M unit :=
  let* targetSymbolId :=
    match node with
    | Name n =>
        let* scope := getsBinder _currentScope in
        let* scope := unwrap scope "_currentScope" in
        let* symbolWithScope := lookUpSymbolRecursive scope (NameNode.value n) in
        assert (bool_decide (is_Some symbolWithScope)) "symbolWithScope !== undefined";;
        let* symbolWithScope := unwrap symbolWithScope "symbolWithScope" in
        ret (fst symbolWithScope)
    | _ => ret indeterminateSymbolId
    end in
  let* prevFlowNode := getsBinder _currentFlowNode in
  let* unreachable := _isCodeUnreachable in
  when (negb unreachable && isCodeFlowSupportedForReference node)
    (let* id := getUniqueFlowNodeId in
     let* cur := currentFlowNode in
     let flowNode := FlowNode.Assignment FlowFlags.Assignment id node cur targetSymbolId in
     let referenceKey := createKeyForReference node in
     referenceMapSet referenceKey referenceKey;;
     let flowNode := if unbound then FlowNode.orFlags FlowFlags.Unbind flowNode else flowNode in
     _addExceptTargets flowNode;;
     modifyBinder (set__currentFlowNode (Some flowNode)));;
  (* If we're marking the node as unbound and there is already a flow node
     associated with the node, don't replace it. This case applies for symbols
     introduced in except clauses. If there is no use the previous flow node
     associated, use the previous flow node (applies in the del case).
     Otherwise, the node will be evaluated as unbound at this point in the flow. *)
  let* existing := AnalyzerNodeInfo.getFlowNode (nodeId node) in
  when (negb unbound || bool_decide (existing = None))
    (let* cur := getsBinder _currentFlowNode in
     AnalyzerNodeInfo.setFlowNode (nodeId node) (if unbound then prevFlowNode else cur)).

Definition _createFlowWildcardImport (node : ImportFromNode) (names : list string) : M unit :=
  let* unreachable := _isCodeUnreachable in
  when (negb unreachable)
    (let* id := getUniqueFlowNodeId in
     let* cur := currentFlowNode in
     let flowNode := FlowNode.WildcardImport FlowFlags.WildcardImport id node names cur in
     _addExceptTargets flowNode;;
     modifyBinder (set__currentFlowNode (Some flowNode)));;
  let* cur := getsBinder _currentFlowNode in
  AnalyzerNodeInfo.setFlowNode (ImportFromNode.id node) cur.

Definition _bindLoopStatement (preLoopLabel postLoopLabel : FlowNode) (callback : M unit)
    : M unit :=
  let* savedContinueTarget := getsBinder _currentContinueTarget in
  let* savedBreakTarget := getsBinder _currentBreakTarget in
  modifyBinder (set__currentContinueTarget (Some preLoopLabel));;
  modifyBinder (set__currentBreakTarget (Some postLoopLabel));;
  callback;;
  modifyBinder (set__currentContinueTarget savedContinueTarget);;
  modifyBinder (set__currentBreakTarget savedBreakTarget).

(* ================================================================== *)
(** ** The methods of the binder: diagnostics, scopes and symbols *)
(* ================================================================== *)

(** [this._fileInfo.diagnosticSink.addDiagnosticWithTextRange]: the sink
    keeps what it is given; the result refers to the new diagnostic. *)
Definition addDiagnosticWithTextRange (category : DiagnosticLevel.t)
    (message argument : string) (range : nat) : M nat :=
  let* index := gets (fun s => length (diagnostics s)) in
  modify (fun s =>
    set_diagnostics
      (diagnostics s ++
         [{| Diagnostic.category := category; Diagnostic.message := message;
             Diagnostic.argument := argument; Diagnostic.rule := None;
             Diagnostic.range := range; Diagnostic.createTypeStubAction := None |}]) s);;
  ret index.

Definition _addError (message argument : string) (range : nat) : M nat :=
  addDiagnosticWithTextRange DiagnosticLevel.error message argument range.

Definition _addWarning (message argument : string) (range : nat) : M nat :=
  addDiagnosticWithTextRange DiagnosticLevel.warning message argument range.

Definition _addInformation (message argument : string) (range : nat) : M nat :=
  addDiagnosticWithTextRange DiagnosticLevel.information message argument range.

Definition setRule (diagnostic : nat) (rule : string) : M unit :=
  modify (fun s =>
    set_diagnostics
      (alter (fun d =>
                {| Diagnostic.category := Diagnostic.category d;
                   Diagnostic.message := Diagnostic.message d;
                   Diagnostic.argument := Diagnostic.argument d;
                   Diagnostic.rule := Some rule;
                   Diagnostic.range := Diagnostic.range d;
                   Diagnostic.createTypeStubAction := Diagnostic.createTypeStubAction d |})
         diagnostic (diagnostics s)) s).

Definition addAction (diagnostic : nat) (moduleName : string) : M unit :=
  modify (fun s =>
    set_diagnostics
      (alter (fun d =>
                {| Diagnostic.category := Diagnostic.category d;
                   Diagnostic.message := Diagnostic.message d;
                   Diagnostic.argument := Diagnostic.argument d;
                   Diagnostic.rule := Diagnostic.rule d;
                   Diagnostic.range := Diagnostic.range d;
                   Diagnostic.createTypeStubAction := Some moduleName |})
         diagnostic (diagnostics s)) s).

Definition _addDiagnostic (diagLevel : DiagnosticLevel.t) (rule message argument : string)
    (range : nat) : M (option nat) :=
  let* diagnostic :=
    match diagLevel with
    | DiagnosticLevel.error => let* d := _addError message argument range in ret (Some d)
    | DiagnosticLevel.warning => let* d := _addWarning message argument range in ret (Some d)
    | DiagnosticLevel.information =>
        let* d := _addInformation message argument range in ret (Some d)
    | DiagnosticLevel.none => ret None
    end in
  whenSome diagnostic (fun d => setRule d rule);;
  ret diagnostic.

Definition currentScope : M nat :=
  let* o := getsBinder _currentScope in
  unwrap o "_currentScope".

(** [addedSymbols], the optional map the method records new symbols in,
    is returned with the symbol. *)
Definition _bindNameToScope (scope : nat) (name : string)
    (addedSymbols : option (list (string * nat)))
    : M (option nat * option (list (string * nat))) :=
  let* binding := notLocalBindingsGet name in
  if bool_decide (binding = None) then
    (* Don't overwrite an existing symbol. *)
    let* existing := lookUpSymbol scope name in
    match existing with
    | Some symbol => ret (Some symbol, addedSymbols)
    | None =>
        let* symbol :=
          addSymbol scope name
            (Z.lor SymbolFlags.InitiallyUnbound SymbolFlags.ClassMember) in
        (* Handle the case where a new symbol is being added to a class
           but the expression assigned to it uses a symbol of the same
           name that is declared in an outer scope. *)
        let* type := scopeType scope in
        match type with
        | ScopeType.Class =>
            let* parent := scopeParent scope in
            let* parent := unwrap parent "scope.parent" in
            let* aliasSymbol := lookUpSymbol parent name in
            whenSome aliasSymbol (fun aliasSymbol =>
              _createAssignmentAliasFlowNode symbol aliasSymbol)
        | _ => ret tt
        end;;
        let* fileInfo := getsBinder _fileInfo in
        when (AnalyzerFileInfo.isStubFile fileInfo && isPrivateOrProtectedName name)
          (updateSymbol symbol Symbol.setIsExternallyHidden);;
        ret (Some symbol, assocSet name symbol <$> addedSymbols)
    end
  else ret (None, addedSymbols).

(** Adds a new symbol with the specified name if it doesn't already exist. *)
Definition _addSymbolToCurrentScope (nameValue : string) (isInitiallyUnbound : bool) : M nat :=
  let* scope := currentScope in
  let* symbol := lookUpSymbol scope nameValue in
  match symbol with
  | Some symbol => ret symbol
  | None =>
      let symbolFlags := SymbolFlags.None_ in
      let symbolFlags :=
        if isInitiallyUnbound then Z.lor symbolFlags SymbolFlags.InitiallyUnbound
        else symbolFlags in
      let* type := scopeType scope in
      let symbolFlags :=
        match type with
        | ScopeType.Class => Z.lor symbolFlags SymbolFlags.ClassMember
        | _ => symbolFlags
        end in
      let* fileInfo := getsBinder _fileInfo in
      let symbolFlags :=
        if AnalyzerFileInfo.isStubFile fileInfo && isPrivateOrProtectedName nameValue
        then Z.lor symbolFlags SymbolFlags.ExternallyHidden
        else symbolFlags in
      addSymbol scope nameValue symbolFlags
  end.

Definition _addBuiltInSymbolToCurrentScope (nameValue : string) (node : nat) (type : string)
    : M unit :=
  let* symbol := _addSymbolToCurrentScope nameValue false in
  let* fileInfo := getsBinder _fileInfo in
  addNewDeclaration symbol
    (IntrinsicDeclaration node type (AnalyzerFileInfo.filePath fileInfo)
       (AnalyzerFileInfo.moduleName fileInfo));;
  updateSymbol symbol Symbol.setIsIgnoredForProtocolMatch.

Definition _createNewScope (scopeType : ScopeType.t) (parentScope : option nat)
    (callback : M unit) : M unit :=
  let* prevScope := getsBinder _currentScope in
  let* scope := newScope scopeType parentScope in
  modifyBinder (set__currentScope (Some scope));;
  (* If this scope is an execution scope, allocate a new reference map. *)
  let isExecutionScope :=
    match scopeType with
    | ScopeType.Builtin | ScopeType.Module | ScopeType.Function => true
    | _ => false
    end in
  let* prevReferenceMap := getsBinder _currentExecutionScopeReferenceMap in
  when isExecutionScope
    (let* map := newReferenceMap in
     modifyBinder (set__currentExecutionScopeReferenceMap (Some map)));;
  let* prevNonLocalBindings := getsBinder _notLocalBindings in
  let* bindings := newNameBindings in
  modifyBinder (set__notLocalBindings bindings);;
  callback;;
  modifyBinder (set__currentExecutionScopeReferenceMap prevReferenceMap);;
  modifyBinder (set__currentScope prevScope);;
  modifyBinder (set__notLocalBindings prevNonLocalBindings).

Definition _deferBinding (callback : DeferredCallback) : M unit :=
  let* scope := getsBinder _currentScope in
  let* nonLocalBindingsMap := getsBinder _notLocalBindings in
  let* codeFlowExpressionMap := getsBinder _currentExecutionScopeReferenceMap in
  modifyBinder (fun b =>
    set__deferredBindingTasks
      (_deferredBindingTasks b ++
         [{| DeferredBindingTask.scope := scope;
             DeferredBindingTask.nonLocalBindingsMap := nonLocalBindingsMap;
             DeferredBindingTask.codeFlowExpressionMap := codeFlowExpressionMap;
             DeferredBindingTask.callback := callback |}]) b).

(* ================================================================== *)
(** ** The methods of the binder: declarations of variables *)
(* ================================================================== *)

(** Determines whether the expression refers to a type exported by the typing
    or typing_extensions modules. We can directly evaluate the types at binding
    time. We assume here that the code isn't making use of some custom type alias
    to refer to the typing types. *)
Definition _isTypingAnnotation (typeAnnotation : ParseNode) (name : string) : M bool :=
  match typeAnnotation with
  | Name n =>
      let* aliases := getsBinder _typingSymbolAliases in
      ret (bool_decide (aliases !! NameNode.value n = Some name))
  | MemberAccessNode _ (Name baseName) memberName =>
      if String.eqb (NameNode.value memberName) name then
        let* aliases := getsBinder _typingImportAliases in
        ret (existsb (fun alias => String.eqb alias (NameNode.value baseName)) aliases)
      else ret false
  | _ => ret false
  end.

Record FinalInfo := {
  finalIsFinal : bool;
  finalTypeNode : option nat;
}.

(** Determines if the specified type annotation expression is a "Final".
    It returns two boolean values indicating if the expression is a "Final"
    expression and whether it's a "raw" Final with no type arguments. *)
Fixpoint _isAnnotationFinal (typeAnnotation : ParseNode) : M FinalInfo :=
  let* isTyping := _isTypingAnnotation typeAnnotation "Final" in
  if isTyping then ret {| finalIsFinal := true; finalTypeNode := None |}
  else
    match typeAnnotation with
    | IndexNode _ baseExpression [item] =>
        (* Recursively call to see if the base expression is "Final". *)
        let* finalInfo := _isAnnotationFinal baseExpression in
        if finalIsFinal finalInfo
        then ret {| finalIsFinal := true; finalTypeNode := Some (nodeId item) |}
        else ret {| finalIsFinal := false; finalTypeNode := None |}
    | _ => ret {| finalIsFinal := false; finalTypeNode := None |}
    end.

Definition _isAnnotationTypeAlias (typeAnnotation : ParseNode) : M bool :=
  let* fileInfo := getsBinder _fileInfo in
  if (ExecutionEnvironment.pythonVersion (AnalyzerFileInfo.executionEnvironment fileInfo)
        <? PythonVersion.V3_10)%Z
     && negb (AnalyzerFileInfo.isStubFile fileInfo)
  then ret false
  else _isTypingAnnotation typeAnnotation "TypeAlias".

Record MemberAccessInfo := {
  classNode : ParseNode;
  methodNode : ParseNode;
  classScope : nat;
  isInstanceMember : bool;
}.

(** The loop over the decorators of the method: nothing for a static
    method, otherwise whether the first parameter is an instance. *)
Fixpoint decoratorsInstanceMember (decorators : list ParseNode) : option bool :=
  match decorators with
  | [] => Some true
  | DecoratorNode _ (Name decoratorName) _ :: rest =>
      if String.eqb (NameNode.value decoratorName) "staticmethod" then
        (* A static method doesn't have a "self" or "cls" parameter. *)
        None
      else if String.eqb (NameNode.value decoratorName) "classmethod" then
        (* A classmethod implies that the first parameter is "cls". *)
        Some false
      else decoratorsInstanceMember rest
  | _ :: rest => decoratorsInstanceMember rest
  end.

(** Determines whether a member access expression is referring to a
    member of a class (either a class or instance member). This will
    typically take the form "self.x" or "cls.x". *)
Definition _getMemberAccessInfo (node : ParseNode) (ancestors : list (ParseNode * bool))
    : M (option MemberAccessInfo) :=
  match node with
  | MemberAccessNode _ (Name leftName) _ =>
      let leftSymbolName := NameNode.value leftName in
      (* Make sure the expression is within a function (i.e. a method) that's
         within a class definition. *)
      match ParseTreeUtils.enclosingFunctionChain ancestors with
      | (FunctionNode _ decorators _ methodName parameters _ _ _ as methodNode, _)
          :: methodAncestors =>
          match ParseTreeUtils.getEnclosingClass methodAncestors false with
          | Some (ClassNode _ _ className _ _ as classNode) =>
              match parameters with
              | ParameterNode _ (Some firstParam) _ _ :: _ =>
                  let firstParamName := NameNode.value firstParam in
                  let isInstanceMember :=
                    if String.eqb leftSymbolName (NameNode.value className) then Some false
                    else if negb (String.eqb leftSymbolName firstParamName) then None
                    else if String.eqb (NameNode.value methodName) "__new__" then
                      (* The __new__ method is special. It acts as a classmethod even
                         though it doesn't have a @classmethod decorator. *)
                      Some false
                    else
                      (* Assume that it's an instance member unless we find
                         a decorator that tells us otherwise. *)
                      decoratorsInstanceMember decorators in
                  match isInstanceMember with
                  | None => ret None
                  | Some isInstanceMember =>
                      let* classScope := AnalyzerNodeInfo.getScope (nodeId classNode) in
                      assert (bool_decide (is_Some classScope)) "classScope !== undefined";;
                      let* classScope := unwrap classScope "classScope" in
                      ret (Some {| classNode := classNode; methodNode := methodNode;
                                   classScope := classScope;
                                   isInstanceMember := isInstanceMember |})
                  end
              | _ => ret None
              end
          | _ => ret None
          end
      | _ => ret None
      end
  | _ =>
      (* We handle only simple names on the left-hand side of the expression,
         not calls, nested member accesses, index expressions, etc. *)
      ret None
  end.

(** The declarations of a symbol, read through the heap. *)
Definition getDeclarations (symbol : nat) : M (list Declaration) :=
  let* sym := getSymbol symbol in
  getsHeap (fun h => omap (fun ref => declarations h !! ref) (Symbol.declarations sym)).

Definition lookUpOrAddMember (classScope : nat) (name : string) : M nat :=
  let* symbol := lookUpSymbol classScope name in
  match symbol with
  | Some symbol => ret symbol
  | None =>
      let* symbol := addSymbol classScope name SymbolFlags.InitiallyUnbound in
      let* fileInfo := getsBinder _fileInfo in
      let honorPrivateNaming :=
        match AnalyzerFileInfo.reportPrivateUsage fileInfo with
        | DiagnosticLevel.none => false
        | _ => true
        end in
      when (isPrivateOrProtectedName name && honorPrivateNaming)
        (updateSymbol symbol Symbol.setIsPrivateMember);;
      ret symbol
  end.

Fixpoint _addInferredTypeAssignmentForVariable (ancestors : list (ParseNode * bool))
    (target : ParseNode) (source : nat) (isPossibleTypeAlias : bool) : M unit :=
  match target with
  | Name name =>
      let* scope := currentScope in
      let* symbolWithScope := lookUpSymbolRecursive scope (NameNode.value name) in
      whenSome symbolWithScope (fun symbolWithScope =>
        let* fileInfo := getsBinder _fileInfo in
        let declaration :=
          {| VariableDeclaration.node := nodeId target;
             VariableDeclaration.isConstant := isConstantName (NameNode.value name);
             VariableDeclaration.inferredTypeSource := Some source;
             VariableDeclaration.typeAnnotationNode := None;
             VariableDeclaration.isFinal := false;
             VariableDeclaration.isDefinedByMemberAccess := false;
             VariableDeclaration.typeAliasName :=
               if isPossibleTypeAlias then Some (nodeId target) else None;
             VariableDeclaration.typeAliasAnnotation := None;
             VariableDeclaration.path := AnalyzerFileInfo.filePath fileInfo;
             VariableDeclaration.moduleName := AnalyzerFileInfo.moduleName fileInfo |} in
        addNewDeclaration (fst symbolWithScope) (VariableDecl declaration);; ret tt)
  | MemberAccessNode _ _ memberName =>
      let* memberAccessInfo := _getMemberAccessInfo target ancestors in
      whenSome memberAccessInfo (fun memberAccessInfo =>
        let name := memberName in
        let* symbol := lookUpOrAddMember (classScope memberAccessInfo) (NameNode.value name) in
        (if isInstanceMember memberAccessInfo then
           (* If a method (which has a declared type) is being overwritten
              by an expression with no declared type, don't mark it as
              an instance member because the type evaluator will think
              that it doesn't need to perform object binding. *)
           let* sym := getSymbol symbol in
           let* decls := getDeclarations symbol in
           when (negb (Symbol.isClassMember sym)
                 || negb (existsb (fun decl =>
                                     match decl with
                                     | FunctionDecl d => FunctionDeclaration.isMethod d
                                     | _ => false
                                     end) decls))
             (updateSymbol symbol Symbol.setIsInstanceMember)
         else updateSymbol symbol Symbol.setIsClassMember);;
        let* fileInfo := getsBinder _fileInfo in
        let declaration :=
          {| VariableDeclaration.node := NameNode.id memberName;
             VariableDeclaration.isConstant := isConstantName (NameNode.value name);
             VariableDeclaration.inferredTypeSource := Some source;
             VariableDeclaration.typeAnnotationNode := None;
             VariableDeclaration.isFinal := false;
             VariableDeclaration.isDefinedByMemberAccess := true;
             VariableDeclaration.typeAliasName := None;
             VariableDeclaration.typeAliasAnnotation := None;
             VariableDeclaration.path := AnalyzerFileInfo.filePath fileInfo;
             VariableDeclaration.moduleName := AnalyzerFileInfo.moduleName fileInfo |} in
        addNewDeclaration symbol (VariableDecl declaration);; ret tt)
  | TupleNode _ expressions =>
      forEach expressions (fun expr =>
        _addInferredTypeAssignmentForVariable ancestors expr source false)
  | TypeAnnotationNode _ valueExpression _ =>
      _addInferredTypeAssignmentForVariable ancestors valueExpression source false
  | UnpackNode _ expression =>
      _addInferredTypeAssignmentForVariable ancestors expression source false
  | ListNode _ entries =>
      forEach entries (fun entry =>
        _addInferredTypeAssignmentForVariable ancestors entry source false)
  | _ => ret tt
  end.

Definition _addTypeDeclarationForVariable (ancestors : list (ParseNode * bool))
    (target typeAnnotation : ParseNode) : M unit :=
  let* declarationHandled :=
    match target with
    | Name name =>
        let* scope := currentScope in
        let* symbolWithScope := lookUpSymbolRecursive scope (NameNode.value name) in
        whenSome symbolWithScope (fun symbolWithScope =>
          let* finalInfo := _isAnnotationFinal typeAnnotation in
          let* isExplicitTypeAlias := _isAnnotationTypeAlias typeAnnotation in
          let* typeAnnotationNode :=
            if isExplicitTypeAlias then
              (* Type aliases are allowed only in the global scope. *)
              let* type := scopeType scope in
              match type with
              | ScopeType.Module => ret tt
              | _ => _addError "typeAliasNotInModule" "" (nodeId typeAnnotation);; ret tt
              end;;
              ret None
            else if finalIsFinal finalInfo then ret (finalTypeNode finalInfo)
            else ret (Some (nodeId typeAnnotation)) in
          let* fileInfo := getsBinder _fileInfo in
          let declaration :=
            {| VariableDeclaration.node := nodeId target;
               VariableDeclaration.isConstant := isConstantName (NameNode.value name);
               VariableDeclaration.inferredTypeSource := None;
               VariableDeclaration.typeAnnotationNode := typeAnnotationNode;
               VariableDeclaration.isFinal := finalIsFinal finalInfo;
               VariableDeclaration.isDefinedByMemberAccess := false;
               VariableDeclaration.typeAliasName :=
                 if isExplicitTypeAlias then Some (nodeId target) else None;
               VariableDeclaration.typeAliasAnnotation :=
                 if isExplicitTypeAlias then Some (nodeId typeAnnotation) else None;
               VariableDeclaration.path := AnalyzerFileInfo.filePath fileInfo;
               VariableDeclaration.moduleName := AnalyzerFileInfo.moduleName fileInfo |} in
          addNewDeclaration (fst symbolWithScope) (VariableDecl declaration);;
          (* Is this annotation indicating that the variable is a "ClassVar"? Note
             that this check is somewhat fragile because we can't verify here that
             "ClassVar" maps to the typing module symbol by this name. *)
          let isClassVar :=
            match typeAnnotation with
            | IndexNode _ (Name baseName) _ => String.eqb (NameNode.value baseName) "ClassVar"
            | _ => false
            end in
          if isClassVar then updateSymbol (fst symbolWithScope) Symbol.setIsClassVar
          else updateSymbol (fst symbolWithScope) Symbol.setIsInstanceMember);;
        ret true
    | MemberAccessNode _ _ memberName =>
        (* We need to determine whether this expression is declaring a class or
           instance variable. *)
        let* memberAccessInfo := _getMemberAccessInfo target ancestors in
        match memberAccessInfo with
        | Some memberAccessInfo =>
            let name := memberName in
            let* symbol :=
              lookUpOrAddMember (classScope memberAccessInfo) (NameNode.value name) in
            (if isInstanceMember memberAccessInfo
             then updateSymbol symbol Symbol.setIsInstanceMember
             else updateSymbol symbol Symbol.setIsClassMember);;
            let* finalInfo := _isAnnotationFinal typeAnnotation in
            let* fileInfo := getsBinder _fileInfo in
            let declaration :=
              {| VariableDeclaration.node := NameNode.id memberName;
                 VariableDeclaration.isConstant := isConstantName (NameNode.value name);
                 VariableDeclaration.inferredTypeSource := None;
                 VariableDeclaration.typeAnnotationNode :=
                   if finalIsFinal finalInfo then finalTypeNode finalInfo
                   else Some (nodeId typeAnnotation);
                 VariableDeclaration.isFinal := finalIsFinal finalInfo;
                 VariableDeclaration.isDefinedByMemberAccess := true;
                 VariableDeclaration.typeAliasName := None;
                 VariableDeclaration.typeAliasAnnotation := None;
                 VariableDeclaration.path := AnalyzerFileInfo.filePath fileInfo;
                 VariableDeclaration.moduleName := AnalyzerFileInfo.moduleName fileInfo |} in
            addNewDeclaration symbol (VariableDecl declaration);;
            ret true
        | None => ret false
        end
    | _ => ret false
    end in
  when (negb declarationHandled)
    (_addError "annotationNotSupported" "" (nodeId typeAnnotation);; ret tt).

Fixpoint _bindPossibleTupleNamedTarget (target : ParseNode)
    (addedSymbols : option (list (string * nat))) : M (option (list (string * nat))) :=
  let all :=
    fix all (targets : list ParseNode) (addedSymbols : option (list (string * nat)))
        : M (option (list (string * nat))) :=
      match targets with
      | [] => ret addedSymbols
      | expr :: rest =>
          let* addedSymbols := _bindPossibleTupleNamedTarget expr addedSymbols in
          all rest addedSymbols
      end in
  match target with
  | Name n =>
      let* scope := currentScope in
      let* '(_, addedSymbols) := _bindNameToScope scope (NameNode.value n) addedSymbols in
      ret addedSymbols
  | TupleNode _ expressions => all expressions addedSymbols
  | ListNode _ entries => all entries addedSymbols
  | TypeAnnotationNode _ valueExpression _ =>
      _bindPossibleTupleNamedTarget valueExpression addedSymbols
  | UnpackNode _ expression => _bindPossibleTupleNamedTarget expression addedSymbols
  | _ => ret addedSymbols
  end.

(* ================================================================== *)
(** ** The methods of the binder: imports *)
(* ================================================================== *)

(** [symbol.addDeclaration] appends; [updateDeclaration] stands for the
    assignments to the fields of a declaration that exists. *)
Definition updateDeclaration (declaration : nat) (d : Declaration) : M unit :=
  modifyHeap (fun h => set_declarations (<[declaration := d]> (declarations h)) h).

Definition loaderActionsOfAlias (d : AliasDeclaration) : ModuleLoaderActions :=
  {| loaderPath := aliasPath d; loaderImplicitImports := aliasImplicitImports d |}.

Definition aliasWithLoaderActions (d : AliasDeclaration) (a : ModuleLoaderActions)
    : AliasDeclaration :=
  {| aliasNode := aliasNode d; aliasPath := loaderPath a;
     aliasModuleName := aliasModuleName d; symbolName := symbolName d;
     usesLocalName := usesLocalName d; firstNamePart := firstNamePart d;
     submoduleFallback := submoduleFallback d;
     aliasImplicitImports := loaderImplicitImports a |}.

Definition setLoaderPath (path : string) (a : ModuleLoaderActions) : ModuleLoaderActions :=
  {| loaderPath := path; loaderImplicitImports := loaderImplicitImports a |}.

Definition _addImplicitImportsToLoaderActions (importResult : ImportResult.t)
    (loaderActions : ModuleLoaderActions) : ModuleLoaderActions :=
  fold_left (fun loaderActions implicitImport =>
    let existingLoaderAction :=
      loaderImplicitImports loaderActions
        ≫= assocGet (ImplicitImport.name implicitImport) in
    match existingLoaderAction with
    | Some existingLoaderAction =>
        {| loaderPath := loaderPath loaderActions;
           loaderImplicitImports :=
             assocSet (ImplicitImport.name implicitImport)
               (setLoaderPath (ImplicitImport.path implicitImport) existingLoaderAction)
               <$> loaderImplicitImports loaderActions |}
    | None =>
        {| loaderPath := loaderPath loaderActions;
           loaderImplicitImports :=
             Some (assocSet (ImplicitImport.name implicitImport)
                     {| loaderPath := ImplicitImport.path implicitImport;
                        loaderImplicitImports := Some [] |}
                     (default [] (loaderImplicitImports loaderActions))) |}
    end) (ImportResult.implicitImports importResult) loaderActions.

(** The loop that fills in the name parts after the first: [i] is the
    index of the head of [parts] among the [count] name parts. *)
Fixpoint fillRemainingNameParts (importInfo : ImportResult.t) (count i : nat)
    (parts : list NameNode) (curLoaderActions : ModuleLoaderActions) : ModuleLoaderActions :=
  match parts with
  | [] => curLoaderActions
  | part :: rest =>
      if (length (ImportResult.resolvedPaths importInfo) <=? i)%nat then curLoaderActions
      else
        let namePartValue := NameNode.value part in
        (* Is there an existing loader action for this name? *)
        let existing := loaderImplicitImports curLoaderActions ≫= assocGet namePartValue in
        let loaderActions :=
          (* Allocate a new loader action. *)
          default {| loaderPath := ""; loaderImplicitImports := Some [] |} existing in
        (* If this is the last name part we're resolving, add in the
           implicit imports as well. *)
        let loaderActions :=
          if (i =? count - 1)%nat then
            _addImplicitImportsToLoaderActions importInfo
              (setLoaderPath (default "" (ImportResult.resolvedPaths importInfo !! i))
                 loaderActions)
          else loaderActions in
        let loaderActions :=
          fillRemainingNameParts importInfo count (S i) rest loaderActions in
        {| loaderPath := loaderPath curLoaderActions;
           loaderImplicitImports :=
             Some (assocSet namePartValue loaderActions
                     (default [] (loaderImplicitImports curLoaderActions))) |}
  end.

(** [symbol.getDeclarations().find(...)]: the first alias declaration of
    the symbol with this first name part. *)
Fixpoint findAliasDeclaration (table : gmap nat Declaration) (refs : list nat)
    (firstNamePartValue : string) : option (nat * AliasDeclaration) :=
  match refs with
  | [] => None
  | ref :: rest =>
      match table !! ref with
      | Some (AliasDecl d) =>
          if bool_decide (firstNamePart d = Some firstNamePartValue) then Some (ref, d)
          else findAliasDeclaration table rest firstNamePartValue
      | _ => findAliasDeclaration table rest firstNamePartValue
      end
  end.

(** [node] is the import statement ([ImportAsNode] or [ImportFromNode]),
    given by its identity and its module name. *)
Definition _createAliasDeclarationForMultipartImportName (node : nat) (module : ModuleNameNode)
    (importAlias : option NameNode) (importInfo : option ImportResult.t) (symbol : nat)
    : M unit :=
  let* firstNamePart := unwrap (ModuleNameNode.nameParts module !! 0%nat) "nameParts[0]" in
  let firstNamePartValue := NameNode.value firstNamePart in
  let resolved :=
    match importInfo with
    | Some importInfo =>
        if ImportResult.isImportFound importInfo
           && negb (ImportResult.isNativeLib importInfo)
           && (0 <? length (ImportResult.resolvedPaths importInfo))%nat
        then Some importInfo else None
    | None => None
    end in
  match resolved with
  | Some importInfo =>
      (* See if there's already a matching alias declaration for this import.
         If so, we'll update it rather than creating a new one. This is required
         to handle cases where multiple import statements target the same
         starting symbol such as "import a.b.c" and "import a.d". In this case,
         we'll build a single declaration that describes the combined actions
         of both import statements, thus reflecting the behavior of the
         python module loader. *)
      let* sym := getSymbol symbol in
      let* existingDecl :=
        getsHeap (fun h =>
          findAliasDeclaration (declarations h) (Symbol.declarations sym) firstNamePartValue) in
      let newDecl :=
        match existingDecl with
        | Some (_, existing) => existing
        | None =>
            {| aliasNode := node; aliasPath := "";
               aliasModuleName := ImportResult.importName importInfo;
               symbolName := None;
               usesLocalName := bool_decide (is_Some importAlias);
               firstNamePart := Some firstNamePartValue;
               submoduleFallback := None;
               aliasImplicitImports := None |}
        end in
      let newDecl :=
        (* Add the implicit imports for this module if it's the last
           name part we're resolving. *)
        if bool_decide (is_Some importAlias)
           || (length (ModuleNameNode.nameParts module) =? 1)%nat
        then
          aliasWithLoaderActions newDecl
            (_addImplicitImportsToLoaderActions importInfo
               (setLoaderPath (default "" (last (ImportResult.resolvedPaths importInfo)))
                  (loaderActionsOfAlias newDecl)))
        else
          (* Fill in the remaining name parts. *)
          aliasWithLoaderActions newDecl
            (fillRemainingNameParts importInfo (length (ModuleNameNode.nameParts module)) 1
               (tail (ModuleNameNode.nameParts module)) (loaderActionsOfAlias newDecl)) in
      match existingDecl with
      | Some (ref, _) => updateDeclaration ref (AliasDecl newDecl)
      | None => addNewDeclaration symbol (AliasDecl newDecl);; ret tt
      end
  | None =>
      (* If we couldn't resolve the import, create a dummy declaration with a
         bogus path so it gets an unknown type (rather than an unbound type) at
         analysis time. *)
      let newDecl :=
        {| aliasNode := node; aliasPath := "*** unresolved ***";
           aliasModuleName := "";
           symbolName := None;
           usesLocalName := bool_decide (is_Some importAlias);
           firstNamePart := None;
           submoduleFallback := None;
           aliasImplicitImports := None |} in
      addNewDeclaration symbol (AliasDecl newDecl);; ret tt
  end.

Definition _addImplicitFromImport (node : ImportFromNode) (importInfo : option ImportResult.t)
    : M unit :=
  let* symbolNameNode :=
    unwrap (ModuleNameNode.nameParts (ImportFromNode.module node) !! 0%nat) "nameParts[0]" in
  let symbolName := NameNode.value symbolNameNode in
  let* scope := currentScope in
  let* '(symbol, _) := _bindNameToScope scope symbolName None in
  whenSome symbol (fun symbol =>
    _createAliasDeclarationForMultipartImportName (ImportFromNode.id node)
      (ImportFromNode.module node) None importInfo symbol);;
  _createFlowAssignment (Name symbolNameNode) false.

Definition _getWildcardImportNames (lookupInfo : ImportLookupResult.t) : list string :=
  match getNamesInDunderAll (ImportLookupResult.symbolTable lookupInfo) with
  | Some namesToImport => namesToImport
  | None =>
      (* Import all names that don't begin with an underscore. *)
      fold_left (fun namesToImport entry =>
                   if negb (startsWith "_" (fst entry)) then namesToImport ++ [fst entry]
                   else namesToImport)
        (ImportLookupResult.symbolTable lookupInfo) []
  end.

(** A loop that carries a value. *)
Definition foldM {A B} (f : B -> A -> M B) (l : list A) (init : B) : M B :=
  (fix go (l : list A) (acc : B) : M B :=
     match l with
     | [] => ret acc
     | x :: l' => let* acc := f acc x in go l' acc
     end) l init.

Definition visitImportAs (node : ImportAsNode) : M bool :=
  let module := ImportAsNode.module node in
  match ModuleNameNode.nameParts module with
  | firstNamePart :: _ =>
      let firstNamePartValue := NameNode.value firstNamePart in
      let symbolName :=
        match ImportAsNode.alias node with
        | Some alias =>
            (* The symbol name is defined by the alias. *)
            NameNode.value alias
        | None =>
            (* There was no alias, so we need to use the first element of
               the name parts as the symbol. *)
            firstNamePartValue
        end in
      let* scope := currentScope in
      let* '(symbol, _) := _bindNameToScope scope symbolName None in
      let* fileInfo := getsBinder _fileInfo in
      whenSome symbol (fun symbol =>
        when (AnalyzerFileInfo.isStubFile fileInfo
              && negb (bool_decide (is_Some (ImportAsNode.alias node))))
          (* PEP 484 indicates that imported symbols should not be
             considered "reexported" from a type stub file unless
             they are imported using the "as" form. *)
          (updateSymbol symbol Symbol.setIsExternallyHidden));;
      let importInfo := ModuleNameNode.importInfo module in
      assert (bool_decide (is_Some importInfo)) "importInfo !== undefined";;
      whenSome symbol (fun symbol =>
        _createAliasDeclarationForMultipartImportName (ImportAsNode.id node) module
          (ImportAsNode.alias node) importInfo symbol);;
      _createFlowAssignment
        (Name (default firstNamePart (ImportAsNode.alias node))) false;;
      when ((length (ModuleNameNode.nameParts module) =? 1)%nat
            && (String.eqb firstNamePartValue "typing"
                || String.eqb firstNamePartValue "typing_extensions"))
        (let aliasValue :=
           match ImportAsNode.alias node with
           | Some alias =>
               if String.eqb (NameNode.value alias) "" then firstNamePartValue
               else NameNode.value alias
           | None => firstNamePartValue
           end in
         modifyBinder (fun b =>
           set__typingImportAliases (_typingImportAliases b ++ [aliasValue]) b));;
      ret true
  | [] => ret true
  end.

Definition typingSymbolsOfInterest : list string := ["Final"; "TypeAlias"].

Definition visitImportFrom (ancestors : list (ParseNode * bool)) (node : ImportFromNode)
    : M bool :=
  let module := ImportFromNode.module node in
  let importInfo := ModuleNameNode.importInfo module in
  let resolvedPath :=
    match importInfo with
    | Some importInfo =>
        if ImportResult.isImportFound importInfo
        then default "" (last (ImportResult.resolvedPaths importInfo))
        else ""
    | None => ""
    end in
  (* If this file is a module __init__.py(i), relative imports of submodules
     using the syntax "from .x import y" introduce a symbol x into the
     module namespace. We do this first (before adding the individual imported
     symbols below) in case one of the imported symbols is the same name as the
     submodule. In that case, we want to the symbol to appear later in the
     declaration list because it should "win" when resolving the alias. *)
  let* fileInfo := getsBinder _fileInfo in
  let fileName := stripFileExtension (getFileName (AnalyzerFileInfo.filePath fileInfo)) in
  let isModuleInitFile :=
    String.eqb fileName "__init__"
    && (ModuleNameNode.leadingDots module =? 1)%nat
    && (0 <? length (ModuleNameNode.nameParts module))%nat in
  let isTypingImport :=
    match ModuleNameNode.nameParts module with
    | [firstNamePart] =>
        String.eqb (NameNode.value firstNamePart) "typing"
        || String.eqb (NameNode.value firstNamePart) "typing_extensions"
    | _ => false
    end in
  let firstNamePartIs (name : string) : bool :=
    match ModuleNameNode.nameParts module with
    | firstNamePart :: _ => String.eqb name (NameNode.value firstNamePart)
    | [] => false
    end in
  (if ImportFromNode.isWildcardImport node then
     when (bool_decide (is_Some (ParseTreeUtils.getEnclosingClass ancestors false))
           || bool_decide (is_Some (ParseTreeUtils.getEnclosingFunction ancestors)))
       (_addError "wildcardInFunction" "" (ImportFromNode.id node);; ret tt);;
     whenSome importInfo (fun importInfo =>
       let* names :=
         match AnalyzerFileInfo.importLookup fileInfo resolvedPath with
         | Some lookupInfo =>
             let wildcardNames := _getWildcardImportNames lookupInfo in
             when isModuleInitFile
               ((* If the symbol is going to be immediately replaced with a same-named
                   imported symbol, skip this. *)
                let isImmediatelyReplaced := existsb firstNamePartIs wildcardNames in
                when (negb isImmediatelyReplaced)
                  (_addImplicitFromImport node (Some importInfo)));;
             foldM (fun names name =>
               let* symbol :=
                 unwrap (assocGet name (ImportLookupResult.symbolTable lookupInfo)) "symbol" in
               (* Don't include the ignored names in the symbol table. *)
               if negb (Symbol.isIgnoredForProtocolMatch symbol) then
                 let* scope := currentScope in
                 let* '(symbol, _) := _bindNameToScope scope name None in
                 match symbol with
                 | Some symbol =>
                     let aliasDecl :=
                       {| aliasNode := ImportFromNode.id node; aliasPath := resolvedPath;
                          aliasModuleName := AnalyzerFileInfo.moduleName fileInfo;
                          symbolName := Some name;
                          usesLocalName := false;
                          firstNamePart := None;
                          submoduleFallback := None;
                          aliasImplicitImports := None |} in
                     addNewDeclaration symbol (AliasDecl aliasDecl);;
                     ret (names ++ [name])
                 | None => ret names
                 end
               else ret names) wildcardNames []
         | None => ret []
         end in
       _createFlowWildcardImport node names;;
       when isTypingImport
         (forEach typingSymbolsOfInterest (fun s =>
            modifyBinder (fun b =>
              set__typingSymbolAliases (<[s := s]> (_typingSymbolAliases b)) b))))
   else
     when isModuleInitFile
       ((* If the symbol is going to be immediately replaced with a same-named
           imported symbol, skip this. *)
        let isImmediatelyReplaced :=
          existsb (fun importSymbolNode =>
                     let nameNode :=
                       default (ImportFromAsNode.name importSymbolNode)
                         (ImportFromAsNode.alias importSymbolNode) in
                     firstNamePartIs (NameNode.value nameNode))
            (ImportFromNode.imports node) in
        when (negb isImmediatelyReplaced) (_addImplicitFromImport node importInfo));;
     foldM (fun resolvedPath importSymbolNode =>
       let importedName := NameNode.value (ImportFromAsNode.name importSymbolNode) in
       let nameNode :=
         default (ImportFromAsNode.name importSymbolNode)
           (ImportFromAsNode.alias importSymbolNode) in
       let* scope := currentScope in
       let* '(symbol, _) := _bindNameToScope scope (NameNode.value nameNode) None in
       match symbol with
       | Some symbol =>
           when (AnalyzerFileInfo.isStubFile fileInfo
                 && negb (bool_decide (is_Some (ImportFromAsNode.alias importSymbolNode))))
             (* PEP 484 indicates that imported symbols should not be
                considered "reexported" from a type stub file unless
                they are imported using the "as" form. *)
             (updateSymbol symbol Symbol.setIsExternallyHidden);;
           (* Is the import referring to an implicitly-imported module? *)
           let implicitImport :=
             importInfo ≫= fun importInfo =>
               List.find (fun imp => String.eqb (ImplicitImport.name imp) importedName)
                 (ImportResult.implicitImports importInfo) in
           let submoduleFallback :=
             (fun implicitImport =>
                {| aliasNode := ImportFromAsNode.id importSymbolNode;
                   aliasPath := ImplicitImport.path implicitImport;
                   aliasModuleName := AnalyzerFileInfo.moduleName fileInfo;
                   symbolName := None;
                   usesLocalName := false;
                   firstNamePart := None;
                   submoduleFallback := None;
                   aliasImplicitImports := None |}) <$> implicitImport in
           (* Handle the case of "from . import X". In this case,
              we want to always resolve to the submodule rather than
              the resolved path. *)
           let resolvedPath :=
             if bool_decide (is_Some implicitImport)
                && (length (ModuleNameNode.nameParts module) =? 0)%nat
             then "" else resolvedPath in
           let aliasDecl :=
             {| aliasNode := ImportFromAsNode.id importSymbolNode;
                aliasPath := resolvedPath;
                aliasModuleName := AnalyzerFileInfo.moduleName fileInfo;
                symbolName := Some importedName;
                usesLocalName := bool_decide (is_Some (ImportFromAsNode.alias importSymbolNode));
                firstNamePart := None;
                submoduleFallback := submoduleFallback;
                aliasImplicitImports := None |} in
           addNewDeclaration symbol (AliasDecl aliasDecl);;
           _createFlowAssignment (Name nameNode) false;;
           when (isTypingImport
                 && existsb (fun s => String.eqb s importedName) typingSymbolsOfInterest)
             (modifyBinder (fun b =>
                set__typingSymbolAliases
                  (<[NameNode.value nameNode := importedName]> (_typingSymbolAliases b)) b));;
           ret resolvedPath
       | None => ret resolvedPath
       end) (ImportFromNode.imports node) resolvedPath;;
     ret tt);;
  ret true.

Definition specialTypes : list string :=
  ["Tuple"; "Generic"; "Protocol"; "Callable"; "Type"; "ClassVar"; "Final"; "Literal";
   "TypedDict"; "Union"; "Optional"; "Annotated"; "TypeAlias"; "OrderedDict"; "Concatenate"].

(** Handles some special-case assignment statements that are found
    within the typings.pyi file. *)
Definition _handleTypingStubAssignmentOrAnnotation (node : ParseNode) : M bool :=
  let* fileInfo := getsBinder _fileInfo in
  if negb (AnalyzerFileInfo.isTypingStubFile fileInfo) then ret false
  else
    let annotationNode :=
      match node with
      | TypeAnnotationNode _ _ _ => Some node
      | AssignmentNode _ (TypeAnnotationNode _ _ _ as leftExpression) _ _ => Some leftExpression
      | _ => None
      end in
    match annotationNode with
    | Some (TypeAnnotationNode _ (Name assignedNameNode) _ as annotationNode) =>
        let assignedName := NameNode.value assignedNameNode in
        if negb (existsb (String.eqb assignedName) specialTypes) then ret false
        else
          let* scope := currentScope in
          let* '(symbol, _) := _bindNameToScope scope assignedName None in
          whenSome symbol (fun symbol =>
            addNewDeclaration symbol
              (SpecialBuiltInClassDeclaration (nodeId annotationNode)
                 (AnalyzerFileInfo.filePath fileInfo) (AnalyzerFileInfo.moduleName fileInfo));;
            ret tt);;
          ret true
    | _ => ret false
    end.

(* ================================================================== *)
(** ** The visitors *)
(* ================================================================== *)

(** The visitors call [this.walk] on parts of the node they visit.  They
    are written over the walker they call, which is tied to them by
    [walk] below.  [ancestors] is the chain of enclosing scope nodes of
    the node that is visited (see [ParseTreeUtils]). *)
Section Visitors.
Variable walk : list (ParseNode * bool) -> ParseNode -> M unit.

Definition walkMultiple (ancestors : list (ParseNode * bool)) (nodes : list ParseNode)
    : M unit :=
  forEach nodes (walk ancestors).

Definition walkOptional (ancestors : list (ParseNode * bool)) (node : option ParseNode)
    : M unit :=
  whenSome node (walk ancestors).

Definition _walkStatementsAndReportUnreachable (ancestors : list (ParseNode * bool))
    (statements : list ParseNode) : M bool :=
  foldM (fun foundUnreachableStatement statement =>
    let* cur := getsBinder _currentFlowNode in
    AnalyzerNodeInfo.setFlowNode (nodeId statement) cur;;
    let* foundUnreachableStatement :=
      if negb foundUnreachableStatement then _isCodeUnreachable
      else ret foundUnreachableStatement in
    (if negb foundUnreachableStatement then walk ancestors statement
     else
       (* If we're within a function, we need to look for unreachable yield
          statements because they affect the behavior of the function (making
          it a generator) even if they're never executed. *)
       let* target := getsBinder _targetFunctionDeclaration in
       whenSome target (fun target =>
         let* declaration := getDeclaration target in
         match declaration with
         | FunctionDecl d =>
             when (negb (FunctionDeclaration.isGenerator d)
                   && YieldFinder.checkContainsYield statement)
               (updateDeclaration target
                  (FunctionDecl (FunctionDeclaration.setIsGenerator true d)))
         | _ => ret tt
         end));;
    ret foundUnreachableStatement) statements false;;
  ret false.

Definition visitSuite (ancestors : list (ParseNode * bool)) (statements : list ParseNode)
    : M bool :=
  _walkStatementsAndReportUnreachable ancestors statements;;
  ret false.

Definition visitModuleName (node : ModuleNameNode) : M bool :=
  let importResult := ModuleNameNode.importInfo node in
  assert (bool_decide (is_Some importResult)) "importResult !== undefined";;
  let* fileInfo := getsBinder _fileInfo in
  whenSome importResult (fun importResult =>
    if negb (ImportResult.isImportFound importResult) then
      _addDiagnostic (AnalyzerFileInfo.reportMissingImports fileInfo) "reportMissingImports"
        "importResolveFailure" (ImportResult.importName importResult)
        (ModuleNameNode.id node);;
      ret tt
    else
      (* Source found, but type stub is missing *)
      when (negb (ImportResult.isStubFile importResult)
            && match ImportResult.importType importResult with
               | ImportType.ThirdParty => true
               | _ => false
               end
            && negb (ImportResult.isPyTypedPresent importResult))
        (let* diagnostic :=
           _addDiagnostic (AnalyzerFileInfo.reportMissingTypeStubs fileInfo)
             "reportMissingTypeStubs" "stubFileMissing"
             (ImportResult.importName importResult) (ModuleNameNode.id node) in
         (* Add a diagnostic action for resolving this diagnostic. *)
         whenSome diagnostic (fun diagnostic =>
           addAction diagnostic (ImportResult.importName importResult)));;
      (* Type stub found, but source is missing. *)
      when (ImportResult.isStubFile importResult
            && match ImportResult.importType importResult with
               | ImportType.BuiltIn => false
               | _ => true
               end
            && bool_decide (ImportResult.nonStubImportResult importResult = Some false))
        ((* Don't report this for stub files. *)
         when (negb (AnalyzerFileInfo.isStubFile fileInfo))
           (_addDiagnostic (AnalyzerFileInfo.reportMissingModuleSource fileInfo)
              "reportMissingModuleSource" "importSourceResolveFailure"
              (ImportResult.importName importResult) (ModuleNameNode.id node);;
            ret tt)));;
  ret true.

(** The loop of [visitClass] that leaves the scopes of enclosing classes. *)
Fixpoint skipClassScopes (fuel : nat) (table : gmap nat Scope.t) (scope : nat) : option nat :=
  match fuel with
  | O => None
  | S fuel' =>
      match table !! scope with
      | None => None
      | Some sc =>
          match Scope.type sc with
          | ScopeType.Class =>
              match Scope.parent sc with
              | Some parent => skipClassScopes fuel' table parent
              | None => None
              end
          | _ => Some scope
          end
      end
  end.

Fixpoint _createAssignmentTargetFlowNodes (ancestors : list (ParseNode * bool))
    (target : ParseNode) (walkTargets unbound : bool) : M unit :=
  match target with
  | Name _ | MemberAccessNode _ _ _ =>
      _createFlowAssignment target unbound;;
      when walkTargets (walk ancestors target)
  | TupleNode _ expressions =>
      forEach expressions (fun expr =>
        _createAssignmentTargetFlowNodes ancestors expr walkTargets unbound)
  | TypeAnnotationNode _ valueExpression _ =>
      _createAssignmentTargetFlowNodes ancestors valueExpression false unbound;;
      when walkTargets (walk ancestors target)
  | UnpackNode _ expression =>
      _createAssignmentTargetFlowNodes ancestors expression false unbound;;
      when walkTargets (walk ancestors target)
  | ListNode _ entries =>
      forEach entries (fun entry =>
        _createAssignmentTargetFlowNodes ancestors entry walkTargets unbound)
  | _ => when walkTargets (walk ancestors target)
  end.

Definition visitClass (ancestors : list (ParseNode * bool)) (node : ParseNode)
    (decorators : list ParseNode) (name : NameNode) (arguments : list ParseNode)
    (suite : ParseNode) : M bool :=
  walkMultiple ((node, false) :: ancestors) decorators;;
  let* fileInfo := getsBinder _fileInfo in
  let* classDeclaration :=
    newDeclaration
      (ClassDeclaration (nodeId node) (AnalyzerFileInfo.filePath fileInfo)
         (AnalyzerFileInfo.moduleName fileInfo)) in
  let* scope := currentScope in
  let* '(symbol, _) := _bindNameToScope scope (NameNode.value name) None in
  whenSome symbol (fun symbol => updateSymbol symbol (Symbol.addDeclaration classDeclaration));;
  (* Stash the declaration in the parse node for later access. *)
  AnalyzerNodeInfo.setDeclaration (nodeId node) classDeclaration;;
  walkMultiple ((node, false) :: ancestors) arguments;;
  (* For nested classes, use the scope that contains the outermost
     class rather than the immediate parent. *)
  let* scope := currentScope in
  let* parentScope :=
    getsHeap (fun h => skipClassScopes (S (size (scopes h))) (scopes h) scope) in
  let* parentScope := unwrap parentScope "parentScope" in
  _createNewScope ScopeType.Class (Some parentScope)
    (let* scope := currentScope in
     AnalyzerNodeInfo.setScope (nodeId node) scope;;
     (* Analyze the suite. *)
     walk ((node, true) :: ancestors) suite);;
  _addSymbolToCurrentScope (NameNode.value name) true;;
  _createAssignmentTargetFlowNodes ancestors (Name name) false false;;
  ret false.

(** [node.parent] and up, to the first module or function. *)
Fixpoint functionOrModuleNode (ancestors : list (ParseNode * bool)) : option ParseNode :=
  match ancestors with
  | [] => None
  | (curNode, _) :: rest =>
      match curNode with
      | ModuleNode _ _ | FunctionNode _ _ _ _ _ _ _ _ => Some curNode
      | _ => functionOrModuleNode rest
      end
  end.

Definition visitFunction (ancestors : list (ParseNode * bool)) (node : ParseNode)
    (decorators : list ParseNode) (name : NameNode) (parameters : list ParseNode)
    (returnTypeAnnotation functionAnnotationComment : option ParseNode) : M bool :=
  let* scope := currentScope in
  let* '(symbol, _) := _bindNameToScope scope (NameNode.value name) None in
  let containingClassNode := ParseTreeUtils.getEnclosingClass ancestors true in
  let* fileInfo := getsBinder _fileInfo in
  let* functionDeclaration :=
    newDeclaration
      (FunctionDecl
         {| FunctionDeclaration.node := nodeId node;
            FunctionDeclaration.isMethod := bool_decide (is_Some containingClassNode);
            FunctionDeclaration.isGenerator := false;
            FunctionDeclaration.returnStatements := None;
            FunctionDeclaration.yieldStatements := None;
            FunctionDeclaration.raiseStatements := None;
            FunctionDeclaration.path := AnalyzerFileInfo.filePath fileInfo;
            FunctionDeclaration.moduleName := AnalyzerFileInfo.moduleName fileInfo |}) in
  whenSome symbol (fun symbol =>
    updateSymbol symbol (Symbol.addDeclaration functionDeclaration));;
  (* Stash the declaration in the parse node for later access. *)
  AnalyzerNodeInfo.setDeclaration (nodeId node) functionDeclaration;;
  walkMultiple ((node, false) :: ancestors) decorators;;
  forEach parameters (fun param =>
    match param with
    | ParameterNode _ _ typeAnnotation defaultValue =>
        walkOptional ((node, false) :: ancestors) defaultValue;;
        walkOptional ((node, false) :: ancestors) typeAnnotation
    | _ => ret tt
    end);;
  walkOptional ((node, false) :: ancestors) returnTypeAnnotation;;
  walkOptional ((node, false) :: ancestors) functionAnnotationComment;;
  (* Find the function or module that contains this function and use its scope.
     We can't simply use this._currentScope because functions within a class use
     the scope of the containing function or module when they execute. *)
  let functionOrModuleNode := functionOrModuleNode ancestors in
  assert (bool_decide (is_Some functionOrModuleNode)) "functionOrModuleNode !== undefined";;
  let* functionOrModuleNode := unwrap functionOrModuleNode "functionOrModuleNode" in
  let* functionOrModuleScope := AnalyzerNodeInfo.getScope (nodeId functionOrModuleNode) in
  assert (bool_decide (is_Some functionOrModuleScope)) "functionOrModuleScope !== undefined";;
  (* Don't walk the body of the function until we're done analyzing
     the current scope. *)
  _createNewScope ScopeType.Function functionOrModuleScope
    (let* scope := currentScope in
     AnalyzerNodeInfo.setScope (nodeId node) scope;;
     let enclosingClass := ParseTreeUtils.getEnclosingClass ancestors false in
     when (bool_decide (is_Some enclosingClass))
       ((* Add the implicit "__class__" symbol described in PEP 3135. *)
        _addBuiltInSymbolToCurrentScope "__class__" (nodeId node) "class");;
     _deferBinding (FunctionBody node functionDeclaration ancestors);;
     let* map := getsBinder _currentExecutionScopeReferenceMap in
     let* map := unwrap map "_currentExecutionScopeReferenceMap" in
     AnalyzerNodeInfo.setCodeFlowExpressions (nodeId node) map);;
  _createAssignmentTargetFlowNodes ancestors (Name name) false false;;
  (* We'll walk the child nodes in a deferred manner, so don't walk them now. *)
  ret false.

(** What the callback deferred by [visitFunction] and [visitLambda] does
    for each parameter that has a name. *)
Definition bindParameter (paramNode : ParseNode) (paramName : NameNode) : M unit :=
  let* scope := currentScope in
  let* '(symbol, _) := _bindNameToScope scope (NameNode.value paramName) None in
  whenSome symbol (fun symbol =>
    let* fileInfo := getsBinder _fileInfo in
    let* paramDeclaration :=
      addNewDeclaration symbol
        (ParameterDeclaration (nodeId paramNode) (AnalyzerFileInfo.filePath fileInfo)
           (AnalyzerFileInfo.moduleName fileInfo)) in
    AnalyzerNodeInfo.setDeclaration (NameNode.id paramName) paramDeclaration);;
  _createFlowAssignment (Name paramName) false.

(** The callback [visitFunction] defers. *)
Definition bindFunctionBody (ancestors : list (ParseNode * bool)) (node : ParseNode)
    (functionDeclaration : nat) : M unit :=
  match node with
  | FunctionNode _ _ _ _ parameters _ _ suite =>
      (* Create a start node for the function. *)
      let* start := _createStartFlowNode in
      modifyBinder (set__currentFlowNode (Some start));;
      forEach parameters (fun paramNode =>
        match paramNode with
        | ParameterNode _ (Some paramName) _ _ => bindParameter paramNode paramName
        | _ => ret tt
        end);;
      modifyBinder (set__targetFunctionDeclaration (Some functionDeclaration));;
      let* returnTarget := _createBranchLabel in
      modifyBinder (set__currentReturnTarget (Some returnTarget));;
      (* Walk the statements that make up the function. *)
      walk ((node, true) :: ancestors) suite;;
      (* Associate the code flow node at the end of the suite with
         the suite. *)
      let* cur := getsBinder _currentFlowNode in
      AnalyzerNodeInfo.setAfterFlowNode (nodeId suite) cur;;
      (* Compute the final return flow node and associate it with
         the function's parse node. If this node is unreachable, then
         the function never returns. *)
      let* cur := currentFlowNode in
      _addAntecedent returnTarget cur;;
      let* returnFlowNode := _finishFlowLabel returnTarget in
      AnalyzerNodeInfo.setAfterFlowNode (nodeId node) (Some returnFlowNode)
  | _ => throw "TypeError: not a function node"
  end.

Definition visitLambda (ancestors : list (ParseNode * bool)) (node : ParseNode)
    (parameters : list ParseNode) : M bool :=
  (* Analyze the parameter defaults in the context of the parent's scope
     before we add any names from the function's scope. *)
  forEach parameters (fun param =>
    match param with
    | ParameterNode _ _ _ defaultValue => walkOptional ((node, false) :: ancestors) defaultValue
    | _ => ret tt
    end);;
  let* scope := getsBinder _currentScope in
  _createNewScope ScopeType.Function scope
    (let* scope := currentScope in
     AnalyzerNodeInfo.setScope (nodeId node) scope;;
     _deferBinding (LambdaBody node ancestors));;
  (* We'll walk the child nodes in a deferred manner. *)
  ret false.

(** The callback [visitLambda] defers. *)
Definition bindLambdaBody (ancestors : list (ParseNode * bool)) (node : ParseNode) : M unit :=
  match node with
  | LambdaNode _ parameters expression =>
      (* Create a start node for the lambda. *)
      let* start := _createStartFlowNode in
      modifyBinder (set__currentFlowNode (Some start));;
      forEach parameters (fun paramNode =>
        match paramNode with
        | ParameterNode _ (Some paramName) _ _ =>
            bindParameter paramNode paramName;;
            walk ((node, true) :: ancestors) (Name paramName)
        | _ => ret tt
        end);;
      (* Walk the expression that make up the lambda body. *)
      walk ((node, true) :: ancestors) expression;;
      let* map := getsBinder _currentExecutionScopeReferenceMap in
      let* map := unwrap map "_currentExecutionScopeReferenceMap" in
      AnalyzerNodeInfo.setCodeFlowExpressions (nodeId node) map
  | _ => throw "TypeError: not a lambda node"
  end.

Definition visitCall (ancestors : list (ParseNode * bool)) (node : ParseNode)
    (leftExpression : ParseNode) (arguments : list ParseNode) : M bool :=
  walk ancestors leftExpression;;
  walkMultiple ancestors arguments;;
  _createCallFlowNode node;;
  ret false.

Definition visitAssignment (ancestors : list (ParseNode * bool)) (node : ParseNode)
    (leftExpression rightExpression : ParseNode) (typeAnnotationComment : option ParseNode)
    : M bool :=
  let* handled := _handleTypingStubAssignmentOrAnnotation node in
  if handled then ret false
  else
    _bindPossibleTupleNamedTarget leftExpression None;;
    whenSome typeAnnotationComment (fun typeAnnotationComment =>
      walk ancestors typeAnnotationComment;;
      _addTypeDeclarationForVariable ancestors leftExpression typeAnnotationComment);;
    walk ancestors rightExpression;;
    let isPossibleTypeAlias :=
      if bool_decide (is_Some (ParseTreeUtils.getEnclosingClass ancestors false))
         || bool_decide (is_Some (ParseTreeUtils.getEnclosingFunction ancestors))
      then
        (* We will assume that type aliases are defined only at the module level. *)
        false
      else
        match rightExpression with
        | CallNode _ _ _ =>
            (* Some special built-in types defined in typing.pyi use
               assignments of the form List = _Alias(). We don't want to
               treat these as type aliases. *)
            false
        | _ => true
        end in
    _addInferredTypeAssignmentForVariable ancestors leftExpression (nodeId rightExpression)
      isPossibleTypeAlias;;
    _createAssignmentTargetFlowNodes ancestors leftExpression true false;;
    ret false.

(** The loop of [visitAssignmentExpression] over the scopes between the
    current one and the container: whether one of them has a symbol of
    that name. *)
Fixpoint comprehensionTargetCollides (fuel : nat) (table : gmap nat Scope.t)
    (curScope containerScope : option nat) (name : string) : bool :=
  match fuel with
  | O => false
  | S fuel' =>
      match curScope with
      | None => false
      | Some scope =>
          if bool_decide (curScope = containerScope) then false
          else
            match table !! scope with
            | None => false
            | Some sc =>
                if bool_decide (is_Some (Scope.symbolTable sc !! name)) then true
                else comprehensionTargetCollides fuel' table (Scope.parent sc) containerScope name
            end
      end
  end.

Definition visitAssignmentExpression (ancestors : list (ParseNode * bool)) (node : ParseNode)
    (name : NameNode) (rightExpression : ParseNode) : M bool :=
  walk ancestors rightExpression;;
  match ParseTreeUtils.getEvaluationNodeForAssignmentExpression ancestors with
  | None => _addError "assignmentExprContext" "" (nodeId node);; ret tt
  | Some evaluationNode =>
      (* Bind the name to the containing scope. This special logic is required
         because of the behavior defined in PEP 572. Targets of assignment
         expressions don't bind to a list comprehension's scope but instead
         bind to its containing scope. *)
      let* containerScope := AnalyzerNodeInfo.getScope (nodeId evaluationNode) in
      (* If we're in a list comprehension (possibly nested), make sure that
         local for targets don't collide with the target of the assignment
         expression. *)
      let* curScope := getsBinder _currentScope in
      let* collides :=
        getsHeap (fun h =>
          comprehensionTargetCollides (S (size (scopes h))) (scopes h) curScope containerScope
            (NameNode.value name)) in
      when collides
        (_addError "assignmentExprComprehension" (NameNode.value name) (NameNode.id name);;
         ret tt);;
      let* containerScope := unwrap containerScope "containerScope" in
      _bindNameToScope containerScope (NameNode.value name) None;;
      _addInferredTypeAssignmentForVariable ancestors (Name name) (nodeId rightExpression) false
  end;;
  _createAssignmentTargetFlowNodes ancestors (Name name) true false;;
  ret false.

Definition visitAugmentedAssignment (ancestors : list (ParseNode * bool))
    (leftExpression rightExpression destExpression : ParseNode) : M bool :=
  walk ancestors leftExpression;;
  walk ancestors rightExpression;;
  _addInferredTypeAssignmentForVariable ancestors destExpression (nodeId rightExpression) false;;
  _bindPossibleTupleNamedTarget destExpression None;;
  _createAssignmentTargetFlowNodes ancestors destExpression false false;;
  ret false.

Definition visitDel (ancestors : list (ParseNode * bool)) (expressions : list ParseNode)
    : M bool :=
  forEach expressions (fun expr =>
    _bindPossibleTupleNamedTarget expr None;;
    walk ancestors expr;;
    _createAssignmentTargetFlowNodes ancestors expr false true);;
  ret false.

Definition visitTypeAnnotation (ancestors : list (ParseNode * bool)) (node : ParseNode)
    (valueExpression typeAnnotation : ParseNode) : M bool :=
  let* handled := _handleTypingStubAssignmentOrAnnotation node in
  if handled then ret false
  else
    _bindPossibleTupleNamedTarget valueExpression None;;
    _addTypeDeclarationForVariable ancestors valueExpression typeAnnotation;;
    (* For type annotations that are not part of assignments (e.g. simple variable
       annotations), we need to populate the reference map. Otherwise the type
       analyzer's code flow engine won't run and detect cases where the variable
       is unbound. *)
    let '(isNarrowing, expressionList) := _isNarrowingExpression valueExpression [] in
    when isNarrowing
      (forEach expressionList (fun expr =>
         let referenceKey := createKeyForReference expr in
         referenceMapSet referenceKey referenceKey));;
    ret true.

Definition _bindConditional (ancestors : list (ParseNode * bool)) (node : ParseNode)
    (trueTarget falseTarget : FlowNode) : M unit :=
  let* savedTrueTarget := getsBinder _currentTrueTarget in
  let* savedFalseTarget := getsBinder _currentFalseTarget in
  modifyBinder (set__currentTrueTarget (Some trueTarget));;
  modifyBinder (set__currentFalseTarget (Some falseTarget));;
  walk ancestors node;;
  modifyBinder (set__currentTrueTarget savedTrueTarget);;
  modifyBinder (set__currentFalseTarget savedFalseTarget);;
  when (negb (_isLogicalExpression node))
    (let* cur := currentFlowNode in
     let* trueCondition := _createFlowConditional FlowFlags.TrueCondition cur node in
     _addAntecedent trueTarget trueCondition;;
     let* cur := currentFlowNode in
     let* falseCondition := _createFlowConditional FlowFlags.FalseCondition cur node in
     _addAntecedent falseTarget falseCondition).

Definition setCurrentFlowNode (flowNode : FlowNode) : M unit :=
  modifyBinder (set__currentFlowNode (Some flowNode)).

Definition visitFor (ancestors : list (ParseNode * bool)) (node : ParseNode)
    (targetExpression iterableExpression forSuite : ParseNode) (elseSuite : option ParseNode)
    : M bool :=
  _bindPossibleTupleNamedTarget targetExpression None;;
  _addInferredTypeAssignmentForVariable ancestors targetExpression (nodeId node) false;;
  walk ancestors iterableExpression;;
  let* preForLabel := _createLoopLabel in
  let* preElseLabel := _createBranchLabel in
  let* postForLabel := _createBranchLabel in
  let* cur := currentFlowNode in
  _addAntecedent preForLabel cur;;
  setCurrentFlowNode preForLabel;;
  _addAntecedent preElseLabel preForLabel;;
  _createAssignmentTargetFlowNodes ancestors targetExpression true false;;
  _bindLoopStatement preForLabel postForLabel
    (walk ancestors forSuite;;
     let* cur := currentFlowNode in
     _addAntecedent preForLabel cur);;
  let* finished := _finishFlowLabel preElseLabel in
  setCurrentFlowNode finished;;
  walkOptional ancestors elseSuite;;
  let* cur := currentFlowNode in
  _addAntecedent postForLabel cur;;
  let* finished := _finishFlowLabel postForLabel in
  setCurrentFlowNode finished;;
  ret false.

Definition visitContinue : M bool :=
  let* target := getsBinder _currentContinueTarget in
  whenSome target (fun target =>
    let* cur := currentFlowNode in
    _addAntecedent target cur);;
  setCurrentFlowNode _unreachableFlowNode;;
  (* Continue nodes don't have any children. *)
  ret false.

Definition visitBreak : M bool :=
  let* target := getsBinder _currentBreakTarget in
  whenSome target (fun target =>
    let* cur := currentFlowNode in
    _addAntecedent target cur);;
  setCurrentFlowNode _unreachableFlowNode;;
  (* Break nodes don't have any children. *)
  ret false.

(** An update of the function declaration the binder is working on. *)
Definition updateTargetFunctionDeclaration
    (f : FunctionDeclaration.t -> FunctionDeclaration.t) : M unit :=
  let* target := getsBinder _targetFunctionDeclaration in
  whenSome target (fun target =>
    let* declaration := getDeclaration target in
    match declaration with
    | FunctionDecl d => updateDeclaration target (FunctionDecl (f d))
    | _ => ret tt
    end).

Definition visitReturn (ancestors : list (ParseNode * bool)) (node : ParseNode)
    (returnExpression : option ParseNode) : M bool :=
  updateTargetFunctionDeclaration (FunctionDeclaration.pushReturnStatement (nodeId node));;
  walkOptional ancestors returnExpression;;
  let* cur := getsBinder _currentFlowNode in
  AnalyzerNodeInfo.setFlowNode (nodeId node) cur;;
  let* returnTarget := getsBinder _currentReturnTarget in
  whenSome returnTarget (fun returnTarget =>
    let* cur := currentFlowNode in
    _addAntecedent returnTarget cur);;
  let* finallyTargets := getsBinder _finallyTargets in
  forEach finallyTargets (fun target =>
    let* cur := currentFlowNode in
    _addAntecedent target cur);;
  setCurrentFlowNode _unreachableFlowNode;;
  ret false.

Definition _bindYield (ancestors : list (ParseNode * bool)) (node : ParseNode)
    (expression : option ParseNode) : M unit :=
  match ParseTreeUtils.getEnclosingFunction ancestors with
  | None => _addError "yieldOutsideFunction" "" (nodeId node);; ret tt
  | Some (FunctionNode _ _ isAsync _ _ _ _ _) =>
      when (isAsync && match node with YieldFromNode _ _ => true | _ => false end)
        ((* PEP 525 indicates that 'yield from' is not allowed in an
            async function. *)
         _addError "yieldFromOutsideAsync" "" (nodeId node);; ret tt)
  | Some _ => ret tt
  end;;
  updateTargetFunctionDeclaration (fun d =>
    FunctionDeclaration.setIsGenerator true
      (FunctionDeclaration.pushYieldStatement (nodeId node) d));;
  walkOptional ancestors expression;;
  let* cur := getsBinder _currentFlowNode in
  AnalyzerNodeInfo.setFlowNode (nodeId node) cur.

Definition visitYield (ancestors : list (ParseNode * bool)) (node : ParseNode)
    (expression : option ParseNode) : M bool :=
  _bindYield ancestors node expression;;
  ret false.

Definition visitYieldFrom (ancestors : list (ParseNode * bool)) (node : ParseNode)
    (expression : ParseNode) : M bool :=
  _bindYield ancestors node (Some expression);;
  ret false.

Definition visitMemberAccess (node : ParseNode) : M bool :=
  let* cur := getsBinder _currentFlowNode in
  AnalyzerNodeInfo.setFlowNode (nodeId node) cur;;
  ret true.

Definition visitName (node : NameNode) : M bool :=
  let* cur := getsBinder _currentFlowNode in
  AnalyzerNodeInfo.setFlowNode (NameNode.id node) cur;;
  (* Name nodes have no children. *)
  ret false.

Definition visitIf (ancestors : list (ParseNode * bool))
    (testExpression ifSuite : ParseNode) (elseSuite : option ParseNode) : M bool :=
  let* thenLabel := _createBranchLabel in
  let* elseLabel := _createBranchLabel in
  let* postIfLabel := _createBranchLabel in
  (* Determine if the test condition is always true or always false. If so,
     we can treat either the then or the else clause as unconditional. *)
  let* fileInfo := getsBinder _fileInfo in
  let constExprValue :=
    evaluateStaticBoolLikeExpression testExpression
      (AnalyzerFileInfo.executionEnvironment fileInfo) in
  _bindConditional ancestors testExpression thenLabel elseLabel;;
  (* Handle the if clause. *)
  let* thenFlow :=
    if bool_decide (constExprValue = Some false) then ret _unreachableFlowNode
    else _finishFlowLabel thenLabel in
  setCurrentFlowNode thenFlow;;
  walk ancestors ifSuite;;
  let* cur := currentFlowNode in
  _addAntecedent postIfLabel cur;;
  (* Now handle the else clause if it's present. If there
     are chained "else if" statements, they'll be handled
     recursively here. *)
  let* elseFlow :=
    if bool_decide (constExprValue = Some true) then ret _unreachableFlowNode
    else _finishFlowLabel elseLabel in
  setCurrentFlowNode elseFlow;;
  walkOptional ancestors elseSuite;;
  let* cur := currentFlowNode in
  _addAntecedent postIfLabel cur;;
  let* finished := _finishFlowLabel postIfLabel in
  setCurrentFlowNode finished;;
  ret false.

Definition visitWhile (ancestors : list (ParseNode * bool))
    (testExpression whileSuite : ParseNode) (elseSuite : option ParseNode) : M bool :=
  let* thenLabel := _createBranchLabel in
  let* elseLabel := _createBranchLabel in
  let* postWhileLabel := _createBranchLabel in
  (* Determine if the test condition is always true or always false. If so,
     we can treat either the while or the else clause as unconditional. *)
  let* fileInfo := getsBinder _fileInfo in
  let constExprValue :=
    evaluateStaticBoolLikeExpression testExpression
      (AnalyzerFileInfo.executionEnvironment fileInfo) in
  let* preLoopLabel := _createLoopLabel in
  let* cur := currentFlowNode in
  _addAntecedent preLoopLabel cur;;
  setCurrentFlowNode preLoopLabel;;
  _bindConditional ancestors testExpression thenLabel elseLabel;;
  (* Handle the while clause. *)
  let* thenFlow :=
    if bool_decide (constExprValue = Some false) then ret _unreachableFlowNode
    else _finishFlowLabel thenLabel in
  setCurrentFlowNode thenFlow;;
  _bindLoopStatement preLoopLabel postWhileLabel (walk ancestors whileSuite);;
  let* cur := currentFlowNode in
  _addAntecedent preLoopLabel cur;;
  let* elseFlow :=
    if bool_decide (constExprValue = Some true) then ret _unreachableFlowNode
    else _finishFlowLabel elseLabel in
  setCurrentFlowNode elseFlow;;
  walkOptional ancestors elseSuite;;
  let* cur := currentFlowNode in
  _addAntecedent postWhileLabel cur;;
  let* finished := _finishFlowLabel postWhileLabel in
  setCurrentFlowNode finished;;
  ret false.

Definition visitAssert (ancestors : list (ParseNode * bool))
    (testExpression : ParseNode) (exceptionExpression : option ParseNode) : M bool :=
  let* assertTrueLabel := _createBranchLabel in
  let* assertFalseLabel := _createBranchLabel in
  _bindConditional ancestors testExpression assertTrueLabel assertFalseLabel;;
  whenSome exceptionExpression (fun exceptionExpression =>
    let* finished := _finishFlowLabel assertFalseLabel in
    setCurrentFlowNode finished;;
    walk ancestors exceptionExpression);;
  let* finished := _finishFlowLabel assertTrueLabel in
  setCurrentFlowNode finished;;
  ret false.

Definition visitExcept (ancestors : list (ParseNode * bool)) (node : ParseNode)
    (typeExpression : option ParseNode) (name : option NameNode) (exceptSuite : ParseNode)
    : M bool :=
  walkOptional ancestors typeExpression;;
  whenSome name (fun name =>
    walk ancestors (Name name);;
    let* scope := currentScope in
    let* '(symbol, _) := _bindNameToScope scope (NameNode.value name) None in
    _createAssignmentTargetFlowNodes ancestors (Name name) true false;;
    whenSome symbol (fun symbol =>
      let* fileInfo := getsBinder _fileInfo in
      let declaration :=
        {| VariableDeclaration.node := NameNode.id name;
           VariableDeclaration.isConstant := isConstantName (NameNode.value name);
           VariableDeclaration.inferredTypeSource := Some (nodeId node);
           VariableDeclaration.typeAnnotationNode := None;
           VariableDeclaration.isFinal := false;
           VariableDeclaration.isDefinedByMemberAccess := false;
           VariableDeclaration.typeAliasName := None;
           VariableDeclaration.typeAliasAnnotation := None;
           VariableDeclaration.path := AnalyzerFileInfo.filePath fileInfo;
           VariableDeclaration.moduleName := AnalyzerFileInfo.moduleName fileInfo |} in
      addNewDeclaration symbol (VariableDecl declaration);; ret tt));;
  walk ancestors exceptSuite;;
  whenSome name (fun name =>
    (* The exception name is implicitly unbound at the end of
       the except block. *)
    _createFlowAssignment (Name name) true);;
  ret false.

Definition visitRaise (ancestors : list (ParseNode * bool)) (node : ParseNode)
    (typeExpression valueExpression tracebackExpression : option ParseNode) : M bool :=
  updateTargetFunctionDeclaration (FunctionDeclaration.pushRaiseStatement (nodeId node));;
  let* nestedExceptDepth := getsBinder _nestedExceptDepth in
  when (negb (bool_decide (is_Some typeExpression)) && (nestedExceptDepth =? 0)%Z)
    (_addError "raiseParams" "" (nodeId node);; ret tt);;
  walkOptional ancestors typeExpression;;
  walkOptional ancestors valueExpression;;
  walkOptional ancestors tracebackExpression;;
  let* finallyTargets := getsBinder _finallyTargets in
  forEach finallyTargets (fun target =>
    let* cur := currentFlowNode in
    _addAntecedent target cur);;
  setCurrentFlowNode _unreachableFlowNode;;
  ret false.

(** [list.map(() => this._createBranchLabel())] *)
Definition createBranchLabels {A} (l : list A) : M (list FlowNode) :=
  foldM (fun labels _ => let* label := _createBranchLabel in ret (labels ++ [label])) l [].

Definition visitTry (ancestors : list (ParseNode * bool)) (trySuite : ParseNode)
    (exceptClauses : list ParseNode) (elseSuite finallySuite : option ParseNode) : M bool :=
  (* The try/except/else/finally statement is tricky to model using static code
     flow rules because the finally clause is executed regardless of whether an
     exception is raised or a return statement is executed. Code within the finally
     clause needs to be reachable always, and we conservatively assume that any
     statement within the try block can generate an exception, so we assume that its
     antecedent is the pre-try flow. We implement this with a "gate" node in the
     control flow graph. If analysis starts within the finally clause, the gate is
     opened, and all raise/return statements within try/except/else blocks are
     considered antecedents. If analysis starts outside (after) the finally clause,
     the gate is closed, and only paths that don't hit a raise/return statement
     in try/except/else blocks are considered. *)

  (* Create one flow label for every except clause. *)
  let* curExceptTargets := createBranchLabels exceptClauses in
  let* preFinallyLabel := _createBranchLabel in
  (* Create a label for all of the return or raise labels that are
     encountered within the try/except/else blocks. This conditionally
     connects the return/raise statement to the finally clause. *)
  let* preFinallyReturnOrRaiseLabel := _createBranchLabel in
  let isAfterElseAndExceptsReachable := false in
  let* gateId := getUniqueFlowNodeId in
  let preFinallyGate :=
    FlowNode.PreFinallyGate FlowFlags.PreFinallyGate gateId preFinallyReturnOrRaiseLabel false in
  when (bool_decide (is_Some finallySuite)) (_addAntecedent preFinallyLabel preFinallyGate);;
  (* An exception may be generated before the first flow node
     added by the try block, so all of the exception targets
     must have the pre-try flow node as an antecedent. *)
  forEach curExceptTargets (fun exceptLabel =>
    let* cur := currentFlowNode in
    _addAntecedent exceptLabel cur);;
  (* We don't perfectly handle nested finally clauses, which are not
     possible to model fully within a static analyzer, but we do handle
     a single level of finally statements, and we handle most cases
     involving nesting. Returns or raises within the try/except/raise
     block will execute the finally target(s). *)
  when (bool_decide (is_Some finallySuite))
    (modifyBinder (fun b =>
       set__finallyTargets (_finallyTargets b ++ [preFinallyReturnOrRaiseLabel]) b));;
  (* Handle the try block. *)
  let* prevExceptTargets := getsBinder _currentExceptTargets in
  modifyBinder (set__currentExceptTargets (Some curExceptTargets));;
  walk ancestors trySuite;;
  modifyBinder (set__currentExceptTargets prevExceptTargets);;
  (* Handle the else block, which is executed only if
     execution falls through the try block. *)
  walkOptional ancestors elseSuite;;
  let* cur := currentFlowNode in
  _addAntecedent preFinallyLabel cur;;
  let* unreachable := _isCodeUnreachable in
  let isAfterElseAndExceptsReachable :=
    if negb unreachable then true else isAfterElseAndExceptsReachable in
  (* Handle the except blocks. *)
  modifyBinder (fun b => set__nestedExceptDepth (_nestedExceptDepth b + 1)%Z b);;
  let* isAfterElseAndExceptsReachable :=
    foldM (fun isAfterElseAndExceptsReachable '(exceptNode, exceptLabel) =>
      let* finished := _finishFlowLabel exceptLabel in
      setCurrentFlowNode finished;;
      walk ancestors exceptNode;;
      let* cur := currentFlowNode in
      _addAntecedent preFinallyLabel cur;;
      let* unreachable := _isCodeUnreachable in
      ret (if negb unreachable then true else isAfterElseAndExceptsReachable))
      (zip exceptClauses curExceptTargets) isAfterElseAndExceptsReachable in
  modifyBinder (fun b => set__nestedExceptDepth (_nestedExceptDepth b - 1)%Z b);;
  when (bool_decide (is_Some finallySuite))
    (modifyBinder (fun b => set__finallyTargets (removelast (_finallyTargets b)) b));;
  (* Handle the finally block. *)
  let* finished := _finishFlowLabel preFinallyLabel in
  setCurrentFlowNode finished;;
  whenSome finallySuite (fun finallySuite =>
    walk ancestors finallySuite;;
    (* Add a post-finally node at the end. If we traverse this node,
       we'll set the "ignore" flag in the pre-finally node. *)
    let* postFinallyId := getUniqueFlowNodeId in
    let* cur := getsBinder _currentFlowNode in
    let postFinallyNode :=
      FlowNode.PostFinally FlowFlags.PostFinally postFinallyId cur preFinallyGate in
    setCurrentFlowNode
      (if isAfterElseAndExceptsReachable then postFinallyNode else _unreachableFlowNode));;
  ret false.

Definition visitAwait (ancestors : list (ParseNode * bool)) (node : ParseNode) : M bool :=
  (* Make sure this is within an async lambda or function. *)
  let isAsyncFunction :=
    match ParseTreeUtils.getEnclosingFunction ancestors with
    | Some (FunctionNode _ _ isAsync _ _ _ _ _) => isAsync
    | _ => false
    end in
  when (negb isAsyncFunction) (_addError "awaitNotInAsync" "" (nodeId node);; ret tt);;
  ret true.

Definition visitStringList (node : ParseNode)
    (unescapeErrors : list UnescapeErrorType.t) : M bool :=
  let* fileInfo := getsBinder _fileInfo in
  forEach unescapeErrors (fun error =>
    match error with
    | UnescapeErrorType.InvalidEscapeSequence =>
        _addDiagnostic (AnalyzerFileInfo.reportInvalidStringEscapeSequence fileInfo)
          "reportInvalidStringEscapeSequence" "stringUnsupportedEscape" "" (nodeId node);;
        ret tt
    | UnescapeErrorType.EscapeWithinFormatExpression =>
        _addError "formatStringEscape" "" (nodeId node);; ret tt
    | UnescapeErrorType.SingleCloseBraceWithinFormatLiteral =>
        _addError "formatStringBrace" "" (nodeId node);; ret tt
    | UnescapeErrorType.UnterminatedFormatExpression =>
        _addError "formatStringUnterminated" "" (nodeId node);; ret tt
    end);;
  ret true.

Definition visitGlobal (nameList : list NameNode) : M bool :=
  let* scope := currentScope in
  let* globalScope := getGlobalScope scope in
  forEach nameList (fun name =>
    let nameValue := NameNode.value name in
    (* Is the binding inconsistent? *)
    let* binding := notLocalBindingsGet nameValue in
    when (bool_decide (binding = Some NameBindingType.Nonlocal))
      (_addError "nonLocalRedefinition" nameValue (NameNode.id name);; ret tt);;
    let* scope := currentScope in
    let* valueWithScope := lookUpSymbolRecursive scope nameValue in
    (* Was the name already assigned within this scope before it was declared global? *)
    when (bool_decide (snd <$> valueWithScope = Some scope))
      (_addError "globalReassignment" nameValue (NameNode.id name);; ret tt);;
    (* Add it to the global scope if it's not already added. *)
    _bindNameToScope globalScope nameValue None;;
    when (negb (scope =? globalScope)%nat)
      (notLocalBindingsSet nameValue NameBindingType.Global));;
  ret true.

Definition visitNonlocal (node : ParseNode) (nameList : list NameNode) : M bool :=
  let* scope := currentScope in
  let* globalScope := getGlobalScope scope in
  (if (scope =? globalScope)%nat then _addError "nonLocalInModule" "" (nodeId node);; ret tt
   else
     forEach nameList (fun name =>
       let nameValue := NameNode.value name in
       (* Is the binding inconsistent? *)
       let* binding := notLocalBindingsGet nameValue in
       when (bool_decide (binding = Some NameBindingType.Global))
         (_addError "globalRedefinition" nameValue (NameNode.id name);; ret tt);;
       let* scope := currentScope in
       let* valueWithScope := lookUpSymbolRecursive scope nameValue in
       (* Was the name already assigned within this scope before it was declared nonlocal? *)
       (if bool_decide (snd <$> valueWithScope = Some scope) then
          _addError "nonLocalReassignment" nameValue (NameNode.id name);; ret tt
        else if bool_decide (valueWithScope = None)
                || bool_decide (snd <$> valueWithScope = Some globalScope) then
          _addError "nonLocalNoBinding" nameValue (NameNode.id name);; ret tt
        else ret tt);;
       when (bool_decide (is_Some valueWithScope))
         (notLocalBindingsSet nameValue NameBindingType.Nonlocal)));;
  ret true.

Definition visitWith (ancestors : list (ParseNode * bool)) (withItems : list ParseNode)
    (suite : ParseNode) : M bool :=
  forEach withItems (fun item =>
    match item with
    | WithItemNode _ expression target =>
        walk ancestors expression;;
        whenSome target (fun target =>
          _bindPossibleTupleNamedTarget target None;;
          _addInferredTypeAssignmentForVariable ancestors target (nodeId item) false;;
          _createAssignmentTargetFlowNodes ancestors target true false)
    | _ => throw "TypeError: not a with item"
    end);;
  walk ancestors suite;;
  ret false.

Definition visitTernary (ancestors : list (ParseNode * bool))
    (ifExpression testExpression elseExpression : ParseNode) : M bool :=
  let* trueLabel := _createBranchLabel in
  let* falseLabel := _createBranchLabel in
  let* postExpressionLabel := _createBranchLabel in
  (* Handle the test expression. *)
  _bindConditional ancestors testExpression trueLabel falseLabel;;
  (* Handle the "true" portion (the "if" expression). *)
  let* finished := _finishFlowLabel trueLabel in
  setCurrentFlowNode finished;;
  walk ancestors ifExpression;;
  let* cur := currentFlowNode in
  _addAntecedent postExpressionLabel cur;;
  (* Handle the "false" portion (the "else" expression). *)
  let* finished := _finishFlowLabel falseLabel in
  setCurrentFlowNode finished;;
  walk ancestors elseExpression;;
  let* cur := currentFlowNode in
  _addAntecedent postExpressionLabel cur;;
  let* finished := _finishFlowLabel postExpressionLabel in
  setCurrentFlowNode finished;;
  ret false.

Definition visitUnaryOperation (ancestors : list (ParseNode * bool))
    (operator : OperatorType.t) (expression : ParseNode) : M bool :=
  let* currentTrueTarget := getsBinder _currentTrueTarget in
  let* currentFalseTarget := getsBinder _currentFalseTarget in
  match OperatorType.eqb operator OperatorType.Not, currentFalseTarget, currentTrueTarget with
  | true, Some falseTarget, Some trueTarget =>
      (* Swap the existing true/false targets. *)
      _bindConditional ancestors expression falseTarget trueTarget
  | _, _, _ =>
      let savedTrueTarget := currentTrueTarget in
      let savedFalseTarget := currentFalseTarget in
      (* Temporarily set the true/false targets to undefined because
         this unary operation is not part of a chain of logical expressions
         (AND/OR/NOT subexpressions). *)
      modifyBinder (set__currentTrueTarget None);;
      modifyBinder (set__currentFalseTarget None);;
      (* Evaluate the operand expression. *)
      walk ancestors expression;;
      modifyBinder (set__currentFalseTarget savedFalseTarget);;
      modifyBinder (set__currentTrueTarget savedTrueTarget)
  end;;
  ret false.

Definition visitBinaryOperation (ancestors : list (ParseNode * bool))
    (leftExpression : ParseNode) (operator : OperatorType.t) (rightExpression : ParseNode)
    : M bool :=
  (if OperatorType.eqb operator OperatorType.And || OperatorType.eqb operator OperatorType.Or
   then
     let* currentTrueTarget := getsBinder _currentTrueTarget in
     let* currentFalseTarget := getsBinder _currentFalseTarget in
     let* '(trueTarget, falseTarget, postRightLabel) :=
       match currentTrueTarget, currentFalseTarget with
       | Some trueTarget, Some falseTarget => ret (trueTarget, falseTarget, None)
       | _, _ =>
           let* postRightLabel := _createBranchLabel in
           ret (postRightLabel, postRightLabel, Some postRightLabel)
       end in
     let* preRightLabel := _createBranchLabel in
     (if OperatorType.eqb operator OperatorType.And
      then _bindConditional ancestors leftExpression preRightLabel falseTarget
      else _bindConditional ancestors leftExpression trueTarget preRightLabel);;
     let* finished := _finishFlowLabel preRightLabel in
     setCurrentFlowNode finished;;
     _bindConditional ancestors rightExpression trueTarget falseTarget;;
     whenSome postRightLabel (fun postRightLabel =>
       let* finished := _finishFlowLabel postRightLabel in
       setCurrentFlowNode finished)
   else
     let* savedTrueTarget := getsBinder _currentTrueTarget in
     let* savedFalseTarget := getsBinder _currentFalseTarget in
     (* Temporarily set the true/false targets to undefined because
        this binary operation is not part of a chain of logical expressions
        (AND/OR/NOT subexpressions). *)
     modifyBinder (set__currentTrueTarget None);;
     modifyBinder (set__currentFalseTarget None);;
     walk ancestors leftExpression;;
     walk ancestors rightExpression;;
     modifyBinder (set__currentFalseTarget savedFalseTarget);;
     modifyBinder (set__currentTrueTarget savedTrueTarget));;
  ret false.

Definition visitListComprehension (ancestors : list (ParseNode * bool)) (node : ParseNode)
    (expression : ParseNode) (comprehensions : list ParseNode) : M bool :=
  let* scope := getsBinder _currentScope in
  _createNewScope ScopeType.ListComprehension scope
    (let ancestors := (node, true) :: ancestors in
     let* scope := currentScope in
     AnalyzerNodeInfo.setScope (nodeId node) scope;;
     let* falseLabel := _createBranchLabel in
     (* We'll walk the comprehensions list twice. The first time we'll
        bind targets of for statements. The second time we'll walk
        expressions and create the control flow graph. *)
     let* boundSymbols :=
       foldM (fun boundSymbols compr =>
         let* addedSymbols :=
           match compr with
           | ListComprehensionForNode _ targetExpression _ =>
               let* addedSymbols := _bindPossibleTupleNamedTarget targetExpression (Some []) in
               _addInferredTypeAssignmentForVariable ancestors targetExpression (nodeId compr)
                 false;;
               ret (default [] addedSymbols)
           | _ => ret []
           end in
         ret (boundSymbols ++ [addedSymbols])) comprehensions [] in
     forEach (zip comprehensions boundSymbols) (fun '(compr, addedSymbols) =>
       match compr with
       | ListComprehensionForNode _ targetExpression iterableExpression =>
           (* Determine if we added a new symbol to this scope. If so, see
              if it's the same name as a symbol in an outer scope. If so, we'll
              create an alias node in the control flow graph. *)
           forEach addedSymbols (fun addedSymbol =>
             let* scope := currentScope in
             let* parent := scopeParent scope in
             let* parent := unwrap parent "_currentScope.parent" in
             let* aliasSymbol := lookUpSymbol parent (fst addedSymbol) in
             whenSome aliasSymbol (fun aliasSymbol =>
               _createAssignmentAliasFlowNode (snd addedSymbol) aliasSymbol));;
           walk ancestors iterableExpression;;
           _createAssignmentTargetFlowNodes ancestors targetExpression true false
       | ListComprehensionIfNode _ testExpression =>
           let* trueLabel := _createBranchLabel in
           _bindConditional ancestors testExpression trueLabel falseLabel;;
           let* finished := _finishFlowLabel trueLabel in
           setCurrentFlowNode finished
       | _ => throw "TypeError: not a comprehension clause"
       end);;
     walk ancestors expression;;
     let* cur := currentFlowNode in
     _addAntecedent falseLabel cur;;
     let* finished := _finishFlowLabel falseLabel in
     setCurrentFlowNode finished);;
  ret false.

Definition visitModule : M bool :=
  (* Tree walking should start with the children of
     the node, so we should never get here. *)
  throw "We should never get here".

(** [visitNode] of the base walker: the dispatch on the kind of the node
    to the visitor of the binder, or to the default visitor, which
    answers [true]. *)
Definition visitNode (ancestors : list (ParseNode * bool)) (node : ParseNode) : M bool :=
  match node with
  | Name n => visitName n
  | MemberAccessNode _ _ _ => visitMemberAccess node
  | StringListNode _ unescapeErrors => visitStringList node unescapeErrors
  | CallNode _ leftExpression arguments => visitCall ancestors node leftExpression arguments
  | BinaryOperationNode _ leftExpression operator rightExpression =>
      visitBinaryOperation ancestors leftExpression operator rightExpression
  | UnaryOperationNode _ operator expression =>
      visitUnaryOperation ancestors operator expression
  | TernaryNode _ ifExpression testExpression elseExpression =>
      visitTernary ancestors ifExpression testExpression elseExpression
  | AssignmentExpressionNode _ name rightExpression =>
      visitAssignmentExpression ancestors node name rightExpression
  | AwaitNode _ _ => visitAwait ancestors node
  | TypeAnnotationNode _ valueExpression typeAnnotation =>
      visitTypeAnnotation ancestors node valueExpression typeAnnotation
  | LambdaNode _ parameters _ => visitLambda ancestors node parameters
  | ListComprehensionNode _ expression comprehensions =>
      visitListComprehension ancestors node expression comprehensions
  | YieldNode _ expression => visitYield ancestors node expression
  | YieldFromNode _ expression => visitYieldFrom ancestors node expression
  | AssignmentNode _ leftExpression rightExpression typeAnnotationComment =>
      visitAssignment ancestors node leftExpression rightExpression typeAnnotationComment
  | AugmentedAssignmentNode _ leftExpression rightExpression destExpression =>
      visitAugmentedAssignment ancestors leftExpression rightExpression destExpression
  | DelNode _ expressions => visitDel ancestors expressions
  | IfNode _ testExpression ifSuite elseSuite =>
      visitIf ancestors testExpression ifSuite elseSuite
  | WhileNode _ testExpression whileSuite elseSuite =>
      visitWhile ancestors testExpression whileSuite elseSuite
  | ForNode _ targetExpression iterableExpression forSuite elseSuite =>
      visitFor ancestors node targetExpression iterableExpression forSuite elseSuite
  | TryNode _ trySuite exceptClauses elseSuite finallySuite =>
      visitTry ancestors trySuite exceptClauses elseSuite finallySuite
  | ExceptNode _ typeExpression name exceptSuite =>
      visitExcept ancestors node typeExpression name exceptSuite
  | WithNode _ withItems suite => visitWith ancestors withItems suite
  | RaiseNode _ typeExpression valueExpression tracebackExpression =>
      visitRaise ancestors node typeExpression valueExpression tracebackExpression
  | ReturnNode _ returnExpression => visitReturn ancestors node returnExpression
  | BreakNode _ => visitBreak
  | ContinueNode _ => visitContinue
  | AssertNode _ testExpression exceptionExpression =>
      visitAssert ancestors testExpression exceptionExpression
  | GlobalNode _ nameList => visitGlobal nameList
  | NonlocalNode _ nameList => visitNonlocal node nameList
  | ImportAs n => visitImportAs n
  | ImportFrom n => visitImportFrom ancestors n
  | ModuleName n => visitModuleName n
  | ClassNode _ decorators name arguments suite =>
      visitClass ancestors node decorators name arguments suite
  | FunctionNode _ decorators _ name parameters returnTypeAnnotation
      functionAnnotationComment _ =>
      visitFunction ancestors node decorators name parameters returnTypeAnnotation
        functionAnnotationComment
  | SuiteNode _ statements => visitSuite ancestors statements
  | ModuleNode _ _ => visitModule
  | ConstantNode _ _ | NumberNode _ | ArgumentNode _ _ _ _ | TupleNode _ _ | ListNode _ _
  | UnpackNode _ _ | IndexNode _ _ _ | ListComprehensionForNode _ _ _
  | ListComprehensionIfNode _ _ | OtherNode _ _ | PassNode _ | WithItemNode _ _ _
  | ImportNode _ _ | ImportFromAs _ | ParameterNode _ _ _ _ | DecoratorNode _ _ _
  | StatementListNode _ _ => ret true
  end.

End Visitors.

(* ================================================================== *)
(** ** The walker, the deferred tasks and the module *)
(* ================================================================== *)

(** [walk] of the base walker: visit the node and, when the visitor
    says so, walk its children.  The recursion follows the nesting of
    the parse tree; [fuel] bounds its depth. *)
Fixpoint walk (fuel : nat) (ancestors : list (ParseNode * bool)) (node : ParseNode) : M unit :=
  match fuel with
  | O => outOfFuel
  | S fuel' =>
      let* descend := visitNode (walk fuel') ancestors node in
      if descend then forEach (getChildNodes node) (walk fuel' ancestors) else ret tt
  end.

(** [nextItem.callback()] *)
Definition runCallback (fuel : nat) (callback : DeferredCallback) : M unit :=
  match callback with
  | FunctionBody node functionDeclaration ancestors =>
      bindFunctionBody (walk fuel) ancestors node functionDeclaration
  | LambdaBody node ancestors => bindLambdaBody (walk fuel) ancestors node
  end.

(** The loop of [_bindDeferred]; [iterations] bounds the number of
    tasks it takes off the queue. *)
Fixpoint _bindDeferred (fuel iterations : nat) : M unit :=
  let* tasks := getsBinder _deferredBindingTasks in
  match tasks with
  | [] => ret tt
  | nextItem :: rest =>
      match iterations with
      | O => outOfFuel
      | S iterations' =>
          modifyBinder (set__deferredBindingTasks rest);;
          (* Reset the state *)
          modifyBinder (set__currentScope (DeferredBindingTask.scope nextItem));;
          modifyBinder (set__notLocalBindings (DeferredBindingTask.nonLocalBindingsMap nextItem));;
          modifyBinder (set__nestedExceptDepth 0%Z);;
          modifyBinder
            (set__currentExecutionScopeReferenceMap
               (DeferredBindingTask.codeFlowExpressionMap nextItem));;
          runCallback fuel (DeferredBindingTask.callback nextItem);;
          _bindDeferred fuel iterations'
      end
  end.

Record BinderResults := {
  moduleDocString : option string;
}.

(** The scope of the builtins module, when the file has one, is the
    first object of the heap. *)
Definition builtinsScopeRef (fileInfo : AnalyzerFileInfo.t) : option nat :=
  match AnalyzerFileInfo.builtinsScope fileInfo with
  | Some _ => Some 0%nat
  | None => None
  end.

Definition bindModule (fuel : nat) (node : ParseNode) : M BinderResults :=
  match node with
  | ModuleNode _ statements =>
      (* We'll assume that if there is no builtins scope provided, we must be
         binding the builtins module itself. *)
      let* fileInfo := getsBinder _fileInfo in
      let isBuiltInModule := bool_decide (AnalyzerFileInfo.builtinsScope fileInfo = None) in
      _createNewScope (if isBuiltInModule then ScopeType.Builtin else ScopeType.Module)
        (builtinsScopeRef fileInfo)
        (let* scope := currentScope in
         AnalyzerNodeInfo.setScope (nodeId node) scope;;
         let* cur := getsBinder _currentFlowNode in
         AnalyzerNodeInfo.setFlowNode (nodeId node) cur;;
         (* Bind implicit names.
            List taken from https://docs.python.org/3/reference/import.html#__name__ *)
         _addBuiltInSymbolToCurrentScope "__doc__" (nodeId node) "str";;
         _addBuiltInSymbolToCurrentScope "__name__" (nodeId node) "str";;
         _addBuiltInSymbolToCurrentScope "__loader__" (nodeId node) "Any";;
         _addBuiltInSymbolToCurrentScope "__package__" (nodeId node) "str";;
         _addBuiltInSymbolToCurrentScope "__spec__" (nodeId node) "Any";;
         _addBuiltInSymbolToCurrentScope "__path__" (nodeId node) "Iterable[str]";;
         _addBuiltInSymbolToCurrentScope "__file__" (nodeId node) "str";;
         _addBuiltInSymbolToCurrentScope "__cached__" (nodeId node) "str";;
         _addBuiltInSymbolToCurrentScope "__dict__" (nodeId node) "Dict[str, Any]";;
         (* Create a start node for the module. *)
         let* start := _createStartFlowNode in
         setCurrentFlowNode start;;
         _walkStatementsAndReportUnreachable (walk fuel) [(node, true)] statements;;
         let* map := getsBinder _currentExecutionScopeReferenceMap in
         let* map := unwrap map "_currentExecutionScopeReferenceMap" in
         AnalyzerNodeInfo.setCodeFlowExpressions (nodeId node) map;;
         (* Associate the code flow node at the end of the module with the module. *)
         let* cur := getsBinder _currentFlowNode in
         AnalyzerNodeInfo.setAfterFlowNode (nodeId node) cur);;
      (* Perform all analysis that was deferred during the first pass. *)
      _bindDeferred fuel fuel;;
      ret {| moduleDocString := getDocString statements |}
  | _ => throw "TypeError: not a module node"
  end.

End BinderMethods.

(** [new Binder(fileInfo)]: the fields as the class initialises them, in
    a heap that holds the scope of the builtins module (when the file
    has one) and the map [_notLocalBindings] starts with.  The flow-node
    counter has handed out one id, that of [_unreachableFlowNode]. *)
Definition newBinder (fileInfo : AnalyzerFileInfo.t) : State :=
  let builtins := default [] (AnalyzerFileInfo.builtinsScope fileInfo) in
  {| binder :=
       {| _fileInfo := fileInfo;
          _deferredBindingTasks := [];
          _currentScope := None;
          _notLocalBindings := 1;
          _nestedExceptDepth := 0;
          _currentFlowNode := None;
          _targetFunctionDeclaration := None;
          _currentBreakTarget := None;
          _currentContinueTarget := None;
          _currentTrueTarget := None;
          _currentFalseTarget := None;
          _currentExceptTargets := None;
          _finallyTargets := [];
          _currentReturnTarget := None;
          _currentExecutionScopeReferenceMap := None;
          _typingImportAliases := [];
          _typingSymbolAliases := ∅ |};
     heap :=
       {| nextFlowNodeId := 2;
          antecedents := ∅;
          nextSymbolId := S (foldr (fun entry n => Nat.max (Symbol.id (snd entry)) n) 0%nat builtins);
          symbols := list_to_map ((fun entry => (Symbol.id (snd entry), snd entry)) <$> builtins);
          nextObjectId := 2;
          scopes :=
            match AnalyzerFileInfo.builtinsScope fileInfo with
            | Some table =>
                {[ 0%nat :=
                     {| Scope.type := ScopeType.Builtin; Scope.parent := None;
                        Scope.symbolTable :=
                          list_to_map ((fun entry => (fst entry, Symbol.id (snd entry)))
                                         <$> table) |} ]}
            | None => ∅
            end;
          declarations := ∅;
          nameBindings := {[ 1%nat := ∅ ]};
          referenceMaps := ∅ |};
     nodeInfo :=
       {| flowNode := ∅; afterFlowNode := ∅; scope := ∅; declaration := ∅;
          codeFlowExpressions := ∅ |};
     diagnostics := [] |}.

(* ================================================================== *)
(** ** Collaborators for the examples *)
(* ================================================================== *)

(** Modelled from the spec: a reference is supported by code-flow
    analysis when it is a bare name or a dotted chain of member accesses
    that ends in a name. *)
Fixpoint isCodeFlowSupportedForReferenceModel (reference : ParseNode) : bool :=
  match reference with
  | Name _ => true
  | MemberAccessNode _ leftExpression _ => isCodeFlowSupportedForReferenceModel leftExpression
  | _ => false
  end.

(** Modelled from the spec: the reference key is the canonical string
    form of a name or dotted member-access chain. *)
Fixpoint createKeyForReferenceModel (reference : ParseNode) : string :=
  match reference with
  | Name n => NameNode.value n
  | MemberAccessNode _ leftExpression memberName =>
      createKeyForReferenceModel leftExpression +:+ "." +:+ NameNode.value memberName
  | _ => ""
  end.

(** Modelled from the spec: the static evaluator answers true, false or
    nothing; the constants [True] and [False] are what it answers for
    here. *)
Definition evaluateStaticBoolLikeExpressionModel (node : ParseNode)
    (env : ExecutionEnvironment.t) : option bool :=
  match node with
  | ConstantNode _ KeywordType.True_ => Some true
  | ConstantNode _ KeywordType.False_ => Some false
  | _ => None
  end.

(** The collaborators of the examples.  [exportList] is the explicit
    export list the imported module advertises, if any. *)
Definition exampleCollaborators (exportList : option (list string)) : Collaborators :=
  {| evaluateStaticBoolLikeExpression := evaluateStaticBoolLikeExpressionModel;
     isCodeFlowSupportedForReference := isCodeFlowSupportedForReferenceModel;
     createKeyForReference := createKeyForReferenceModel;
     getNamesInDunderAll := fun _ => exportList;
     isConstantName := fun _ => false;
     isPrivateOrProtectedName := startsWith "_";
     getFileName := fun path => path;
     stripFileExtension := fun path => path;
     getDocString := fun _ => None |}.

(* ================================================================== *)
(** * Vocabulary of the properties and example inputs *)
(* ================================================================== *)

Section Vocabulary.
Context `{Collaborators}.

(** The state with another antecedent table. *)
Definition withAntecedents (table : gmap nat (list FlowNode)) (s : State) : State :=
  set_heap (set_antecedents table (heap s)) s.

(** What [_addAntecedent] does to the antecedent table when the current
    flow node is reachable. *)
Definition addAntecedentTo (label antecedent : FlowNode) (table : gmap nat (list FlowNode))
    : gmap nat (list FlowNode) :=
  let labelAntecedents := default [] (table !! FlowNode.id label) in
  if existsb (fun existing => FlowNode.id existing =? FlowNode.id antecedent)%nat
       labelAntecedents
  then table
  else <[FlowNode.id label := labelAntecedents ++ [antecedent]]> table.

(** The state after [referenceMapSet key key] in the map [ref]. *)
Definition registerReference (ref : nat) (key : string) (s : State) : State :=
  set_heap
    (set_referenceMaps
       (<[ref := <[key := key]> (default ∅ (referenceMaps (heap s) !! ref))]>
          (referenceMaps (heap s))) (heap s)) s.

(** The keys of the reference map [ref]. *)
Definition referenceMapOf (s : State) (ref : nat) : gmap string string :=
  default ∅ (referenceMaps (heap s) !! ref).

(** The state after [getUniqueFlowNodeId]. *)
Definition bumpFlowNodeId (s : State) : State :=
  set_heap (set_nextFlowNodeId (S (nextFlowNodeId (heap s))) (heap s)) s.

(** The state after [_addExceptTargets flowNode] in reachable code. *)
Definition addExceptTargetsTo (flowNode : FlowNode) (s : State) : State :=
  withAntecedents
    (foldl (fun table label => addAntecedentTo label flowNode table)
       (antecedents (heap s)) (default [] (_currentExceptTargets (binder s)))) s.

Definition registerReferences (ref : nat) (expressionList : list ParseNode) (s : State)
    : State :=
  foldl (fun s expr => registerReference ref (createKeyForReference expr) s) s expressionList.

(** The flag of a condition node, for the branch it stands for. *)
Definition conditionFlag (branch : bool) : Z :=
  if branch then FlowFlags.TrueCondition else FlowFlags.FalseCondition.

(** The state after [_createFlowConditional] has made a condition node. *)
Definition conditionState (ref : nat) (flowNode cur : FlowNode)
    (expressionList : list ParseNode) (s : State) : State :=
  let s1 := bumpFlowNodeId (registerReferences ref expressionList s) in
  if hasFlag (FlowNode.flags cur) FlowFlags.Unreachable then s1
  else addExceptTargetsTo flowNode s1.

(** The state after [scope.addSymbol(name, flags)]. *)
Definition addSymbolTo (scope : nat) (name : string) (flags : Z) (sc : Scope.t) (s : State)
    : State :=
  let id := nextSymbolId (heap s) in
  set_heap
    (set_nextSymbolId (S id)
       (set_symbols (<[id := {| Symbol.id := id; Symbol.flags := flags;
                                Symbol.declarations := [] |}]> (symbols (heap s)))
          (set_scopes (<[scope := Scope.setSymbol name id sc]> (scopes (heap s))) (heap s))))
    s.

(** The symbol id [_createFlowAssignment] finds for its target: that of
    the symbol the name resolves to from the current scope, and the
    indeterminate id for a target that is not a name. *)
Definition assignmentTarget (node : ParseNode) (s : State) : option nat :=
  match node with
  | Name n =>
      match _currentScope (binder s) with
      | Some scope =>
          fst <$> lookUpSymbolRecursiveFrom (S (size (scopes (heap s)))) (scopes (heap s))
                    scope (NameNode.value n)
      | None => None
      end
  | _ => Some indeterminateSymbolId
  end.

(** The assignment node [_createFlowAssignment] makes. *)
Definition assignmentFlowNode (node : ParseNode) (unbound : bool) (cur : FlowNode)
    (target : nat) (s : State) : FlowNode :=
  let flowNode :=
    FlowNode.Assignment FlowFlags.Assignment (nextFlowNodeId (heap s)) node cur target in
  if unbound then FlowNode.orFlags FlowFlags.Unbind flowNode else flowNode.

(** The state after [_createFlowAssignment] has made its node. *)
Definition assignmentState (ref : nat) (node : ParseNode) (flowNode : FlowNode) (s : State)
    : State :=
  let s1 :=
    addExceptTargetsTo flowNode
      (registerReference ref (createKeyForReference node) (bumpFlowNodeId s)) in
  set_binder (set__currentFlowNode (Some flowNode) (binder s1)) s1.

(** Whether [_createFlowAssignment] makes a node. *)
Definition createsAssignment (node : ParseNode) (cur : FlowNode) : bool :=
  negb (hasFlag (FlowNode.flags cur) FlowFlags.Unreachable)
  && isCodeFlowSupportedForReference node.



(** ** Example inputs *)

(** The file info of the examples: a source file [example.py] with an
    empty builtins scope, in which [importLookup] is given. *)
Definition exampleFileInfo (importLookup : string -> option ImportLookupResult.t)
    : AnalyzerFileInfo.t :=
  {| AnalyzerFileInfo.filePath := "example.py";
     AnalyzerFileInfo.moduleName := "example";
     AnalyzerFileInfo.isStubFile := false;
     AnalyzerFileInfo.isTypingStubFile := false;
     AnalyzerFileInfo.builtinsScope := Some [];
     AnalyzerFileInfo.executionEnvironment :=
       {| ExecutionEnvironment.pythonVersion := PythonVersion.V3_10;
          ExecutionEnvironment.pythonPlatform := None |};
     AnalyzerFileInfo.reportMissingImports := DiagnosticLevel.error;
     AnalyzerFileInfo.reportMissingTypeStubs := DiagnosticLevel.none;
     AnalyzerFileInfo.reportMissingModuleSource := DiagnosticLevel.warning;
     AnalyzerFileInfo.reportInvalidStringEscapeSequence := DiagnosticLevel.warning;
     AnalyzerFileInfo.reportPrivateUsage := DiagnosticLevel.none;
     AnalyzerFileInfo.importLookup := importLookup |}.

Definition nameNode (id : nat) (value : string) : NameNode :=
  {| NameNode.id := id; NameNode.value := value |}.

(** Binding a module of the examples with a new binder. *)
Definition bindExample (exportList : option (list string))
    (importLookup : string -> option ImportLookupResult.t) (node : ParseNode)
    : Result BinderResults :=
  @bindModule (exampleCollaborators exportList) 20 node
    (newBinder (exampleFileInfo importLookup)).








(** [if True: pass] *)
Definition ifTrueExample : ParseNode :=
  ModuleNode 0
    [IfNode 1 (ConstantNode 2 KeywordType.True_)
       (SuiteNode 3 [StatementListNode 4 [PassNode 5]]) None].

(** [def f(): pass] followed by [g = lambda: (yield)]. *)
Definition lambdaYieldExample : ParseNode :=
  ModuleNode 0
    [FunctionNode 1 [] false (nameNode 2 "f") [] None None
       (SuiteNode 3 [StatementListNode 4 [PassNode 5]]);
     StatementListNode 6
       [AssignmentNode 7 (Name (nameNode 8 "g"))
          (LambdaNode 9 [] (YieldNode 10 None)) None]].

(** The function declarations of the heap that are marked as
    generators, by the id of the function node. *)
Definition generatorFunctions (s : State) : list nat :=
  omap (fun entry =>
          match snd entry with
          | FunctionDecl d =>
              if FunctionDeclaration.isGenerator d then Some (FunctionDeclaration.node d)
              else None
          | _ => None
          end) (map_to_list (declarations (heap s))).

(** The antecedents of every label have pairwise distinct ids. *)
Definition antecedentsDistinct (s : State) : Prop :=
  forall id l, antecedents (heap s) !! id = Some l -> NoDup (FlowNode.id <$> l).

(** The queue of deferred tasks of [s'] is that of [s] with tasks added
    at its end. *)
Definition queueExtended (s s' : State) : Prop :=
  exists added,
    _deferredBindingTasks (binder s') = _deferredBindingTasks (binder s) ++ added.

(** One step of the walker: it keeps the ids of the antecedents of every
    label distinct, and it only adds to the end of the queue. *)
Definition walkerStep (s s' : State) : Prop :=
  (antecedentsDistinct s -> antecedentsDistinct s') /\ queueExtended s s'.

(** A computation all of whose results are steps of the walker. *)
Definition follows {A} (m : M A) : Prop :=
  forall s a s', m s = Ok a s' -> walkerStep s s'.

(** The task [_deferBinding] makes for a callback: it captures the
    current scope, the map of non-local bindings and the reference map
    of the current execution scope. *)
Definition capturedTask (callback : DeferredCallback) (s : State) : DeferredBindingTask.t :=
  {| DeferredBindingTask.scope := _currentScope (binder s);
     DeferredBindingTask.nonLocalBindingsMap := _notLocalBindings (binder s);
     DeferredBindingTask.codeFlowExpressionMap :=
       _currentExecutionScopeReferenceMap (binder s);
     DeferredBindingTask.callback := callback |}.

(** The state with another queue of deferred tasks. *)
Definition withQueue (tasks : list DeferredBindingTask.t) (s : State) : State :=
  set_binder (set__deferredBindingTasks tasks (binder s)) s.

(** The state in which [_bindDeferred] runs the callback of the task it
    took off the queue. *)
Definition restoredFor (task : DeferredBindingTask.t) (rest : list DeferredBindingTask.t)
    (s : State) : State :=
  set_binder
    (set__currentExecutionScopeReferenceMap (DeferredBindingTask.codeFlowExpressionMap task)
       (set__nestedExceptDepth 0%Z
          (set__notLocalBindings (DeferredBindingTask.nonLocalBindingsMap task)
             (set__currentScope (DeferredBindingTask.scope task)
                (set__deferredBindingTasks rest (binder s)))))) s.











(** ** A module to import and states to start from *)


(** The symbol table of [m]: the implicit module attribute [__name__],
    flagged as ignored for protocol matching, and a variable [foo]. *)
Definition exampleModuleTable : list (string * Symbol.t) :=
  [("__name__",
    {| Symbol.id := 100; Symbol.flags := SymbolFlags.IgnoredForProtocolMatch;
       Symbol.declarations := [] |});
   ("foo",
    {| Symbol.id := 101; Symbol.flags := SymbolFlags.ClassMember;
       Symbol.declarations := [] |})].

Definition exampleImportLookup (path : string) : option ImportLookupResult.t :=
  if String.eqb path "m.py"
  then Some {| ImportLookupResult.symbolTable := exampleModuleTable |}
  else None.



(** The state of a new binder at the start of the statements of a
    module: the module scope (object 2) in the builtins scope, its
    reference map (object 3) and the start node (flow node 2). *)
Definition moduleStartState : State :=
  match
    (let* scope := newScope ScopeType.Module (Some 0%nat) in
     modifyBinder (set__currentScope (Some scope));;
     let* map := newReferenceMap in
     modifyBinder (set__currentExecutionScopeReferenceMap (Some map));;
     let* start := _createStartFlowNode in
     modifyBinder (set__currentFlowNode (Some start)))
      (newBinder (exampleFileInfo exampleImportLookup))
  with
  | Ok _ s => s
  | _ => newBinder (exampleFileInfo exampleImportLookup)
  end.

(** The module with a variable [x] (symbol 1), whose name node (node
    10) has the start node as its flow node. *)
Definition variableState : State :=
  match
    (addSymbol 2 "x" SymbolFlags.InitiallyUnbound;;
     AnalyzerNodeInfo.setFlowNode 10 (Some (FlowNode.Base FlowFlags.Start 2)))
      moduleStartState
  with
  | Ok _ s => s
  | _ => moduleStartState
  end.


(** Inside the body of a class of that module: the class scope is
    object 4. *)
Definition classBodyState : State :=
  match
    (let* scope := newScope ScopeType.Class (Some 2%nat) in
     modifyBinder (set__currentScope (Some scope))) variableState
  with
  | Ok _ s => s
  | _ => variableState
  end.

(** The state after binding [if True: pass]. *)
Definition ifTrueState : State :=
  match bindExample None (fun _ => None) ifTrueExample with
  | Ok _ s => s
  | _ => newBinder (exampleFileInfo (fun _ => None))
  end.

(* ------------------------------------------------------------------ *)
(** ** Vocabulary of the further properties *)

(** [yield] and [yield from] nodes. *)
Definition isYieldNode (node : ParseNode) : bool :=
  match node with
  | YieldNode _ _ | YieldFromNode _ _ => true
  | _ => false
  end.

(** The nodes of the tree under a node, the node included, as the base
    walker reaches them through [getChildNodes]. *)
Inductive descendantOf : ParseNode -> ParseNode -> Prop :=
  | descendant_self node : descendantOf node node
  | descendant_child node child d :
      child ∈ getChildNodes node -> descendantOf d child -> descendantOf d node.

(** A computation keeps a relation between the state it starts in and
    the state it returns in. *)
Definition keeps {A} (R : State -> State -> Prop) (m : M A) : Prop :=
  forall s a s', m s = Ok a s' -> R s s'.

(** The fields of the binder that say where in the program it is: the
    file, the scope with its non-local bindings and its reference map,
    the function being bound with its return target, the targets of
    [break], [continue], of the branches of a condition, of exceptions
    and of [finally], and the depth of [except] clauses. *)
Definition sameContext (s s' : State) : Prop :=
  _fileInfo (binder s') = _fileInfo (binder s)
  /\ _currentScope (binder s') = _currentScope (binder s)
  /\ _notLocalBindings (binder s') = _notLocalBindings (binder s)
  /\ _currentExecutionScopeReferenceMap (binder s')
     = _currentExecutionScopeReferenceMap (binder s)
  /\ _targetFunctionDeclaration (binder s') = _targetFunctionDeclaration (binder s)
  /\ _currentReturnTarget (binder s') = _currentReturnTarget (binder s)
  /\ _currentBreakTarget (binder s') = _currentBreakTarget (binder s)
  /\ _currentContinueTarget (binder s') = _currentContinueTarget (binder s)
  /\ _currentTrueTarget (binder s') = _currentTrueTarget (binder s)
  /\ _currentFalseTarget (binder s') = _currentFalseTarget (binder s)
  /\ _currentExceptTargets (binder s') = _currentExceptTargets (binder s)
  /\ _finallyTargets (binder s') = _finallyTargets (binder s)
  /\ _nestedExceptDepth (binder s') = _nestedExceptDepth (binder s).

(** [while x:] with a [try] in its body that leaves the loop, and a bare
    [except: pass]. *)
Definition loopTryExample : ParseNode :=
  WhileNode 20 (Name (nameNode 21 "x"))
    (SuiteNode 22
       [TryNode 23
          (SuiteNode 24 [StatementListNode 25 [BreakNode 26]])
          [ExceptNode 27 None None (SuiteNode 28 [StatementListNode 29 [PassNode 30]])]
          None None])
    None.

(** The state after walking that loop in the module with the variable
    [x]. *)
Definition loopTryState : State :=
  match @walk (exampleCollaborators None) 20 [] loopTryExample variableState with
  | Ok _ s => s
  | _ => variableState
  end.

(** The scopes of the heap were allocated below its counter. *)
Definition scopesAllocated (s : State) : Prop :=
  forall scope, is_Some (scopes (heap s) !! scope) -> (scope < nextObjectId (heap s))%nat.

(** A scope stays a scope of its kind under its parent, and the names
    bound in it stay bound to their symbols. *)
Definition scopeKept (sc sc' : Scope.t) : Prop :=
  Scope.type sc' = Scope.type sc
  /\ Scope.parent sc' = Scope.parent sc
  /\ (forall name symbol,
        Scope.symbolTable sc !! name = Some symbol ->
        Scope.symbolTable sc' !! name = Some symbol).

(** No scope is lost or replaced, and no name of a scope is rebound. *)
Definition bindingsKept (s s' : State) : Prop :=
  (nextObjectId (heap s) <= nextObjectId (heap s'))%nat
  /\ (scopesAllocated s ->
      scopesAllocated s'
      /\ (forall scope sc,
            scopes (heap s) !! scope = Some sc ->
            exists sc', scopes (heap s') !! scope = Some sc' /\ scopeKept sc sc')).

(** The statements [x = 1] and [y = x]. *)
Definition rebindStatements : list ParseNode :=
  [StatementListNode 41
     [AssignmentNode 42 (Name (nameNode 43 "x")) (NumberNode 44) None];
   StatementListNode 45
     [AssignmentNode 46 (Name (nameNode 47 "y")) (Name (nameNode 48 "x")) None]].

(** The suite of these statements. *)
Definition rebindExample : ParseNode := SuiteNode 40 rebindStatements.

(** The state after walking these statements in the module with the
    variable [x]. *)
Definition rebindState : State :=
  match @walk (exampleCollaborators None) 20 [] rebindExample variableState with
  | Ok _ s => s
  | _ => variableState
  end.

(** The binder is the same; the heap and the tables of the nodes may
    differ. *)
Definition sameBinder (s s' : State) : Prop := binder s' = binder s.

(** The statements that leave the flow of control: [break], [continue],
    [return] and [raise]. *)
Definition isJumpNode (node : ParseNode) : bool :=
  match node with
  | BreakNode _ | ContinueNode _ | ReturnNode _ _ | RaiseNode _ _ _ _ => true
  | _ => false
  end.

(** The visitor stops the descent and leaves the binder at the
    unreachable node. *)
Definition endsFlow (m : M bool) : Prop :=
  forall s descend s',
    m s = Ok descend s' ->
    descend = false /\ _currentFlowNode (binder s') = Some _unreachableFlowNode.

(** The function declaration after [isGenerator] is set for a [yield]
    among the statements. *)
Definition markGenerator (statements : list ParseNode) (d : FunctionDeclaration.t)
    : FunctionDeclaration.t :=
  if negb (FunctionDeclaration.isGenerator d)
     && existsb YieldFinder.checkContainsYield statements
  then FunctionDeclaration.setIsGenerator true d
  else d.

(** [return x] *)
Definition returnExample : ParseNode :=
  ReturnNode 50 (Some (Name (nameNode 51 "x"))).

(** The state after walking [return x] in the module with the variable
    [x]. *)
Definition returnState : State :=
  match @walk (exampleCollaborators None) 20 [] returnExample variableState with
  | Ok _ s => s
  | _ => variableState
  end.

(** The declaration of a function of the examples that is not known to
    be a generator. *)
Definition exampleFunctionDeclaration : FunctionDeclaration.t :=
  {| FunctionDeclaration.node := 60;
     FunctionDeclaration.isMethod := false;
     FunctionDeclaration.isGenerator := false;
     FunctionDeclaration.returnStatements := None;
     FunctionDeclaration.yieldStatements := None;
     FunctionDeclaration.raiseStatements := None;
     FunctionDeclaration.path := "example.py";
     FunctionDeclaration.moduleName := "example" |}.

(** In the body of that function (its declaration is object 4), after a
    statement that left the flow of control. *)
Definition deadCodeState : State :=
  match
    (let* ref := newDeclaration (FunctionDecl exampleFunctionDeclaration) in
     modifyBinder (set__targetFunctionDeclaration (Some ref));;
     modifyBinder (set__currentFlowNode (Some _unreachableFlowNode))) variableState
  with
  | Ok _ s => s
  | _ => variableState
  end.

(** The statements [x] and [yield]. *)
Definition deadCodeExample : list ParseNode :=
  [StatementListNode 61 [Name (nameNode 62 "x")];
   StatementListNode 63 [YieldNode 64 None]].

(** The maps of non-local bindings are the same. *)
Definition sameNameBindings (s s' : State) : Prop :=
  nameBindings (heap s') = nameBindings (heap s).

(** The name is declared [global] in the scope the binder is in. *)
Definition declaredGlobal (s : State) (name : string) : Prop :=
  default ∅ (nameBindings (heap s) !! _notLocalBindings (binder s)) !! name
  = Some NameBindingType.Global.

(** The state after [global x] in the body of the class. *)
Definition globalState : State :=
  match @visitGlobal (exampleCollaborators None) [nameNode 70 "x"] classBodyState with
  | Ok _ s => s
  | _ => classBodyState
  end.

(** The scopes of the heap are the same. *)
Definition sameScopes (s s' : State) : Prop := scopes (heap s') = scopes (heap s).

(** The state after binding [x] in the body of the class. *)
Definition classBoundState : State :=
  match @_bindNameToScope (exampleCollaborators None) 4 "x" None classBodyState with
  | Ok _ s => s
  | _ => classBodyState
  end.


(** The loader action recorded for the submodule of a name. *)
Definition loaderActionFor (name : string) (loaderActions : ModuleLoaderActions)
    : option ModuleLoaderActions :=
  loaderImplicitImports loaderActions ≫= assocGet name.

(** The last of the implicit imports with a name. *)
Definition lastImplicitImport (name : string) (implicitImports : list ImplicitImport.t)
    : option ImplicitImport.t :=
  last (filter (fun implicitImport => ImplicitImport.name implicitImport = name)
          implicitImports).

(** The names every module has, in the order [bindModule] binds them. *)
Definition implicitModuleNames : list string :=
  ["__doc__"; "__name__"; "__loader__"; "__package__"; "__spec__"; "__path__";
   "__file__"; "__cached__"; "__dict__"].

(** The scope is of the kind, under the parent, and binds the names. *)
Definition scopeBinds (s : State) (scope : nat) (type : ScopeType.t) (parent : option nat)
    (names : list string) : Prop :=
  exists sc,
    scopes (heap s) !! scope = Some sc
    /\ Scope.type sc = type
    /\ Scope.parent sc = parent
    /\ forall name, name ∈ names -> is_Some (Scope.symbolTable sc !! name).

(** Where the binder has a current flow node it keeps one, and the
    nodes that have a flow node attached keep one. *)
Definition flowNodesKept (s s' : State) : Prop :=
  is_Some (_currentFlowNode (binder s)) ->
  is_Some (_currentFlowNode (binder s'))
  /\ forall node,
       is_Some (flowNode (nodeInfo s) !! node) -> is_Some (flowNode (nodeInfo s') !! node).

(** The state after going through the statements [x = 1] and [y = x] in
    the module with the variable [x]. *)
Definition statementsState : State :=
  match
    _walkStatementsAndReportUnreachable (@walk (exampleCollaborators None) 20) []
      rebindStatements variableState
  with
  | Ok _ s => s
  | _ => variableState
  end.

(** The names an assignment target binds: the target itself when it is
    a name, and the names in the entries of a tuple or a list, under a
    star and under a type annotation. *)
Fixpoint targetNames (target : ParseNode) : list string :=
  match target with
  | Name n => [NameNode.value n]
  | TupleNode _ expressions => flat_map targetNames expressions
  | ListNode _ entries => flat_map targetNames entries
  | TypeAnnotationNode _ valueExpression _ => targetNames valueExpression
  | UnpackNode _ expression => targetNames expression
  | _ => []
  end.

(** The name has no [global] or [nonlocal] declaration in the scope the
    binder is in. *)
Definition localName (s : State) (name : string) : Prop :=
  default ∅ (nameBindings (heap s) !! _notLocalBindings (binder s)) !! name = None.

(** The scope binds the name. *)
Definition nameBound (s : State) (scope : nat) (name : string) : Prop :=
  exists sc, scopes (heap s) !! scope = Some sc /\ is_Some (Scope.symbolTable sc !! name).

(** The target [a, [b, *c]]. *)
Definition tupleTargetExample : ParseNode :=
  TupleNode 80
    [Name (nameNode 81 "a");
     ListNode 82 [Name (nameNode 83 "b"); UnpackNode 84 (Name (nameNode 85 "c"))]].

(** The state after binding the names of that target in the module with
    the variable [x]. *)
Definition tupleTargetState : State :=
  match
    @_bindPossibleTupleNamedTarget (exampleCollaborators None) tupleTargetExample None
      variableState
  with
  | Ok _ s => s
  | _ => variableState
  end.

(** The scope lies in a scope that is not the scope of a class. *)
Definition outsideClasses (s : State) (sc : Scope.t) : Prop :=
  exists parent psc,
    Scope.parent sc = Some parent
    /\ scopes (heap s) !! parent = Some psc
    /\ Scope.type psc <> ScopeType.Class.

(** No scope of a class lies in the scope of a class. *)
Definition classesOutside (s : State) : Prop :=
  forall scope sc,
    scopes (heap s) !! scope = Some sc ->
    Scope.type sc = ScopeType.Class ->
    outsideClasses s sc.

(** The bindings are kept, and the scopes of classes stay outside the
    scopes of classes. *)
Definition classesKept (s s' : State) : Prop :=
  bindingsKept s s'
  /\ (scopesAllocated s -> classesOutside s -> classesOutside s').

(** No scope is added. *)
Definition noNewScopes (s s' : State) : Prop :=
  forall scope, scopes (heap s) !! scope = None -> scopes (heap s') !! scope = None.

(** [class A:] with [class B: pass] in its body. *)
Definition nestedClassExample : ParseNode :=
  ModuleNode 0
    [ClassNode 1 [] (nameNode 2 "A") []
       (SuiteNode 3
          [ClassNode 4 [] (nameNode 5 "B") []
             (SuiteNode 6 [StatementListNode 7 [PassNode 8]])])].

(** The state after binding the nested classes. *)
Definition nestedClassState : State :=
  match bindExample None (fun _ => None) nestedClassExample with
  | Ok _ s => s
  | _ => newBinder (exampleFileInfo (fun _ => None))
  end.

End Vocabulary.

(* ================================================================== *)
(** * Properties *)
(* ================================================================== *)

(** ** Reasoning about the monad *)

Lemma bind_Ok {A B} (m : M A) (f : A -> M B) (s s' : State) (b : B) :
  bind m f s = Ok b s' <-> exists a s1, m s = Ok a s1 /\ f a s1 = Ok b s'.
Proof.
  unfold bind. split.
  - destruct (m s) as [a s1| |]; try discriminate. eauto.
  - intros (a & s1 & -> & Hf). exact Hf.
Qed.

Lemma bind_eq {A B} (m : M A) (f : A -> M B) (s s1 : State) (a : A) :
  m s = Ok a s1 -> bind m f s = f a s1.
Proof. unfold bind. intros ->. reflexivity. Qed.

(** Unfolding of the monad's operations and of the accessors built on
    them. *)
Ltac munfold :=
  cbv [bind ret gets modify throw getsBinder getsHeap getsNodeInfo
       modifyBinder modifyHeap modifyNodeInfo when whenSome unwrap assert] in *.

Lemma state_eta (s : State) :
  {| binder := binder s; heap := heap s; nodeInfo := nodeInfo s;
     diagnostics := diagnostics s |} = s.
Proof. destruct s; reflexivity. Qed.

Lemma heap_eta (h : Heap) :
  {| nextFlowNodeId := nextFlowNodeId h; antecedents := antecedents h;
     nextSymbolId := nextSymbolId h; symbols := symbols h; nextObjectId := nextObjectId h;
     scopes := scopes h; declarations := declarations h; nameBindings := nameBindings h;
     referenceMaps := referenceMaps h |} = h.
Proof. destruct h; reflexivity. Qed.

Lemma withAntecedents_same (s : State) : withAntecedents (antecedents (heap s)) s = s.
Proof.
  unfold withAntecedents, set_heap, set_antecedents. rewrite heap_eta. apply state_eta.
Qed.

Lemma addAntecedent_eq (label antecedent cur : FlowNode) (s : State) :
  _currentFlowNode (binder s) = Some cur ->
  _addAntecedent label antecedent s =
    Ok tt (if hasFlag (FlowNode.flags cur) FlowFlags.Unreachable then s
           else withAntecedents (addAntecedentTo label antecedent (antecedents (heap s))) s).
Proof.
  intros Hcur. unfold _addAntecedent, currentFlowNode. munfold. rewrite Hcur. cbn.
  destruct (hasFlag (FlowNode.flags cur) FlowFlags.Unreachable); cbn; [reflexivity|].
  unfold addAntecedentTo, antecedentsOf.
  destruct (existsb _ _); cbn; [|reflexivity].
  rewrite withAntecedents_same. reflexivity.
Qed.

Lemma forEach_nil {A} (f : A -> M unit) (s : State) : forEach [] f s = Ok tt s.
Proof. reflexivity. Qed.

Lemma forEach_cons {A} (x : A) (l : list A) (f : A -> M unit) (s : State) :
  forEach (x :: l) f s = bind (f x) (fun _ => forEach l f) s.
Proof. reflexivity. Qed.

Lemma forEach_addAntecedent (flowNode cur : FlowNode) (labels : list FlowNode) (s : State)
    (table : gmap nat (list FlowNode)) :
  _currentFlowNode (binder s) = Some cur ->
  hasFlag (FlowNode.flags cur) FlowFlags.Unreachable = false ->
  forEach labels (fun label => _addAntecedent label flowNode) (withAntecedents table s) =
    Ok tt (withAntecedents
             (foldl (fun table label => addAntecedentTo label flowNode table) table labels) s).
Proof.
  intros Hcur Hreach. revert table.
  induction labels as [|label labels IH]; intros table; [reflexivity|].
  rewrite forEach_cons.
  erewrite bind_eq by (apply addAntecedent_eq; exact Hcur).
  rewrite Hreach. apply IH.
Qed.

Lemma forEach_addAntecedent_unreachable (flowNode cur : FlowNode) (labels : list FlowNode)
    (s : State) :
  _currentFlowNode (binder s) = Some cur ->
  hasFlag (FlowNode.flags cur) FlowFlags.Unreachable = true ->
  forEach labels (fun label => _addAntecedent label flowNode) s = Ok tt s.
Proof.
  intros Hcur Hreach.
  induction labels as [|label labels IH]; [reflexivity|].
  rewrite forEach_cons.
  erewrite bind_eq by (apply addAntecedent_eq; exact Hcur).
  rewrite Hreach. apply IH.
Qed.

Lemma addExceptTargets_eq (flowNode cur : FlowNode) (s : State) :
  _currentFlowNode (binder s) = Some cur ->
  _addExceptTargets flowNode s =
    Ok tt (if hasFlag (FlowNode.flags cur) FlowFlags.Unreachable then s
           else withAntecedents
                  (foldl (fun table label => addAntecedentTo label flowNode table)
                     (antecedents (heap s))
                     (default [] (_currentExceptTargets (binder s)))) s).
Proof.
  intros Hcur. unfold _addExceptTargets, getsBinder, gets, bind.
  destruct (_currentExceptTargets (binder s)) as [labels|].
  2:{ cbn. rewrite withAntecedents_same. destruct (hasFlag _ _); reflexivity. }
  change (default [] (Some labels)) with labels.
  destruct (hasFlag (FlowNode.flags cur) FlowFlags.Unreachable) eqn:Hreach.
  - eapply forEach_addAntecedent_unreachable; eassumption.
  - rewrite <- (withAntecedents_same s) at 1.
    eapply forEach_addAntecedent; eassumption.
Qed.

Lemma referenceMapSet_eq (ref : nat) (key : string) (s : State) :
  _currentExecutionScopeReferenceMap (binder s) = Some ref ->
  referenceMapSet key key s = Ok tt (registerReference ref key s).
Proof. intros Href. unfold referenceMapSet. munfold. rewrite Href. reflexivity. Qed.

Lemma currentFlowNode_eq (cur : FlowNode) (s : State) :
  _currentFlowNode (binder s) = Some cur -> currentFlowNode s = Ok cur s.
Proof. intros Hcur. unfold currentFlowNode. munfold. rewrite Hcur. reflexivity. Qed.

Lemma isCodeUnreachable_eq (cur : FlowNode) (s : State) :
  _currentFlowNode (binder s) = Some cur ->
  _isCodeUnreachable s = Ok (hasFlag (FlowNode.flags cur) FlowFlags.Unreachable) s.
Proof.
  intros Hcur. unfold _isCodeUnreachable.
  erewrite bind_eq by (apply currentFlowNode_eq; exact Hcur). reflexivity.
Qed.

Lemma getUniqueFlowNodeId_eq (s : State) :
  getUniqueFlowNodeId s = Ok (nextFlowNodeId (heap s)) (bumpFlowNodeId s).
Proof. reflexivity. Qed.

Section ReferenceKeys.
Context `{Collaborators}.

Lemma forEach_referenceMapSet (ref : nat) (expressionList : list ParseNode) (s : State) :
  _currentExecutionScopeReferenceMap (binder s) = Some ref ->
  forEach expressionList (fun expr =>
    let referenceKey := createKeyForReference expr in
    referenceMapSet referenceKey referenceKey) s
  = Ok tt (registerReferences ref expressionList s).
Proof.
  revert s. induction expressionList as [|expr l IH]; intros s Href; [reflexivity|].
  rewrite forEach_cons. cbv zeta.
  erewrite bind_eq by (apply referenceMapSet_eq; exact Href).
  apply IH. exact Href.
Qed.

Lemma registerReferences_frame (ref : nat) (l : list ParseNode) (s : State) :
  binder (registerReferences ref l s) = binder s
  /\ nodeInfo (registerReferences ref l s) = nodeInfo s
  /\ diagnostics (registerReferences ref l s) = diagnostics s
  /\ antecedents (heap (registerReferences ref l s)) = antecedents (heap s)
  /\ nextFlowNodeId (heap (registerReferences ref l s)) = nextFlowNodeId (heap s).
Proof.
  revert s. induction l as [|expr l IH]; intros s; [auto|].
  change (registerReferences ref (expr :: l) s)
    with (registerReferences ref l (registerReference ref (createKeyForReference expr) s)).
  destruct (IH (registerReference ref (createKeyForReference expr) s))
    as (-> & -> & -> & -> & ->). auto.
Qed.

Lemma registerReference_lookup (ref : nat) (key key' : string) (s : State) :
  referenceMapOf (registerReference ref key s) ref !! key' =
    if decide (key = key') then Some key else referenceMapOf s ref !! key'.
Proof.
  unfold referenceMapOf, registerReference. cbn.
  rewrite lookup_insert_eq. cbn. rewrite lookup_insert. reflexivity.
Qed.

Lemma registerReferences_keeps (ref : nat) (l : list ParseNode) (s : State) (key : string) :
  referenceMapOf s ref !! key = Some key ->
  referenceMapOf (registerReferences ref l s) ref !! key = Some key.
Proof.
  revert s. induction l as [|expr l IH]; intros s Hkey; [exact Hkey|].
  change (registerReferences ref (expr :: l) s)
    with (registerReferences ref l (registerReference ref (createKeyForReference expr) s)).
  apply IH.
  rewrite registerReference_lookup. destruct (decide _) as [->|]; [reflexivity|exact Hkey].
Qed.

Lemma registerReferences_registers (ref : nat) (l : list ParseNode) (s : State)
    (expr : ParseNode) :
  expr ∈ l ->
  referenceMapOf (registerReferences ref l s) ref !! createKeyForReference expr
    = Some (createKeyForReference expr).
Proof.
  revert s. induction l as [|e l IH]; intros s Hin.
  - inversion Hin.
  - change (registerReferences ref (e :: l) s)
      with (registerReferences ref l (registerReference ref (createKeyForReference e) s)).
    apply elem_of_cons in Hin as [->|Hin].
    + apply registerReferences_keeps. rewrite registerReference_lookup.
      destruct (decide _); [reflexivity|congruence].
    + apply IH. exact Hin.
Qed.

Lemma createFlowConditional_static (branch : bool) (staticValue : option bool) :
  (bool_decide (staticValue = Some true) && hasFlag (conditionFlag branch) FlowFlags.FalseCondition
   || bool_decide (staticValue = Some false) && hasFlag (conditionFlag branch) FlowFlags.TrueCondition)
  = bool_decide (staticValue = Some (negb branch)).
Proof. destruct branch; cbn; destruct staticValue as [[|]|]; reflexivity. Qed.

Lemma createFlowConditional_new (branch : bool) (antecedent cur : FlowNode)
    (expression : ParseNode) (expressionList : list ParseNode) (ref : nat) (s : State) :
  hasFlag (FlowNode.flags antecedent) FlowFlags.Unreachable = false ->
  evaluateStaticBoolLikeExpression expression
    (AnalyzerFileInfo.executionEnvironment (_fileInfo (binder s))) <> Some (negb branch) ->
  _isNarrowingExpression expression [] = (true, expressionList) ->
  _currentExecutionScopeReferenceMap (binder s) = Some ref ->
  _currentFlowNode (binder s) = Some cur ->
  let flowNode :=
    FlowNode.Condition (conditionFlag branch) (nextFlowNodeId (heap s)) expression antecedent in
  _createFlowConditional (conditionFlag branch) antecedent expression s =
    Ok flowNode (conditionState ref flowNode cur expressionList s).
Proof.
  intros Hante Hstatic Hnarrow Href Hcur flowNode.
  unfold _createFlowConditional. rewrite Hante.
  erewrite (bind_eq (getsBinder _fileInfo)) by reflexivity.
  rewrite createFlowConditional_static, bool_decide_eq_false_2 by exact Hstatic.
  rewrite Hnarrow. cbn [negb].
  erewrite bind_eq by (apply forEach_referenceMapSet; exact Href).
  destruct (registerReferences_frame ref expressionList s) as (Hb & Hn & Hd & Ha & Hid).
  erewrite bind_eq by apply getUniqueFlowNodeId_eq.
  rewrite Hid. fold flowNode.
  erewrite bind_eq.
  2:{ apply (addExceptTargets_eq flowNode cur). cbn. rewrite Hb. exact Hcur. }
  reflexivity.
Qed.

(** C3: the rules of [_createFlowConditional], for the flag of either
    branch, every antecedent and every expression.  An unreachable
    antecedent is returned as it is; an expression whose static value is
    the opposite of the flag gives the unreachable node; an expression
    that is not a narrowing expression gives the antecedent; otherwise
    the result is a new condition node with that flag, expression and
    antecedent, and the key of every reference expression collected by
    [_isNarrowingExpression] is in the reference map of the current
    execution scope afterwards.  The first three leave the state as it
    was. *)
Theorem createFlowConditional_rules (branch : bool) (antecedent : FlowNode)
    (expression : ParseNode) (s : State) :
  let flags := conditionFlag branch in
  let staticValue :=
    evaluateStaticBoolLikeExpression expression
      (AnalyzerFileInfo.executionEnvironment (_fileInfo (binder s))) in
  let isNarrowing := fst (_isNarrowingExpression expression []) in
  let expressionList := snd (_isNarrowingExpression expression []) in
  (hasFlag (FlowNode.flags antecedent) FlowFlags.Unreachable = true ->
     _createFlowConditional flags antecedent expression s = Ok antecedent s)
  /\ (hasFlag (FlowNode.flags antecedent) FlowFlags.Unreachable = false ->
      staticValue = Some (negb branch) ->
      _createFlowConditional flags antecedent expression s = Ok _unreachableFlowNode s)
  /\ (hasFlag (FlowNode.flags antecedent) FlowFlags.Unreachable = false ->
      staticValue <> Some (negb branch) ->
      isNarrowing = false ->
      _createFlowConditional flags antecedent expression s = Ok antecedent s)
  /\ (hasFlag (FlowNode.flags antecedent) FlowFlags.Unreachable = false ->
      staticValue <> Some (negb branch) ->
      isNarrowing = true ->
      forall ref cur,
        _currentExecutionScopeReferenceMap (binder s) = Some ref ->
        _currentFlowNode (binder s) = Some cur ->
        exists s',
          _createFlowConditional flags antecedent expression s =
            Ok (FlowNode.Condition flags (nextFlowNodeId (heap s)) expression antecedent) s'
          /\ nextFlowNodeId (heap s') = S (nextFlowNodeId (heap s))
          /\ binder s' = binder s
          /\ forall expr, expr ∈ expressionList ->
               referenceMapOf s' ref !! createKeyForReference expr
                 = Some (createKeyForReference expr)).
Proof.
  cbv zeta.
  destruct (_isNarrowingExpression expression []) as [isNarrowing expressionList] eqn:Hnarrow.
  cbn [fst snd].
  split; [|split; [|split]].
  - intros Hante. unfold _createFlowConditional. rewrite Hante. reflexivity.
  - intros Hante Hstatic. unfold _createFlowConditional. rewrite Hante.
    erewrite (bind_eq (getsBinder _fileInfo)) by reflexivity.
    rewrite createFlowConditional_static, bool_decide_eq_true_2 by exact Hstatic.
    reflexivity.
  - intros Hante Hstatic ->. unfold _createFlowConditional. rewrite Hante.
    erewrite (bind_eq (getsBinder _fileInfo)) by reflexivity.
    rewrite createFlowConditional_static, bool_decide_eq_false_2 by exact Hstatic.
    rewrite Hnarrow. reflexivity.
  - intros Hante Hstatic -> ref cur Href Hcur.
    eexists. split.
    { apply (createFlowConditional_new branch antecedent cur expression expressionList ref s);
        assumption. }
    destruct (registerReferences_frame ref expressionList s) as (Hb & Hn & Hd & Ha & Hid).
    unfold conditionState.
    destruct (hasFlag (FlowNode.flags cur) FlowFlags.Unreachable); cbn.
    + rewrite Hid, Hb. split; [reflexivity|]. split; [reflexivity|].
      intros expr Hin. apply (registerReferences_registers ref expressionList s expr Hin).
    + rewrite Hid, Hb. split; [reflexivity|]. split; [reflexivity|].
      intros expr Hin. apply (registerReferences_registers ref expressionList s expr Hin).
Qed.

(** C6: [_finishFlowLabel] gives the unreachable node for a label
    without antecedents, the antecedent itself for a label with exactly
    one, and the label for a label with two or more; the state is left
    as it was. *)
Theorem finishFlowLabel_cases (label : FlowNode) (s : State) :
  (antecedentsOf (heap s) label = [] ->
     _finishFlowLabel label s = Ok _unreachableFlowNode s)
  /\ (forall antecedent, antecedentsOf (heap s) label = [antecedent] ->
        _finishFlowLabel label s = Ok antecedent s)
  /\ (2 <= length (antecedentsOf (heap s) label) ->
        _finishFlowLabel label s = Ok label s).
Proof.
  unfold _finishFlowLabel.
  erewrite bind_eq by reflexivity.
  destruct (antecedentsOf (heap s) label) as [|a [|b l]]; cbn [length].
  - split; [reflexivity|]. split; [discriminate|]. lia.
  - split; [discriminate|]. split; [|lia]. intros ? [= ->]. reflexivity.
  - split; [discriminate|]. split; [discriminate|]. reflexivity.
Qed.

End ReferenceKeys.

Lemma getScopeObject_eq (scope : nat) (sc : Scope.t) (s : State) :
  scopes (heap s) !! scope = Some sc -> getScopeObject scope s = Ok sc s.
Proof. intros Hsc. unfold getScopeObject. munfold. rewrite Hsc. reflexivity. Qed.

Lemma lookUpSymbol_eq (scope : nat) (name : string) (sc : Scope.t) (s : State) :
  scopes (heap s) !! scope = Some sc ->
  lookUpSymbol scope name s = Ok (Scope.symbolTable sc !! name) s.
Proof.
  intros Hsc. unfold lookUpSymbol. erewrite bind_eq by (apply getScopeObject_eq; exact Hsc).
  reflexivity.
Qed.

Lemma scopeType_eq (scope : nat) (sc : Scope.t) (s : State) :
  scopes (heap s) !! scope = Some sc -> scopeType scope s = Ok (Scope.type sc) s.
Proof.
  intros Hsc. unfold scopeType. erewrite bind_eq by (apply getScopeObject_eq; exact Hsc).
  reflexivity.
Qed.

Lemma scopeParent_eq (scope : nat) (sc : Scope.t) (s : State) :
  scopes (heap s) !! scope = Some sc -> scopeParent scope s = Ok (Scope.parent sc) s.
Proof.
  intros Hsc. unfold scopeParent. erewrite bind_eq by (apply getScopeObject_eq; exact Hsc).
  reflexivity.
Qed.

Lemma addSymbol_eq (scope : nat) (name : string) (flags : Z) (sc : Scope.t) (s : State) :
  scopes (heap s) !! scope = Some sc ->
  addSymbol scope name flags s = Ok (nextSymbolId (heap s)) (addSymbolTo scope name flags sc s).
Proof.
  intros Hsc. unfold addSymbol. erewrite bind_eq by (apply getScopeObject_eq; exact Hsc).
  reflexivity.
Qed.

Lemma createAssignmentAliasFlowNode_eq (targetSymbolId aliasSymbolId : nat) (cur : FlowNode)
    (s : State) :
  _currentFlowNode (binder s) = Some cur ->
  _createAssignmentAliasFlowNode targetSymbolId aliasSymbolId s =
    Ok tt (if hasFlag (FlowNode.flags cur) FlowFlags.Unreachable then s
           else set_binder
                  (set__currentFlowNode
                     (Some (FlowNode.AssignmentAlias FlowFlags.AssignmentAlias
                              (nextFlowNodeId (heap s)) cur targetSymbolId aliasSymbolId))
                     (binder s))
                  (bumpFlowNodeId s)).
Proof.
  intros Hcur. unfold _createAssignmentAliasFlowNode.
  erewrite bind_eq by (apply isCodeUnreachable_eq; exact Hcur).
  destruct (hasFlag (FlowNode.flags cur) FlowFlags.Unreachable); [reflexivity|].
  cbn [negb when].
  erewrite bind_eq by apply getUniqueFlowNodeId_eq.
  erewrite bind_eq by (apply currentFlowNode_eq; exact Hcur).
  reflexivity.
Qed.

Section Scopes.
Context `{Collaborators}.

(** C10: binding a name that is new to a class scope while the parent
    scope has a symbol of that name.  In reachable code
    [_bindNameToScope] returns the new symbol and leaves as current flow
    node an assignment-alias node, placed after the former current node,
    whose target is the id of the new symbol of the class scope and
    whose alias is the id of the symbol of the parent scope; in
    unreachable code the current flow node stays. *)
Theorem bindNameToScope_class_alias (scope parent aliasSymbol : nat) (name : string)
    (addedSymbols : option (list (string * nat))) (classScope parentScope : Scope.t)
    (cur : FlowNode) (s : State) :
  default ∅ (nameBindings (heap s) !! _notLocalBindings (binder s)) !! name = None ->
  scopes (heap s) !! scope = Some classScope ->
  Scope.type classScope = ScopeType.Class ->
  Scope.symbolTable classScope !! name = None ->
  Scope.parent classScope = Some parent ->
  scopes (heap s) !! parent = Some parentScope ->
  Scope.symbolTable parentScope !! name = Some aliasSymbol ->
  _currentFlowNode (binder s) = Some cur ->
  exists s',
    _bindNameToScope scope name addedSymbols s =
      Ok (Some (nextSymbolId (heap s)),
          assocSet name (nextSymbolId (heap s)) <$> addedSymbols) s'
    /\ lookUpSymbol scope name s' = Ok (Some (nextSymbolId (heap s))) s'
    /\ _currentFlowNode (binder s') =
         Some (if hasFlag (FlowNode.flags cur) FlowFlags.Unreachable then cur
               else FlowNode.AssignmentAlias FlowFlags.AssignmentAlias
                      (nextFlowNodeId (heap s)) cur (nextSymbolId (heap s)) aliasSymbol).
Proof.
  intros Hbinding Hscope Htype Hnew Hparent Hpscope Halias Hcur.
  assert (Hne : scope <> parent).
  { intros ->. rewrite Hscope in Hpscope. injection Hpscope as <-. congruence. }
  set (flags := Z.lor SymbolFlags.InitiallyUnbound SymbolFlags.ClassMember).
  set (s1 := addSymbolTo scope name flags classScope s).
  assert (Hscope1 : scopes (heap s1) !! scope
                    = Some (Scope.setSymbol name (nextSymbolId (heap s)) classScope)).
  { cbn. apply lookup_insert_eq. }
  assert (Hpscope1 : scopes (heap s1) !! parent = Some parentScope).
  { cbn. rewrite lookup_insert_ne by exact Hne. exact Hpscope. }
  unfold _bindNameToScope.
  erewrite bind_eq.
  2:{ unfold notLocalBindingsGet. munfold. rewrite Hbinding. reflexivity. }
  rewrite bool_decide_eq_true_2 by reflexivity.
  erewrite bind_eq by (apply lookUpSymbol_eq; exact Hscope).
  rewrite Hnew.
  erewrite bind_eq by (apply addSymbol_eq; exact Hscope).
  fold flags s1.
  erewrite bind_eq by (apply scopeType_eq; exact Hscope1).
  cbn [Scope.setSymbol Scope.type]. rewrite Htype.
  erewrite bind_eq.
  2:{ erewrite bind_eq by (apply scopeParent_eq; exact Hscope1).
      cbn [Scope.setSymbol Scope.parent]. rewrite Hparent.
      erewrite bind_eq by reflexivity.
      erewrite bind_eq by (apply lookUpSymbol_eq; exact Hpscope1).
      rewrite Halias. cbn [whenSome].
      apply createAssignmentAliasFlowNode_eq. exact Hcur. }
  erewrite bind_eq by reflexivity.
  destruct (hasFlag (FlowNode.flags cur) FlowFlags.Unreachable);
    destruct (AnalyzerFileInfo.isStubFile _ && isPrivateOrProtectedName name);
    cbn [when]; (eexists; split; [reflexivity|]);
    (split; [|cbn; rewrite ?Hcur; reflexivity]);
    (erewrite lookUpSymbol_eq by (cbn; apply lookup_insert_eq));
    cbn; rewrite lookup_insert_eq; reflexivity.
Qed.

End Scopes.

Lemma addExceptTargetsTo_frame (flowNode : FlowNode) (s : State) :
  binder (addExceptTargetsTo flowNode s) = binder s
  /\ nodeInfo (addExceptTargetsTo flowNode s) = nodeInfo s
  /\ diagnostics (addExceptTargetsTo flowNode s) = diagnostics s
  /\ nextFlowNodeId (heap (addExceptTargetsTo flowNode s)) = nextFlowNodeId (heap s)
  /\ referenceMaps (heap (addExceptTargetsTo flowNode s)) = referenceMaps (heap s).
Proof. repeat split. Qed.

Lemma addExceptTargets_reachable (flowNode cur : FlowNode) (s : State) :
  _currentFlowNode (binder s) = Some cur ->
  hasFlag (FlowNode.flags cur) FlowFlags.Unreachable = false ->
  _addExceptTargets flowNode s = Ok tt (addExceptTargetsTo flowNode s).
Proof.
  intros Hcur Hreach. rewrite (addExceptTargets_eq flowNode cur s Hcur), Hreach. reflexivity.
Qed.

Section FlowAssignment.
Context `{Collaborators}.

Lemma createFlowAssignment_eq (node : ParseNode) (unbound : bool) (target ref : nat)
    (cur : FlowNode) (s : State) :
  assignmentTarget node s = Some target ->
  _currentFlowNode (binder s) = Some cur ->
  _currentExecutionScopeReferenceMap (binder s) = Some ref ->
  let newNode := assignmentFlowNode node unbound cur target s in
  let s1 := if createsAssignment node cur then assignmentState ref node newNode s else s in
  _createFlowAssignment node unbound s =
    Ok tt
      (if negb unbound || bool_decide (flowNode (nodeInfo s) !! nodeId node = None)
       then set_nodeInfo
              (set_flowNode
                 (<[nodeId node :=
                      if unbound then cur
                      else if createsAssignment node cur then newNode else cur]>
                    (flowNode (nodeInfo s1))) (nodeInfo s1)) s1
       else s1).
Proof.
  intros Htarget Hcur Href newNode s1.
  unfold _createFlowAssignment.
  erewrite bind_eq with (a := target) (s1 := s).
  2:{ destruct node; try (cbn in Htarget; by simplify_eq).
      unfold assignmentTarget in Htarget.
      destruct (_currentScope (binder s)) as [scope|] eqn:Hscope;
        [|discriminate].
      erewrite bind_eq by reflexivity. rewrite Hscope.
      erewrite bind_eq by reflexivity.
      unfold lookUpSymbolRecursive. erewrite bind_eq by reflexivity.
      destruct (lookUpSymbolRecursiveFrom _ _ _ _) as [[symbol sc]|]; cbn in Htarget;
        [|discriminate].
      injection Htarget as <-. reflexivity. }
  erewrite bind_eq by reflexivity.
  erewrite bind_eq by (apply isCodeUnreachable_eq; exact Hcur).
  fold (createsAssignment node cur).
  assert (Hexisting : forall s0, nodeInfo s0 = nodeInfo s ->
            AnalyzerNodeInfo.getFlowNode (nodeId node) s0
            = Ok (flowNode (nodeInfo s) !! nodeId node) s0).
  { intros s0 Hs0. unfold AnalyzerNodeInfo.getFlowNode. munfold. rewrite Hs0. reflexivity. }
  subst s1. destruct (createsAssignment node cur) eqn:Hcreates; cbn [when].
  - apply andb_true_iff in Hcreates as [Hreach _]. apply negb_true_iff in Hreach.
    erewrite bind_eq.
    2:{ erewrite bind_eq by apply getUniqueFlowNodeId_eq.
        erewrite bind_eq by (apply currentFlowNode_eq; exact Hcur).
        cbv zeta.
        erewrite bind_eq by (apply referenceMapSet_eq; exact Href).
        erewrite bind_eq by (eapply addExceptTargets_reachable; [exact Hcur|exact Hreach]).
        reflexivity. }
    erewrite bind_eq by (apply Hexisting; reflexivity).
    destruct (negb unbound || bool_decide (flowNode (nodeInfo s) !! nodeId node = None));
      [|reflexivity].
    cbn [when]. erewrite bind_eq by reflexivity.
    destruct unbound; [rewrite Hcur|]; reflexivity.
  - erewrite bind_eq by reflexivity.
    erewrite bind_eq by (apply Hexisting; reflexivity).
    destruct (negb unbound || bool_decide (flowNode (nodeInfo s) !! nodeId node = None));
      [|reflexivity].
    cbn [when]. erewrite bind_eq by reflexivity. rewrite Hcur.
    destruct unbound; reflexivity.
Qed.

(** C8: [_createFlowAssignment] with the unbound flag, for a target
    that has a flow node in the side table already.  The side tables
    stay as they are, so the target keeps the flow node it had; the
    current flow node becomes the new assignment node, which carries the
    Unbind flag and follows the former current node, when the code is
    reachable and the target is a supported reference, and stays
    otherwise. *)
Theorem createFlowAssignment_unbound_retains (node : ParseNode) (target ref : nat)
    (cur attached : FlowNode) (s : State) :
  assignmentTarget node s = Some target ->
  _currentFlowNode (binder s) = Some cur ->
  _currentExecutionScopeReferenceMap (binder s) = Some ref ->
  flowNode (nodeInfo s) !! nodeId node = Some attached ->
  exists s',
    _createFlowAssignment node true s = Ok tt s'
    /\ nodeInfo s' = nodeInfo s
    /\ flowNode (nodeInfo s') !! nodeId node = Some attached
    /\ _currentFlowNode (binder s') =
         Some (if createsAssignment node cur
               then FlowNode.Assignment (Z.lor FlowFlags.Assignment FlowFlags.Unbind)
                      (nextFlowNodeId (heap s)) node cur target
               else cur).
Proof.
  intros Htarget Hcur Href Hattached.
  eexists. split.
  { apply (createFlowAssignment_eq node true target ref cur s Htarget Hcur Href). }
  rewrite Hattached. rewrite bool_decide_eq_false_2 by discriminate. cbn [negb orb].
  destruct (createsAssignment node cur); cbn.
  - rewrite Hattached. auto.
  - rewrite Hattached, Hcur. auto.
Qed.

End FlowAssignment.

(** ** Except targets *)










Section ExceptTargetFanIn.
Context `{Collaborators}.

Lemma registerReferences_antecedents (ref : nat) (l : list ParseNode) (s : State)
    (label : FlowNode) :
  antecedentsOf (heap (registerReferences ref l s)) label = antecedentsOf (heap s) label.
Proof.
  unfold antecedentsOf.
  destruct (registerReferences_frame ref l s) as (_ & _ & _ & -> & _). reflexivity.
Qed.


End ExceptTargetFanIn.





(** C2, a counterexample to the claim as it is worded: binding
    [if True: pass] leaves the label of the else branch (flow node 4)
    with the unreachable node as its one antecedent. *)
Lemma unreachable_stored_as_antecedent :
  match bindExample None (fun _ => None) ifTrueExample with
  | Ok _ s =>
      antecedentsOf (heap s) (FlowNode.Label FlowFlags.BranchLabel 4) = [_unreachableFlowNode]
      /\ hasFlag (FlowNode.flags _unreachableFlowNode) FlowFlags.Unreachable = true
  | _ => False
  end.
Proof. vm_compute. split; reflexivity. Qed.

(** C4: binding [def f(): pass] followed by [g = lambda: (yield)].
    The body of [f] (node 3) contains no yield, and the declaration of
    [f] (node 1) is marked as a generator: the body of the lambda is
    bound after the body of [f], while [_targetFunctionDeclaration]
    still is the declaration of [f]. *)
Lemma lambda_yield_marks_earlier_function :
  match bindExample None (fun _ => None) lambdaYieldExample with
  | Ok _ s =>
      generatorFunctions s = [1%nat]
      /\ YieldFinder.checkContainsYield
           (SuiteNode 3 [StatementListNode 4 [PassNode 5]]) = false
  | _ => False
  end.
Proof. vm_compute. split; reflexivity. Qed.

(** ** What the walker does to the labels and to the queue of deferred tasks *)

Lemma walkerStep_refl (s : State) : walkerStep s s.
Proof. split; [auto|]. exists []. rewrite app_nil_r. reflexivity. Qed.

Lemma walkerStep_trans (s1 s2 s3 : State) :
  walkerStep s1 s2 -> walkerStep s2 s3 -> walkerStep s1 s3.
Proof.
  intros [Hd1 [added1 Hq1]] [Hd2 [added2 Hq2]]. split; [auto|].
  exists (added1 ++ added2). rewrite Hq2, Hq1, app_assoc. reflexivity.
Qed.

Lemma walkerStep_frame (s s' : State) :
  antecedents (heap s') = antecedents (heap s) ->
  _deferredBindingTasks (binder s') = _deferredBindingTasks (binder s) ->
  walkerStep s s'.
Proof.
  intros Ha Hq. split.
  - unfold antecedentsDistinct. rewrite Ha. auto.
  - exists []. rewrite app_nil_r. exact Hq.
Qed.

Lemma follows_ret {A} (a : A) : follows (ret a).
Proof. intros s a' s' [= _ <-]. apply walkerStep_refl. Qed.

Lemma follows_throw {A} (e : string) : follows (@throw A e).
Proof. intros s a s' [=]. Qed.

Lemma follows_outOfFuel {A} : follows (@outOfFuel A).
Proof. intros s a s' [=]. Qed.

Lemma follows_gets {A} (f : State -> A) : follows (gets f).
Proof. intros s a s' [= _ <-]. apply walkerStep_refl. Qed.

Lemma follows_getsBinder {A} (f : Binder -> A) : follows (getsBinder f).
Proof. apply follows_gets. Qed.

Lemma follows_getsHeap {A} (f : Heap -> A) : follows (getsHeap f).
Proof. apply follows_gets. Qed.

Lemma follows_getsNodeInfo {A} (f : NodeInfo -> A) : follows (getsNodeInfo f).
Proof. apply follows_gets. Qed.

Lemma follows_bind {A B} (m : M A) (k : A -> M B) :
  follows m -> (forall a, follows (k a)) -> follows (bind m k).
Proof.
  intros Hm Hk s b s' Hrun. apply bind_Ok in Hrun as (a & s1 & Hm1 & Hk1).
  eapply walkerStep_trans; [eapply Hm|eapply Hk]; eassumption.
Qed.

Lemma follows_modify (f : State -> State) :
  (forall s, walkerStep s (f s)) -> follows (modify f).
Proof. intros Hf s a s' [= _ <-]. apply Hf. Qed.

Lemma follows_modifyBinder (f : Binder -> Binder) :
  (forall b, _deferredBindingTasks (f b) = _deferredBindingTasks b) ->
  follows (modifyBinder f).
Proof.
  intros Hf. apply follows_modify. intros s. apply walkerStep_frame; [reflexivity|].
  apply Hf.
Qed.

Lemma follows_modifyHeap (f : Heap -> Heap) :
  (forall h, antecedents (f h) = antecedents h) -> follows (modifyHeap f).
Proof.
  intros Hf. apply follows_modify. intros s. apply walkerStep_frame; [|reflexivity].
  apply Hf.
Qed.

Lemma follows_modifyNodeInfo (f : NodeInfo -> NodeInfo) : follows (modifyNodeInfo f).
Proof. apply follows_modify. intros s. apply walkerStep_frame; reflexivity. Qed.

Lemma follows_unwrap {A} (o : option A) (what : string) : follows (unwrap o what).
Proof. destruct o; [apply follows_ret|apply follows_throw]. Qed.

Lemma follows_assert (b : bool) (what : string) : follows (assert b what).
Proof. destruct b; [apply follows_ret|apply follows_throw]. Qed.

Lemma follows_when (b : bool) (m : M unit) : follows m -> follows (when b m).
Proof. intros Hm. destruct b; [exact Hm|apply follows_ret]. Qed.

Lemma follows_whenSome {A} (o : option A) (f : A -> M unit) :
  (forall a, follows (f a)) -> follows (whenSome o f).
Proof. intros Hf. destruct o; [apply Hf|apply follows_ret]. Qed.

Lemma follows_forEach {A} (l : list A) (f : A -> M unit) :
  (forall x, x ∈ l -> follows (f x)) -> follows (forEach l f).
Proof.
  induction l as [|x l IH]; intros Hf; [apply follows_ret|].
  change (forEach (x :: l) f) with (bind (f x) (fun _ => forEach l f)).
  apply follows_bind; [apply Hf; left|intros _].
  apply IH. intros y Hy. apply Hf. right. exact Hy.
Qed.

Lemma follows_foldM {A B} (f : B -> A -> M B) (l : list A) (init : B) :
  (forall acc x, x ∈ l -> follows (f acc x)) -> follows (foldM f l init).
Proof.
  revert init. induction l as [|x l IH]; intros init Hf; [apply follows_ret|].
  change (foldM f (x :: l) init) with (bind (f init x) (fun acc => foldM f l acc)).
  apply follows_bind; [apply Hf; left|intros acc].
  apply IH. intros acc' y Hy. apply Hf. right. exact Hy.
Qed.

Create HintDb follows.

(** The head constant of a term. *)
Ltac head_of t :=
  lazymatch t with
  | ?f _ => head_of f
  | _ => t
  end.

(** One step in the proof that a computation follows the walker's steps:
    by the shape of the computation, by a lemma of the database, or by
    unfolding the method at its head. *)
Ltac follows_step :=
  lazymatch goal with
  | |- follows (ret _) => apply follows_ret
  | |- follows (bind _ _) => apply follows_bind; [|intros ?]
  | |- follows (throw _) => apply follows_throw
  | |- follows outOfFuel => apply follows_outOfFuel
  | |- follows (gets _) => apply follows_gets
  | |- follows (getsBinder _) => apply follows_getsBinder
  | |- follows (getsHeap _) => apply follows_getsHeap
  | |- follows (getsNodeInfo _) => apply follows_getsNodeInfo
  | |- follows (modifyBinder _) => apply follows_modifyBinder; intros ?; reflexivity
  | |- follows (modifyHeap _) => apply follows_modifyHeap; intros ?; reflexivity
  | |- follows (modifyNodeInfo _) => apply follows_modifyNodeInfo
  | |- follows (modify _) =>
      apply follows_modify; intros ?; apply walkerStep_frame; reflexivity
  | |- follows (when _ _) => apply follows_when
  | |- follows (whenSome _ _) => apply follows_whenSome; intros ?
  | |- follows (unwrap _ _) => apply follows_unwrap
  | |- follows (assert _ _) => apply follows_assert
  | |- follows (forEach _ _) => apply follows_forEach; intros ? ?
  | |- follows (foldM _ _ _) => apply follows_foldM; intros ? ? ?
  | |- follows (match ?x with _ => _ end) => destruct x
  | |- follows (let _ := _ in _) => cbv zeta
  | |- follows ((fun _ => _) _) => cbv beta
  | |- follows ?m =>
      first
        [ solve [eauto 2 with follows]
        | let h := head_of m in unfold h ]
  end.

Ltac follows_auto := repeat follows_step.

Section WalkerSteps.
Context `{Collaborators}.

Lemma follows_addAntecedent (label antecedent : FlowNode) :
  follows (_addAntecedent label antecedent).
Proof.
  intros s a s' Hrun.
  destruct (_currentFlowNode (binder s)) as [cur|] eqn:Hcur.
  2:{ unfold _addAntecedent, currentFlowNode in Hrun. munfold. rewrite Hcur in Hrun.
      discriminate. }
  rewrite (addAntecedent_eq label antecedent cur s Hcur) in Hrun.
  injection Hrun as _ <-.
  destruct (hasFlag _ _); [apply walkerStep_refl|].
  split; [|exists []; rewrite app_nil_r; reflexivity].
  intros Hdistinct id l. cbn. unfold addAntecedentTo. cbv zeta.
  destruct (existsb _ _) eqn:Hexists; [apply Hdistinct|].
  destruct (decide (FlowNode.id label = id)) as [<-|Hne].
  - rewrite lookup_insert_eq. intros [= <-].
    rewrite fmap_app. apply NoDup_app. split; [|split].
    + destruct (antecedents (heap s) !! FlowNode.id label) as [l0|] eqn:Hl0; cbn.
      * apply (Hdistinct _ _ Hl0).
      * constructor.
    + intros id' Hin Hin'. apply list_elem_of_singleton in Hin'. subst id'.
      apply list_elem_of_fmap in Hin as (existing & Hid & Hin).
      assert (existsb (fun existing => FlowNode.id existing =? FlowNode.id antecedent)%nat
                (default [] (antecedents (heap s) !! FlowNode.id label)) = true) as Hex.
      { apply existsb_exists. exists existing. split; [apply list_elem_of_In; exact Hin|].
        apply Nat.eqb_eq. symmetry. exact Hid. }
      congruence.
    + cbn. apply NoDup_singleton.
  - rewrite lookup_insert_ne by exact Hne. apply Hdistinct.
Qed.

Lemma follows_createBranchLabel : follows _createBranchLabel.
Proof.
  intros s a s' [= _ <-]. split; [|exists []; rewrite app_nil_r; reflexivity].
  intros Hdistinct id l. cbn.
  destruct (decide (nextFlowNodeId (heap s) = id)) as [<-|Hne].
  - rewrite lookup_insert_eq. intros [= <-]. constructor.
  - rewrite lookup_insert_ne by exact Hne. apply Hdistinct.
Qed.

Lemma follows_createLoopLabel : follows _createLoopLabel.
Proof.
  intros s a s' [= _ <-]. split; [|exists []; rewrite app_nil_r; reflexivity].
  intros Hdistinct id l. cbn.
  destruct (decide (nextFlowNodeId (heap s) = id)) as [<-|Hne].
  - rewrite lookup_insert_eq. intros [= <-]. constructor.
  - rewrite lookup_insert_ne by exact Hne. apply Hdistinct.
Qed.

Lemma follows_deferBinding (callback : DeferredCallback) : follows (_deferBinding callback).
Proof.
  intros s a s' [= _ <-]. split; [auto|]. eexists. cbn. reflexivity.
Qed.

Hint Resolve follows_addAntecedent follows_createBranchLabel follows_createLoopLabel
  follows_deferBinding : follows.

Lemma follows_bindNameToScope scope name addedSymbols :
  follows (_bindNameToScope scope name addedSymbols).
Proof. follows_auto. Qed.

Lemma list_all_elem_of (P : ParseNode -> Prop) (l : list ParseNode) :
  list_all ParseNode P l -> forall x, x ∈ l -> P x.
Proof.
  intros Hall. induction Hall as [|a Ha l Hall IH]; intros x Hin.
  - inversion Hin.
  - apply elem_of_cons in Hin as [->|Hin]; [exact Ha|apply IH; exact Hin].
Qed.

Lemma follows_isAnnotationFinal typeAnnotation : follows (_isAnnotationFinal typeAnnotation).
Proof.
  induction typeAnnotation using ParseNode_ind; cbn [_isAnnotationFinal]; follows_auto.
Qed.

Hint Resolve follows_isAnnotationFinal : follows.

Lemma follows_addInferredTypeAssignmentForVariable ancestors target source isPossibleTypeAlias :
  follows (_addInferredTypeAssignmentForVariable ancestors target source isPossibleTypeAlias).
Proof.
  revert isPossibleTypeAlias.
  induction target using ParseNode_ind; intros isPossibleTypeAlias;
    cbn [_addInferredTypeAssignmentForVariable]; follows_auto.
  all: match goal with
       | Hall : list_all _ _ ?l, Hin : _ ∈ ?l |- _ =>
           apply (list_all_elem_of _ _ Hall _ Hin)
       end.
Qed.

Hint Resolve follows_addInferredTypeAssignmentForVariable : follows.

Lemma follows_bindPossibleTupleNamedTarget target addedSymbols :
  follows (_bindPossibleTupleNamedTarget target addedSymbols).
Proof.
  revert addedSymbols.
  induction target using ParseNode_ind; intros addedSymbols;
    cbn [_bindPossibleTupleNamedTarget]; follows_auto.
  all: match goal with
       | Hall : list_all _ _ ?l |- _ =>
           revert addedSymbols; induction Hall; intros addedSymbols; follows_auto
       end.
Qed.

Hint Resolve follows_bindPossibleTupleNamedTarget : follows.

Section VisitorSteps.
Variable walk : list (ParseNode * bool) -> ParseNode -> M unit.
Hypothesis Hwalk : forall ancestors node, follows (walk ancestors node).

Lemma follows_createAssignmentTargetFlowNodes ancestors target walkTargets unbound :
  follows (_createAssignmentTargetFlowNodes walk ancestors target walkTargets unbound).
Proof.
  revert walkTargets.
  induction target using ParseNode_ind; intros walkTargets;
    cbn [_createAssignmentTargetFlowNodes]; follows_auto.
  all: match goal with
       | Hall : list_all _ _ ?l, Hin : _ ∈ ?l |- _ =>
           apply (list_all_elem_of _ _ Hall _ Hin)
       end.
Qed.

Hint Resolve follows_createAssignmentTargetFlowNodes : follows.

Lemma follows_visitNode ancestors node : follows (visitNode walk ancestors node).
Proof. follows_auto. Qed.

Lemma follows_bindFunctionBody ancestors node functionDeclaration :
  follows (bindFunctionBody walk ancestors node functionDeclaration).
Proof. follows_auto. Qed.

Lemma follows_bindLambdaBody ancestors node : follows (bindLambdaBody walk ancestors node).
Proof. follows_auto. Qed.

Lemma follows_walkStatementsAndReportUnreachable ancestors statements :
  follows (_walkStatementsAndReportUnreachable walk ancestors statements).
Proof. follows_auto. Qed.

End VisitorSteps.

Lemma follows_walk fuel ancestors node : follows (walk fuel ancestors node).
Proof.
  revert ancestors node. induction fuel as [|fuel IH]; intros ancestors node; cbn [walk].
  - apply follows_outOfFuel.
  - apply follows_bind; [apply follows_visitNode; exact IH|intros descend].
    destruct descend; [|apply follows_ret].
    apply follows_forEach. intros child _. apply IH.
Qed.

Lemma follows_runCallback fuel callback : follows (runCallback fuel callback).
Proof.
  destruct callback; cbn [runCallback].
  - apply follows_bindFunctionBody. apply follows_walk.
  - apply follows_bindLambdaBody. apply follows_walk.
Qed.

Lemma bindDeferred_distinct fuel iterations (s s' : State) (a : unit) :
  _bindDeferred fuel iterations s = Ok a s' ->
  antecedentsDistinct s -> antecedentsDistinct s'.
Proof.
  revert s. induction iterations as [|iterations IH]; intros s Hrun Hdistinct.
  - cbn [_bindDeferred] in Hrun. apply bind_Ok in Hrun as (tasks & s1 & [= <- <-] & Hrun).
    destruct (_deferredBindingTasks (binder s)); [|discriminate].
    injection Hrun as _ <-. exact Hdistinct.
  - cbn [_bindDeferred] in Hrun. apply bind_Ok in Hrun as (tasks & s1 & [= <- <-] & Hrun).
    destruct (_deferredBindingTasks (binder s)) as [|nextItem rest].
    { injection Hrun as _ <-. exact Hdistinct. }
    repeat (apply bind_Ok in Hrun as (? & ? & [= _ <-] & Hrun)).
    apply bind_Ok in Hrun as ([] & s2 & Hcallback & Hrun).
    apply (IH s2 Hrun).
    apply (follows_runCallback _ _ _ _ _ Hcallback). exact Hdistinct.
Qed.

Lemma bindModule_distinct fuel node (s s' : State) (results : BinderResults) :
  bindModule fuel node s = Ok results s' ->
  antecedentsDistinct s -> antecedentsDistinct s'.
Proof.
  intros Hrun Hdistinct. destruct node; try discriminate.
  cbn [bindModule] in Hrun.
  apply bind_Ok in Hrun as (fileInfo & s1 & [= _ <-] & Hrun).
  apply bind_Ok in Hrun as ([] & s2 & Hwalk & Hrun).
  apply bind_Ok in Hrun as ([] & s3 & Hdeferred & [= _ <-]).
  apply (bindDeferred_distinct _ _ _ _ _ Hdeferred).
  revert Hdistinct.
  match type of Hwalk with
  | ?m _ = _ =>
      assert (Hfollows : follows m)
        by (pose proof (follows_walk fuel) as Hwalk'; follows_auto)
  end.
  apply (Hfollows _ _ _ Hwalk).
Qed.

(** C2: the ids of the antecedents of a label.  After binding a
    module with a new binder, the antecedents of every flow label have
    pairwise distinct ids. *)
Theorem label_antecedent_ids_distinct (fuel : nat) (node : ParseNode)
    (fileInfo : AnalyzerFileInfo.t) (results : BinderResults) (s : State) :
  bindModule fuel node (newBinder fileInfo) = Ok results s ->
  forall label, NoDup (FlowNode.id <$> antecedentsOf (heap s) label).
Proof.
  intros Hrun label.
  assert (Hdistinct : antecedentsDistinct s).
  { apply (bindModule_distinct _ _ _ _ _ Hrun). intros id l Hl.
    cbn in Hl. rewrite lookup_empty in Hl. discriminate. }
  unfold antecedentsOf.
  destruct (antecedents (heap s) !! FlowNode.id label) as [l|] eqn:Hl; cbn.
  - apply (Hdistinct _ _ Hl).
  - constructor.
Qed.

Lemma bindDeferred_empties fuel iterations (s s' : State) (a : unit) :
  _bindDeferred fuel iterations s = Ok a s' -> _deferredBindingTasks (binder s') = [].
Proof.
  revert s. induction iterations as [|iterations IH]; intros s Hrun.
  - cbn [_bindDeferred] in Hrun. apply bind_Ok in Hrun as (tasks & s1 & [= <- <-] & Hrun).
    destruct (_deferredBindingTasks (binder s)) eqn:Hq; [|discriminate].
    injection Hrun as _ <-. exact Hq.
  - cbn [_bindDeferred] in Hrun. apply bind_Ok in Hrun as (tasks & s1 & [= <- <-] & Hrun).
    destruct (_deferredBindingTasks (binder s)) as [|nextItem rest] eqn:Hq.
    { injection Hrun as _ <-. exact Hq. }
    repeat (apply bind_Ok in Hrun as (? & ? & [= _ <-] & Hrun)).
    apply bind_Ok in Hrun as ([] & s2 & Hcallback & Hrun).
    apply (IH s2 Hrun).
Qed.

(** C5: the queue of deferred tasks.  [_deferBinding] puts a task that
    captures the current scope, non-local bindings and reference map at
    the end of the queue.  [_bindDeferred] returns at once on an empty
    queue; otherwise it takes the first task off the queue, sets the
    scope, the non-local bindings and the reference map to those the
    task captured and the nested-except depth to zero, runs the task's
    callback in that state and goes on with the queue the callback
    leaves.  A callback, like any walk, leaves the queue it found with
    tasks added at its end: what a body enqueues waits behind every
    task that was pending and runs after the body has returned.
    [bindModule] walks the module, which only adds to the queue, and
    then drains the queue with [_bindDeferred], which leaves it
    empty. *)
Theorem deferred_tasks_fifo :
  (forall callback s,
     _deferBinding callback s =
       Ok tt (withQueue (_deferredBindingTasks (binder s) ++ [capturedTask callback s]) s))
  /\ (forall fuel iterations s,
        _deferredBindingTasks (binder s) = [] ->
        _bindDeferred fuel iterations s = Ok tt s)
  /\ (forall fuel iterations task rest s,
        _deferredBindingTasks (binder s) = task :: rest ->
        let s1 := restoredFor task rest s in
        _bindDeferred fuel (S iterations) s =
          bind (runCallback fuel (DeferredBindingTask.callback task))
            (fun _ => _bindDeferred fuel iterations) s1
        /\ _deferredBindingTasks (binder s1) = rest
        /\ _currentScope (binder s1) = DeferredBindingTask.scope task
        /\ _notLocalBindings (binder s1) = DeferredBindingTask.nonLocalBindingsMap task
        /\ _currentExecutionScopeReferenceMap (binder s1)
           = DeferredBindingTask.codeFlowExpressionMap task
        /\ _nestedExceptDepth (binder s1) = 0%Z)
  /\ (forall fuel callback s s',
        runCallback fuel callback s = Ok tt s' -> queueExtended s s')
  /\ (forall fuel ancestors node s s',
        walk fuel ancestors node s = Ok tt s' -> queueExtended s s')
  /\ (forall fuel node s results s',
        bindModule fuel node s = Ok results s' ->
        exists s1,
          queueExtended s s1
          /\ _bindDeferred fuel fuel s1 = Ok tt s'
          /\ _deferredBindingTasks (binder s') = []).
Proof.
  split; [|split; [|split; [|split; [|split]]]].
  - reflexivity.
  - intros fuel iterations s Hq. destruct iterations; cbn [_bindDeferred];
      (erewrite bind_eq by reflexivity); rewrite Hq; reflexivity.
  - intros fuel iterations task rest s Hq s1.
    split; [|repeat split].
    cbn [_bindDeferred]. erewrite bind_eq by reflexivity. rewrite Hq. reflexivity.
  - intros fuel callback s s' Hrun. apply (follows_runCallback _ _ _ _ _ Hrun).
  - intros fuel ancestors node s s' Hrun. apply (follows_walk _ _ _ _ _ _ Hrun).
  - intros fuel node s results s' Hrun. destruct node; try discriminate.
    cbn [bindModule] in Hrun.
    apply bind_Ok in Hrun as (fileInfo & s1 & [= _ <-] & Hrun).
    apply bind_Ok in Hrun as ([] & s2 & Hwalk & Hrun).
    apply bind_Ok in Hrun as ([] & s3 & Hdeferred & [= _ <-]).
    exists s2. split; [|split].
    + match type of Hwalk with
      | ?m _ = _ =>
          assert (Hfollows : follows m)
            by (pose proof (follows_walk fuel) as Hwalk'; follows_auto)
      end.
      apply (Hfollows _ _ _ Hwalk).
    + exact Hdeferred.
    + apply (bindDeferred_empties _ _ _ _ _ Hdeferred).
Qed.

End WalkerSteps.

(** ** Wildcard imports *)

Section WildcardImports.
Context `{Collaborators}.














End WildcardImports.


(** ** The theorems at work *)


(** C2 at work: after binding [if True: pass] the ids of the
    antecedents of the label of the else branch are distinct. *)
Lemma label_antecedent_ids_distinct_witness :
  NoDup (FlowNode.id <$> antecedentsOf (heap ifTrueState)
                           (FlowNode.Label FlowFlags.BranchLabel 4)).
Proof.
  apply (@label_antecedent_ids_distinct (exampleCollaborators None) 20 ifTrueExample
           (exampleFileInfo (fun _ => None)) {| moduleDocString := None |} ifTrueState).
  vm_compute. reflexivity.
Defined.


(** C8 at work: marking [x] as unbound leaves the flow node of its name
    node as it was and moves on to an assignment node with the Unbind
    flag. *)
Lemma createFlowAssignment_unbound_retains_witness :
  exists s',
    @_createFlowAssignment (exampleCollaborators None) (Name (nameNode 10 "x")) true
      variableState = Ok tt s'
    /\ flowNode (nodeInfo s') !! 10%nat = Some (FlowNode.Base FlowFlags.Start 2)
    /\ _currentFlowNode (binder s')
       = Some (FlowNode.Assignment (Z.lor FlowFlags.Assignment FlowFlags.Unbind) 3
                 (Name (nameNode 10 "x")) (FlowNode.Base FlowFlags.Start 2) 1).
Proof.
  destruct (@createFlowAssignment_unbound_retains (exampleCollaborators None)
              (Name (nameNode 10 "x")) 1%nat 3%nat (FlowNode.Base FlowFlags.Start 2)
              (FlowNode.Base FlowFlags.Start 2) variableState)
    as (s' & Hrun & _ & Hattached & Hcur).
  - reflexivity.
  - reflexivity.
  - reflexivity.
  - reflexivity.
  - exists s'. split; [exact Hrun|]. split; [exact Hattached|exact Hcur].
Defined.


(** C10 at work: binding [x] in the body of the class, while the
    module has a variable [x] (symbol 1), makes symbol 2 and an
    assignment-alias node from symbol 2 to symbol 1. *)
Lemma bindNameToScope_class_alias_witness :
  exists s',
    @_bindNameToScope (exampleCollaborators None) 4 "x" None classBodyState
      = Ok (Some 2%nat, None) s'
    /\ _currentFlowNode (binder s')
       = Some (FlowNode.AssignmentAlias FlowFlags.AssignmentAlias 3
                 (FlowNode.Base FlowFlags.Start 2) 2 1).
Proof.
  destruct (@bindNameToScope_class_alias (exampleCollaborators None) 4 2 1 "x" None
              {| Scope.type := ScopeType.Class; Scope.parent := Some 2%nat;
                 Scope.symbolTable := ∅ |}
              {| Scope.type := ScopeType.Module; Scope.parent := Some 0%nat;
                 Scope.symbolTable := {[ "x" := 1%nat ]} |}
              (FlowNode.Base FlowFlags.Start 2) classBodyState)
    as (s' & Hrun & _ & Hcur).
  - reflexivity.
  - reflexivity.
  - reflexivity.
  - reflexivity.
  - reflexivity.
  - reflexivity.
  - reflexivity.
  - reflexivity.
  - exists s'. split; [exact Hrun|exact Hcur].
Defined.

(* ================================================================== *)
(** * Further properties of the binder *)
(* ================================================================== *)

(** ** The yield finder *)

Lemma some_contains_yield (nodes : list ParseNode) :
  (fix some (nodes : list ParseNode) : bool :=
     match nodes with
     | [] => false
     | child :: rest => YieldFinder.checkContainsYield child || some rest
     end) nodes
  = existsb YieldFinder.checkContainsYield nodes.
Proof. induction nodes as [|child rest IH]; [reflexivity|]. cbn. rewrite IH. reflexivity. Qed.

Lemma existsb_names (names : list NameNode) :
  existsb YieldFinder.checkContainsYield (Name <$> names) = false.
Proof. induction names as [|n names IH]; [reflexivity|]. exact IH. Qed.

Lemma existsb_mapped {A} (f : A -> ParseNode) (l : list A) :
  (forall a, YieldFinder.checkContainsYield (f a) = false) ->
  existsb YieldFinder.checkContainsYield (f <$> l) = false.
Proof.
  intros Hf. induction l as [|a l IH]; [reflexivity|].
  cbn [fmap list_fmap existsb]. rewrite Hf. exact IH.
Qed.

Lemma checkContainsYield_children (node : ParseNode) :
  YieldFinder.checkContainsYield node
  = isYieldNode node || existsb YieldFinder.checkContainsYield (getChildNodes node).
Proof.
  destruct node; cbn [YieldFinder.checkContainsYield isYieldNode getChildNodes orb];
    repeat match goal with
      | l : list ParseNode |- _ => rewrite (some_contains_yield l)
      end;
    repeat match goal with
      | o : option ParseNode |- _ => destruct o
      | o : option NameNode |- _ => destruct o
      end;
    cbn [optionToList fmap list_fmap app existsb YieldFinder.checkContainsYield];
    rewrite ?existsb_app, ?existsb_names, ?existsb_mapped by reflexivity;
    cbn [optionToList fmap list_fmap app existsb YieldFinder.checkContainsYield];
    repeat first
      [ rewrite existsb_app | rewrite orb_false_r | rewrite orb_assoc
      | progress cbn [app existsb YieldFinder.checkContainsYield orb] ];
    reflexivity.
Qed.

(** A finder that reports a yield for a node reports it for the parent. *)
Lemma checkContainsYield_parent (node child : ParseNode) :
  child ∈ getChildNodes node ->
  YieldFinder.checkContainsYield child = true ->
  YieldFinder.checkContainsYield node = true.
Proof.
  intros Hin Hchild. rewrite checkContainsYield_children.
  apply orb_true_iff. right. apply existsb_exists. exists child.
  split; [apply list_elem_of_In; exact Hin|exact Hchild].
Qed.

Lemma parseNode_ind_children (P : ParseNode -> Prop) :
  (forall node, (forall child, child ∈ getChildNodes node -> P child) -> P node) ->
  forall node, P node.
Proof.
  intros Hstep.
  assert (Hlist : forall l, list_all ParseNode P l -> forall x, x ∈ l -> P x)
    by apply list_all_elem_of.
  assert (Hnames : forall (l : list NameNode) x, x ∈ Name <$> l -> P x).
  { intros l x (n & -> & _)%list_elem_of_fmap. apply Hstep. intros child Hin. inversion Hin. }
  assert (Hname : forall n, P (Name n)).
  { intros n. apply Hstep. intros child Hin. inversion Hin. }
  assert (HmoduleName : forall m, P (ModuleName m)).
  { intros m. apply Hstep. cbn [getChildNodes]. apply Hnames. }
  assert (HimportAs : forall n, P (ImportAs n)).
  { intros n. apply Hstep. cbn [getChildNodes].
    intros child [->|Hin]%elem_of_cons; [apply HmoduleName|exact (Hnames _ _ Hin)]. }
  assert (HimportFromAs : forall n, P (ImportFromAs n)).
  { intros n. apply Hstep. cbn [getChildNodes].
    intros child [->|Hin]%elem_of_cons; [apply Hname|exact (Hnames _ _ Hin)]. }
  induction node using ParseNode_ind; apply Hstep; cbn [getChildNodes];
    intros child Hin;
    repeat match goal with
      | Hall : option_all _ _ _ |- _ => destruct Hall
      | o : option NameNode |- _ => destruct o
      end;
    cbn [optionToList fmap list_fmap app] in Hin;
    repeat match goal with
      | Hin : _ ∈ [] |- _ => inversion Hin
      | Hin : _ ∈ _ ++ _ |- _ => apply elem_of_app in Hin as [Hin|Hin]
      | Hin : _ ∈ _ :: _ |- _ => apply elem_of_cons in Hin as [->|Hin]
      | Hall : list_all _ _ ?l, Hin : _ ∈ ?l |- _ => exact (Hlist l Hall _ Hin)
      | Hin : _ ∈ Name <$> _ |- _ => exact (Hnames _ _ Hin)
      | Hin : _ ∈ ImportAs <$> _ |- _ =>
          apply list_elem_of_fmap in Hin as (? & -> & _); apply HimportAs
      | Hin : _ ∈ ImportFromAs <$> _ |- _ =>
          apply list_elem_of_fmap in Hin as (? & -> & _); apply HimportFromAs
      | |- P (Name _) => apply Hname
      | |- P (ModuleName _) => apply HmoduleName
      | _ => assumption
      end.
Qed.

(** X1: the finder reports a yield for a node exactly when the tree under
    the node has a [yield] or [yield from] node, whatever lies between
    them: the descent does not stop at functions, lambdas or classes. *)
Theorem checkContainsYield_descendant (node : ParseNode) :
  YieldFinder.checkContainsYield node = true
  <-> exists d, descendantOf d node /\ isYieldNode d = true.
Proof.
  split.
  - induction node as [node IH] using parseNode_ind_children.
    rewrite checkContainsYield_children.
    intros [Hself|Hchild]%orb_true_iff.
    + exists node. split; [constructor|exact Hself].
    + apply existsb_exists in Hchild as (child & Hin & Hchild).
      apply list_elem_of_In in Hin.
      destruct (IH child Hin Hchild) as (d & Hd & Hyield).
      exists d. split; [|exact Hyield]. eapply descendant_child; eassumption.
  - intros (d & Hd & Hyield). induction Hd as [node|node child d Hin Hd IH].
    + rewrite checkContainsYield_children, Hyield. reflexivity.
    + eapply checkContainsYield_parent; [exact Hin|]. apply IH. exact Hyield.
Qed.

(** ** Computations that keep a relation *)

Section Keeps.
Context (R : State -> State -> Prop) `{!PreOrder R}.

Lemma keeps_ret {A} (a : A) : keeps R (ret a).
Proof. intros s a' s' [= _ <-]. reflexivity. Qed.

Lemma keeps_throw {A} (e : string) : keeps R (@throw A e).
Proof. intros s a s' [=]. Qed.

Lemma keeps_outOfFuel {A} : keeps R (@outOfFuel A).
Proof. intros s a s' [=]. Qed.

Lemma keeps_gets {A} (f : State -> A) : keeps R (gets f).
Proof. intros s a s' [= _ <-]. reflexivity. Qed.

Lemma keeps_getsBinder {A} (f : Binder -> A) : keeps R (getsBinder f).
Proof. apply keeps_gets. Qed.

Lemma keeps_getsHeap {A} (f : Heap -> A) : keeps R (getsHeap f).
Proof. apply keeps_gets. Qed.

Lemma keeps_getsNodeInfo {A} (f : NodeInfo -> A) : keeps R (getsNodeInfo f).
Proof. apply keeps_gets. Qed.

Lemma keeps_bind {A B} (m : M A) (k : A -> M B) :
  keeps R m -> (forall a, keeps R (k a)) -> keeps R (bind m k).
Proof.
  intros Hm Hk s b s' Hrun. apply bind_Ok in Hrun as (a & s1 & Hm1 & Hk1).
  transitivity s1; [eapply Hm|eapply Hk]; eassumption.
Qed.

Lemma keeps_modify (f : State -> State) :
  (forall s, R s (f s)) -> keeps R (modify f).
Proof. intros Hf s a s' [= _ <-]. apply Hf. Qed.

Lemma keeps_unwrap {A} (o : option A) (what : string) : keeps R (unwrap o what).
Proof. destruct o; [apply keeps_ret|apply keeps_throw]. Qed.

Lemma keeps_assert (b : bool) (what : string) : keeps R (assert b what).
Proof. destruct b; [apply keeps_ret|apply keeps_throw]. Qed.

Lemma keeps_when (b : bool) (m : M unit) : keeps R m -> keeps R (when b m).
Proof. intros Hm. destruct b; [exact Hm|apply keeps_ret]. Qed.

Lemma keeps_whenSome {A} (o : option A) (f : A -> M unit) :
  (forall a, keeps R (f a)) -> keeps R (whenSome o f).
Proof. intros Hf. destruct o; [apply Hf|apply keeps_ret]. Qed.

Lemma keeps_forEach {A} (l : list A) (f : A -> M unit) :
  (forall x, x ∈ l -> keeps R (f x)) -> keeps R (forEach l f).
Proof.
  induction l as [|x l IH]; intros Hf; [apply keeps_ret|].
  change (forEach (x :: l) f) with (bind (f x) (fun _ => forEach l f)).
  apply keeps_bind; [apply Hf; left|intros _].
  apply IH. intros y Hy. apply Hf. right. exact Hy.
Qed.

Lemma keeps_foldM {A B} (f : B -> A -> M B) (l : list A) (init : B) :
  (forall acc x, x ∈ l -> keeps R (f acc x)) -> keeps R (foldM f l init).
Proof.
  revert init. induction l as [|x l IH]; intros init Hf; [apply keeps_ret|].
  change (foldM f (x :: l) init) with (bind (f init x) (fun acc => foldM f l acc)).
  apply keeps_bind; [apply Hf; left|intros acc].
  apply IH. intros acc' y Hy. apply Hf. right. exact Hy.
Qed.

End Keeps.

Create HintDb keeps.

(** One step in the proof that a computation keeps a relation: by the
    shape of the computation, by a lemma of the database, or by unfolding
    the method at its head.  [on_modify] proves the relation for a step
    that updates the state; [on_method] takes a method that runs a
    callback by its lemma. *)
Ltac keeps_step on_modify on_method :=
  lazymatch goal with
  | |- keeps ?R (ret _) => apply (keeps_ret R)
  | |- keeps ?R (bind _ _) => apply (keeps_bind R); [|intros ?]
  | |- keeps ?R (throw _) => apply (keeps_throw R)
  | |- keeps ?R outOfFuel => apply (keeps_outOfFuel R)
  | |- keeps ?R (gets _) => apply (keeps_gets R)
  | |- keeps ?R (getsBinder _) => apply (keeps_getsBinder R)
  | |- keeps ?R (getsHeap _) => apply (keeps_getsHeap R)
  | |- keeps ?R (getsNodeInfo _) => apply (keeps_getsNodeInfo R)
  | |- keeps ?R (modifyBinder _) =>
      unfold modifyBinder; apply (keeps_modify R); intros ?; on_modify
  | |- keeps ?R (modifyHeap _) =>
      unfold modifyHeap; apply (keeps_modify R); intros ?; on_modify
  | |- keeps ?R (modifyNodeInfo _) =>
      unfold modifyNodeInfo; apply (keeps_modify R); intros ?; on_modify
  | |- keeps ?R (modify _) => apply (keeps_modify R); intros ?; on_modify
  | |- keeps ?R (when _ _) => apply (keeps_when R)
  | |- keeps ?R (whenSome _ _) => apply (keeps_whenSome R); intros ?
  | |- keeps ?R (unwrap _ _) => apply (keeps_unwrap R)
  | |- keeps ?R (assert _ _) => apply (keeps_assert R)
  | |- keeps ?R (forEach _ _) => apply (keeps_forEach R); intros ? ?
  | |- keeps ?R (foldM _ _ _) => apply (keeps_foldM R); intros ? ? ?
  | |- keeps _ (match ?x with _ => _ end) => destruct x
  | |- keeps _ (let _ := _ in _) => cbv zeta
  | |- keeps _ ((fun _ => _) _) => cbv beta
  | |- keeps _ ?m =>
      first
        [ solve [eauto 2 with keeps]
        | on_method
        | let h := head_of m in unfold h ]
  end.

(** ** The context of the binder *)

#[local] Instance sameContext_preorder : PreOrder sameContext.
Proof.
  split.
  - intros s. unfold sameContext. repeat split.
  - intros s1 s2 s3 H12 H23. unfold sameContext in *.
    repeat match goal with H : _ /\ _ |- _ => destruct H end.
    repeat split; congruence.
Qed.

(** A step that leaves the context alone. *)
Ltac context_kept := unfold sameContext; cbn; repeat split; reflexivity.

(** The proof for a computation that may run a callback in a new scope or
    in a loop. *)
Ltac context_method := fail.

Ltac context_auto := repeat keeps_step context_kept ltac:(context_method).

Section Context.
Context `{Collaborators}.

Lemma context_addAntecedent (label antecedent : FlowNode) :
  keeps sameContext (_addAntecedent label antecedent).
Proof. context_auto. Qed.

Lemma context_createFlowConditional flags antecedent expression :
  keeps sameContext (_createFlowConditional flags antecedent expression).
Proof. context_auto. Qed.

Lemma context_bindNameToScope scope name addedSymbols :
  keeps sameContext (_bindNameToScope scope name addedSymbols).
Proof. context_auto. Qed.

Hint Resolve context_addAntecedent context_createFlowConditional
  context_bindNameToScope : keeps.

(** Runs a computation that saves, sets and restores fields of the
    context: the steps that read or write the binder are computed, the
    others are taken by the relation they keep. *)
Ltac context_forward H :=
  cbv beta zeta in H;
  lazymatch type of H with
  | bind _ _ _ = Ok _ _ =>
      let a := fresh "a" in
      let s1 := fresh "s" in
      let H1 := fresh "Hstep" in
      apply bind_Ok in H as (a & s1 & H1 & H);
      context_forward H1; context_forward H
  | ret _ _ = Ok _ _ => cbv [ret] in H; simplify_eq
  | getsBinder _ _ = Ok _ _ => cbv [getsBinder gets] in H; simplify_eq
  | modifyBinder _ _ = Ok _ _ => cbv [modifyBinder modify] in H; simplify_eq
  | ?m ?s = Ok _ ?s' =>
      first
        [ let Hk := fresh "Hkeeps" in
          assert (Hk : keeps sameContext m) by (solve [context_auto]);
          apply Hk in H
        | lazymatch m with
          | when ?b _ => destruct b eqn:?; cbv [when] in H; context_forward H
          | whenSome ?o _ => destruct o eqn:?; cbv [whenSome] in H; context_forward H
          | match ?x with _ => _ end => destruct x eqn:?; context_forward H
          end ]
  end.

(** The context of the final state, from what the steps gave. *)
Ltac context_done :=
  unfold sameContext in *; cbn in *;
  repeat match goal with H : _ /\ _ |- _ => destruct H end;
  repeat split; congruence.

Lemma context_createNewScope scopeType parentScope (callback : M unit) :
  keeps sameContext callback ->
  keeps sameContext (_createNewScope scopeType parentScope callback).
Proof.
  intros Hcallback s a s' Hrun. unfold _createNewScope in Hrun.
  context_forward Hrun; context_done.
Qed.

Lemma context_bindLoopStatement preLoopLabel postLoopLabel (callback : M unit) :
  keeps sameContext callback ->
  keeps sameContext (_bindLoopStatement preLoopLabel postLoopLabel callback).
Proof.
  intros Hcallback s a s' Hrun. unfold _bindLoopStatement in Hrun.
  context_forward Hrun; context_done.
Qed.

Ltac context_method ::=
  first [apply context_createNewScope | apply context_bindLoopStatement].

Lemma context_isAnnotationFinal typeAnnotation :
  keeps sameContext (_isAnnotationFinal typeAnnotation).
Proof.
  induction typeAnnotation using ParseNode_ind; cbn [_isAnnotationFinal]; context_auto.
Qed.

Hint Resolve context_isAnnotationFinal : keeps.

Lemma context_addInferredTypeAssignmentForVariable ancestors target source
    isPossibleTypeAlias :
  keeps sameContext
    (_addInferredTypeAssignmentForVariable ancestors target source isPossibleTypeAlias).
Proof.
  revert isPossibleTypeAlias.
  induction target using ParseNode_ind; intros isPossibleTypeAlias;
    cbn [_addInferredTypeAssignmentForVariable]; context_auto.
  all: match goal with
       | Hall : list_all _ _ ?l, Hin : _ ∈ ?l |- _ =>
           apply (list_all_elem_of _ _ Hall _ Hin)
       end.
Qed.

Hint Resolve context_addInferredTypeAssignmentForVariable : keeps.

Lemma context_bindPossibleTupleNamedTarget target addedSymbols :
  keeps sameContext (_bindPossibleTupleNamedTarget target addedSymbols).
Proof.
  revert addedSymbols.
  induction target using ParseNode_ind; intros addedSymbols;
    cbn [_bindPossibleTupleNamedTarget]; context_auto.
  all: match goal with
       | Hall : list_all _ _ ?l |- _ =>
           revert addedSymbols; induction Hall; intros addedSymbols; context_auto
       end.
Qed.

Hint Resolve context_bindPossibleTupleNamedTarget : keeps.

Section VisitorContext.
Variable walk : list (ParseNode * bool) -> ParseNode -> M unit.
Hypothesis Hwalk : forall ancestors node, keeps sameContext (walk ancestors node).

Lemma context_createAssignmentTargetFlowNodes ancestors target walkTargets unbound :
  keeps sameContext
    (_createAssignmentTargetFlowNodes walk ancestors target walkTargets unbound).
Proof.
  revert walkTargets.
  induction target using ParseNode_ind; intros walkTargets;
    cbn [_createAssignmentTargetFlowNodes]; context_auto.
  all: match goal with
       | Hall : list_all _ _ ?l, Hin : _ ∈ ?l |- _ =>
           apply (list_all_elem_of _ _ Hall _ Hin)
       end.
Qed.

Hint Resolve context_createAssignmentTargetFlowNodes : keeps.

Lemma context_bindConditional ancestors node trueTarget falseTarget :
  keeps sameContext (_bindConditional walk ancestors node trueTarget falseTarget).
Proof.
  intros s a s' Hrun. unfold _bindConditional in Hrun.
  context_forward Hrun; context_done.
Qed.

Hint Resolve context_bindConditional : keeps.

Lemma context_visitUnaryOperation ancestors operator expression :
  keeps sameContext (visitUnaryOperation walk ancestors operator expression).
Proof.
  intros s a s' Hrun. unfold visitUnaryOperation in Hrun.
  context_forward Hrun; context_done.
Qed.

Lemma context_visitBinaryOperation ancestors leftExpression operator rightExpression :
  keeps sameContext
    (visitBinaryOperation walk ancestors leftExpression operator rightExpression).
Proof.
  intros s a s' Hrun. unfold visitBinaryOperation in Hrun.
  context_forward Hrun; context_done.
Qed.

Hint Resolve context_visitUnaryOperation context_visitBinaryOperation : keeps.

Lemma context_visitTry ancestors trySuite exceptClauses elseSuite finallySuite :
  keeps sameContext (visitTry walk ancestors trySuite exceptClauses elseSuite finallySuite).
Proof.
  intros s a s' Hrun. unfold visitTry in Hrun.
  context_forward Hrun.
  all: unfold sameContext in *; cbn in *;
    repeat match goal with H : _ /\ _ |- _ => destruct H end;
    repeat split; try congruence.
  all: try lia.
  all: repeat match goal with
         | Hf : _finallyTargets (binder ?x) = _
           |- context [_finallyTargets (binder ?x)] => rewrite Hf
         end;
       apply removelast_last.
Qed.

Hint Resolve context_visitTry : keeps.

Lemma context_visitNode ancestors node : keeps sameContext (visitNode walk ancestors node).
Proof. context_auto. Qed.

End VisitorContext.

Lemma context_walk fuel ancestors node : keeps sameContext (walk fuel ancestors node).
Proof.
  revert ancestors node. induction fuel as [|fuel IH]; intros ancestors node; cbn [walk].
  - apply (keeps_outOfFuel sameContext).
  - apply (keeps_bind sameContext); [apply context_visitNode; exact IH|intros descend].
    destruct descend; [|apply (keeps_ret sameContext)].
    apply (keeps_forEach sameContext). intros child _. apply IH.
Qed.


End Context.

(** X2: walking a node leaves the binder where it was: the scope, its
    non-local bindings and reference map, the function being bound, and
    the targets of [return], [break], [continue], of conditions, of
    exceptions and of [finally] are restored, whatever the visitors set
    them to on the way. *)
Theorem walk_restores_context `{Collaborators} (fuel : nat)
    (ancestors : list (ParseNode * bool)) (node : ParseNode) (s s' : State) :
  walk fuel ancestors node s = Ok tt s' ->
  sameContext s s'.
Proof. apply context_walk. Qed.

Lemma walk_restores_context_witness : sameContext variableState loopTryState.
Proof.
  apply (@walk_restores_context (exampleCollaborators None) 20 [] loopTryExample).
  vm_compute. reflexivity.
Defined.

(** ** The names bound in the scopes *)

Lemma scopeKept_refl (sc : Scope.t) : scopeKept sc sc.
Proof. repeat split; auto. Qed.

Lemma scopeKept_trans (sc1 sc2 sc3 : Scope.t) :
  scopeKept sc1 sc2 -> scopeKept sc2 sc3 -> scopeKept sc1 sc3.
Proof.
  intros (Ht1 & Hp1 & Hn1) (Ht2 & Hp2 & Hn2).
  repeat split; [congruence|congruence|auto].
Qed.

#[local] Instance bindingsKept_preorder : PreOrder bindingsKept.
Proof.
  split.
  - intros s. split; [lia|]. intros Ha. split; [exact Ha|].
    intros scope sc Hsc. exists sc. split; [exact Hsc|apply scopeKept_refl].
  - intros s1 s2 s3 [Hn1 H12] [Hn2 H23]. split; [lia|]. intros Ha1.
    destruct (H12 Ha1) as [Ha2 Hk12]. destruct (H23 Ha2) as [Ha3 Hk23].
    split; [exact Ha3|]. intros scope sc Hsc.
    destruct (Hk12 scope sc Hsc) as (sc2 & Hsc2 & Hkept12).
    destruct (Hk23 scope sc2 Hsc2) as (sc3 & Hsc3 & Hkept23).
    exists sc3. split; [exact Hsc3|]. eapply scopeKept_trans; eassumption.
Qed.

Lemma bindingsKept_frame (s s' : State) :
  scopes (heap s') = scopes (heap s) ->
  nextObjectId (heap s') = nextObjectId (heap s) ->
  bindingsKept s s'.
Proof.
  intros Hscopes Hnext. split; [lia|]. unfold scopesAllocated.
  rewrite Hscopes, Hnext. intros Ha. split; [exact Ha|].
  intros scope sc Hsc. exists sc. split; [exact Hsc|apply scopeKept_refl].
Qed.

(** A step that leaves the scopes and the counter of objects alone. *)
Ltac bindings_kept := apply bindingsKept_frame; reflexivity.

Ltac bindings_auto := repeat keeps_step bindings_kept ltac:(fail).

Section Bindings.
Context `{Collaborators}.

Lemma bindings_newObject : keeps bindingsKept newObject.
Proof.
  intros s ref s' [= _ <-]. split; [cbn; lia|]. unfold scopesAllocated. cbn.
  intros Ha. split.
  - intros scope Hscope. specialize (Ha scope Hscope). lia.
  - intros scope sc Hsc. exists sc. split; [exact Hsc|apply scopeKept_refl].
Qed.

Lemma bindings_newScope type parent : keeps bindingsKept (newScope type parent).
Proof.
  intros s ref s' [= _ <-]. split; [cbn; lia|]. unfold scopesAllocated. cbn.
  intros Ha. split.
  - intros scope [sc Hscope].
    destruct (decide (nextObjectId (heap s) = scope)) as [<-|Hne]; [lia|].
    rewrite lookup_insert_ne in Hscope by exact Hne.
    assert (scope < nextObjectId (heap s))%nat by (apply Ha; eauto). lia.
  - intros scope sc Hsc.
    assert (scope < nextObjectId (heap s))%nat by (apply Ha; eauto).
    exists sc. rewrite lookup_insert_ne by lia. split; [exact Hsc|apply scopeKept_refl].
Qed.

Hint Resolve bindings_newObject bindings_newScope : keeps.

Lemma lookUpSymbol_pure (scope : nat) (name : string) (s s' : State) (r : option nat) :
  lookUpSymbol scope name s = Ok r s' ->
  s' = s
  /\ exists sc, scopes (heap s) !! scope = Some sc /\ r = Scope.symbolTable sc !! name.
Proof.
  unfold lookUpSymbol, getScopeObject. munfold.
  destruct (scopes (heap s) !! scope) as [sc|] eqn:Hsc; cbn; [|discriminate].
  intros [= <- <-]. eauto.
Qed.

(** Adding a symbol under a name the scope does not have. *)
Lemma addSymbol_kept (scope : nat) (name : string) (flags : Z) (s s' : State)
    (symbol : nat) :
  lookUpSymbol scope name s = Ok None s ->
  addSymbol scope name flags s = Ok symbol s' ->
  bindingsKept s s'.
Proof.
  intros Hlook Hadd. apply lookUpSymbol_pure in Hlook as (_ & sc & Hsc & Hnone).
  rewrite (addSymbol_eq scope name flags sc s Hsc) in Hadd. injection Hadd as _ <-.
  split; [cbn; lia|]. unfold scopesAllocated, addSymbolTo. cbn. intros Ha. split.
  - intros scope' [sc' Hscope'].
    destruct (decide (scope = scope')) as [<-|Hne]; [apply Ha; eauto|].
    rewrite lookup_insert_ne in Hscope' by exact Hne. apply Ha. eauto.
  - intros scope' sc' Hsc'. destruct (decide (scope = scope')) as [<-|Hne].
    + rewrite lookup_insert_eq. eexists. split; [reflexivity|].
      assert (sc' = sc) as -> by congruence.
      repeat split. intros name' symbol' Hbound. cbn.
      destruct (decide (name = name')) as [<-|Hname]; [congruence|].
      rewrite lookup_insert_ne by exact Hname. exact Hbound.
    + rewrite lookup_insert_ne by exact Hne. exists sc'. split; [exact Hsc'|].
      apply scopeKept_refl.
Qed.

(** The rest of a run, by the relation it keeps. *)
Ltac bindings_rest H :=
  cbv beta in H;
  lazymatch type of H with
  | ?m ?s = Ok _ ?s' =>
      let Hk := fresh "Hkeeps" in
      assert (Hk : keeps bindingsKept m) by (solve [bindings_auto]);
      apply Hk in H
  end.

Lemma bindings_bindNameToScope scope name addedSymbols :
  keeps bindingsKept (_bindNameToScope scope name addedSymbols).
Proof.
  intros s a s' Hrun. unfold _bindNameToScope in Hrun.
  apply bind_Ok in Hrun as (binding & s1 & Hbinding & Hrun).
  injection Hbinding as _ <-.
  destruct (bool_decide (binding = None)); [|bindings_rest Hrun; exact Hrun].
  apply bind_Ok in Hrun as (existing & s1 & Hlook & Hrun).
  destruct (lookUpSymbol_pure _ _ _ _ _ Hlook) as [-> _].
  destruct existing as [symbol|]; [bindings_rest Hrun; exact Hrun|].
  apply bind_Ok in Hrun as (symbol & s1 & Hadd & Hrun).
  transitivity s1; [eapply addSymbol_kept; eassumption|].
  bindings_rest Hrun. exact Hrun.
Qed.

Lemma bindings_addSymbolToCurrentScope nameValue isInitiallyUnbound :
  keeps bindingsKept (_addSymbolToCurrentScope nameValue isInitiallyUnbound).
Proof.
  intros s a s' Hrun. unfold _addSymbolToCurrentScope in Hrun.
  apply bind_Ok in Hrun as (scope & s1 & Hscope & Hrun).
  assert (s1 = s) as ->.
  { revert Hscope. unfold currentScope. munfold.
    destruct (_currentScope (binder s)); cbn; [intros [= _ <-]; reflexivity|discriminate]. }
  apply bind_Ok in Hrun as (existing & s1 & Hlook & Hrun).
  destruct (lookUpSymbol_pure _ _ _ _ _ Hlook) as [-> (sc & Hsc & _)].
  destruct existing as [symbol|]; [bindings_rest Hrun; exact Hrun|].
  cbv zeta in Hrun.
  apply bind_Ok in Hrun as (type & s1 & Htype & Hrun).
  rewrite (scopeType_eq scope sc s Hsc) in Htype. injection Htype as _ <-.
  apply bind_Ok in Hrun as (fileInfo & s1 & HfileInfo & Hrun).
  injection HfileInfo as _ <-.
  eapply addSymbol_kept; eassumption.
Qed.

Lemma bindings_lookUpOrAddMember classScope name :
  keeps bindingsKept (lookUpOrAddMember classScope name).
Proof.
  intros s a s' Hrun. unfold lookUpOrAddMember in Hrun.
  apply bind_Ok in Hrun as (existing & s1 & Hlook & Hrun).
  destruct (lookUpSymbol_pure _ _ _ _ _ Hlook) as [-> _].
  destruct existing as [symbol|]; [bindings_rest Hrun; exact Hrun|].
  apply bind_Ok in Hrun as (symbol & s1 & Hadd & Hrun).
  transitivity s1; [eapply addSymbol_kept; eassumption|].
  bindings_rest Hrun. exact Hrun.
Qed.

Hint Resolve bindings_bindNameToScope bindings_addSymbolToCurrentScope
  bindings_lookUpOrAddMember : keeps.

Lemma bindings_isAnnotationFinal typeAnnotation :
  keeps bindingsKept (_isAnnotationFinal typeAnnotation).
Proof.
  induction typeAnnotation using ParseNode_ind; cbn [_isAnnotationFinal]; bindings_auto.
Qed.

Hint Resolve bindings_isAnnotationFinal : keeps.

Lemma bindings_addInferredTypeAssignmentForVariable ancestors target source
    isPossibleTypeAlias :
  keeps bindingsKept
    (_addInferredTypeAssignmentForVariable ancestors target source isPossibleTypeAlias).
Proof.
  revert isPossibleTypeAlias.
  induction target using ParseNode_ind; intros isPossibleTypeAlias;
    cbn [_addInferredTypeAssignmentForVariable]; bindings_auto.
  all: match goal with
       | Hall : list_all _ _ ?l, Hin : _ ∈ ?l |- _ =>
           apply (list_all_elem_of _ _ Hall _ Hin)
       end.
Qed.

Hint Resolve bindings_addInferredTypeAssignmentForVariable : keeps.

Lemma bindings_bindPossibleTupleNamedTarget target addedSymbols :
  keeps bindingsKept (_bindPossibleTupleNamedTarget target addedSymbols).
Proof.
  revert addedSymbols.
  induction target using ParseNode_ind; intros addedSymbols;
    cbn [_bindPossibleTupleNamedTarget]; bindings_auto.
  all: match goal with
       | Hall : list_all _ _ ?l |- _ =>
           revert addedSymbols; induction Hall; intros addedSymbols; bindings_auto
       end.
Qed.

Hint Resolve bindings_bindPossibleTupleNamedTarget : keeps.

Section VisitorBindings.
Variable walk : list (ParseNode * bool) -> ParseNode -> M unit.
Hypothesis Hwalk : forall ancestors node, keeps bindingsKept (walk ancestors node).

Lemma bindings_createAssignmentTargetFlowNodes ancestors target walkTargets unbound :
  keeps bindingsKept
    (_createAssignmentTargetFlowNodes walk ancestors target walkTargets unbound).
Proof.
  revert walkTargets.
  induction target using ParseNode_ind; intros walkTargets;
    cbn [_createAssignmentTargetFlowNodes]; bindings_auto.
  all: match goal with
       | Hall : list_all _ _ ?l, Hin : _ ∈ ?l |- _ =>
           apply (list_all_elem_of _ _ Hall _ Hin)
       end.
Qed.

Hint Resolve bindings_createAssignmentTargetFlowNodes : keeps.

Lemma bindings_visitNode ancestors node : keeps bindingsKept (visitNode walk ancestors node).
Proof. bindings_auto. Qed.

End VisitorBindings.

Lemma bindings_walk fuel ancestors node : keeps bindingsKept (walk fuel ancestors node).
Proof.
  revert ancestors node. induction fuel as [|fuel IH]; intros ancestors node; cbn [walk].
  - apply (keeps_outOfFuel bindingsKept).
  - apply (keeps_bind bindingsKept); [apply bindings_visitNode; exact IH|intros descend].
    destruct descend; [|apply (keeps_ret bindingsKept)].
    apply (keeps_forEach bindingsKept). intros child _. apply IH.
Qed.

End Bindings.

(** X3: walking a node never rebinds a name: a scope of the heap
    stays a scope of its kind under its parent, and a name bound in it
    stays bound to the same symbol. *)
Theorem walk_keeps_bindings `{Collaborators} (fuel : nat)
    (ancestors : list (ParseNode * bool)) (node : ParseNode) (s s' : State)
    (scope : nat) (sc : Scope.t) (name : string) (symbol : nat) :
  scopesAllocated s ->
  walk fuel ancestors node s = Ok tt s' ->
  scopes (heap s) !! scope = Some sc ->
  Scope.symbolTable sc !! name = Some symbol ->
  exists sc',
    scopes (heap s') !! scope = Some sc'
    /\ Scope.type sc' = Scope.type sc
    /\ Scope.parent sc' = Scope.parent sc
    /\ Scope.symbolTable sc' !! name = Some symbol.
Proof.
  intros Hallocated Hrun Hsc Hname.
  destruct (bindings_walk fuel ancestors node s tt s' Hrun) as [_ Hkept].
  destruct (Hkept Hallocated) as [_ Hscopes].
  destruct (Hscopes scope sc Hsc) as (sc' & Hsc' & Htype & Hparent & Hnames).
  exists sc'. auto.
Qed.

Lemma walk_keeps_bindings_witness :
  exists sc',
    scopes (heap rebindState) !! 2%nat = Some sc'
    /\ Scope.type sc' = ScopeType.Module
    /\ Scope.parent sc' = Some 0%nat
    /\ Scope.symbolTable sc' !! "x" = Some 1%nat.
Proof.
  apply (@walk_keeps_bindings (exampleCollaborators None) 20 [] rebindExample
           variableState rebindState 2%nat
           {| Scope.type := ScopeType.Module; Scope.parent := Some 0%nat;
              Scope.symbolTable := {[ "x" := 1%nat ]} |} "x" 1%nat).
  - intros scope Hscope.
    assert (Hall : map_Forall (fun ref _ => (ref < 4)%nat) (scopes (heap variableState)))
      by (apply map_Forall_to_list; vm_compute; repeat constructor).
    destruct Hscope as [sc Hsc]. exact (Hall scope sc Hsc).
  - vm_compute. reflexivity.
  - reflexivity.
  - reflexivity.
Defined.

(** ** Antecedents are added once *)

Section Antecedents.
Context `{Collaborators}.

Lemma addAntecedentTo_idempotent (label antecedent : FlowNode)
    (table : gmap nat (list FlowNode)) :
  addAntecedentTo label antecedent (addAntecedentTo label antecedent table)
  = addAntecedentTo label antecedent table.
Proof.
  destruct (existsb (fun existing => FlowNode.id existing =? FlowNode.id antecedent)%nat
              (default [] (table !! FlowNode.id label))) eqn:Hexists.
  - assert (Hsame : addAntecedentTo label antecedent table = table).
    { unfold addAntecedentTo. cbv zeta. rewrite Hexists. reflexivity. }
    rewrite !Hsame. reflexivity.
  - assert (Hadded : addAntecedentTo label antecedent table
                     = <[FlowNode.id label :=
                           default [] (table !! FlowNode.id label) ++ [antecedent]]> table).
    { unfold addAntecedentTo. cbv zeta. rewrite Hexists. reflexivity. }
    rewrite !Hadded. unfold addAntecedentTo. cbv zeta.
    rewrite lookup_insert_eq.
    match goal with
    | |- context [default [] (Some ?l)] => change (default [] (Some l)) with l
    end.
    rewrite existsb_app. cbn [existsb]. rewrite Nat.eqb_refl, orb_true_r.
    reflexivity.
Qed.

(** X4: adding an antecedent to a label a second time changes nothing: the
    second call finds the id of the node among the antecedents of the
    label. *)
Theorem addAntecedent_idempotent (label antecedent : FlowNode) (s : State) :
  (_addAntecedent label antecedent;; _addAntecedent label antecedent) s
  = _addAntecedent label antecedent s.
Proof.
  destruct (_currentFlowNode (binder s)) as [cur|] eqn:Hcur.
  - pose proof (addAntecedent_eq label antecedent cur s Hcur) as Hfirst.
    erewrite bind_eq by exact Hfirst. rewrite Hfirst.
    destruct (hasFlag (FlowNode.flags cur) FlowFlags.Unreachable) eqn:Hreach.
    + exact Hfirst.
    + rewrite (addAntecedent_eq label antecedent cur (withAntecedents _ s) Hcur), Hreach.
      cbn. rewrite addAntecedentTo_idempotent. reflexivity.
  - unfold _addAntecedent, currentFlowNode. munfold. rewrite Hcur. reflexivity.
Qed.

End Antecedents.

(** ** Unreachable statements *)

#[local] Instance sameBinder_preorder : PreOrder sameBinder.
Proof.
  split; [intros s; reflexivity|].
  intros s1 s2 s3 H12 H23. unfold sameBinder in *. congruence.
Qed.

Ltac binder_auto := repeat keeps_step ltac:(reflexivity) ltac:(fail).

Lemma bind_congr {A B} (m1 m2 : M A) (k : A -> M B) (s : State) :
  m1 s = m2 s -> bind m1 k s = bind m2 k s.
Proof. unfold bind. intros ->. reflexivity. Qed.

Section Unreachable.
Context `{Collaborators}.

Lemma endsFlow_bind {A} (m : M A) (k : A -> M bool) :
  (forall a, endsFlow (k a)) -> endsFlow (bind m k).
Proof.
  intros Hk s descend s' Hrun. apply bind_Ok in Hrun as (a & s1 & _ & Hrun).
  exact (Hk a s1 descend s' Hrun).
Qed.

Lemma endsFlow_last : endsFlow (setCurrentFlowNode _unreachableFlowNode;; ret false).
Proof. intros s descend s' [= <- <-]. split; reflexivity. Qed.

Ltac ends_flow := repeat first [apply endsFlow_last | apply endsFlow_bind; intros ?].

(** X5: walking a [break], [continue], [return] or [raise] statement
    leaves the code that follows unreachable, whatever targets the
    statement was connected to. *)
Theorem jump_statement_ends_flow (fuel : nat) (ancestors : list (ParseNode * bool))
    (node : ParseNode) (s s' : State) :
  isJumpNode node = true ->
  walk fuel ancestors node s = Ok tt s' ->
  _isCodeUnreachable s' = Ok true s'.
Proof.
  intros Hjump Hrun. destruct fuel as [|fuel]; [discriminate|]. cbn [walk] in Hrun.
  apply bind_Ok in Hrun as (descend & s1 & Hvisit & Hrun).
  assert (Hends : endsFlow (visitNode (walk fuel) ancestors node)).
  { destruct node; try discriminate; cbn [visitNode].
    - unfold visitRaise. ends_flow.
    - unfold visitReturn. ends_flow.
    - unfold visitBreak. ends_flow.
    - unfold visitContinue. ends_flow. }
  destruct (Hends s descend s1 Hvisit) as [-> Hcur]. injection Hrun as <-.
  rewrite (isCodeUnreachable_eq _ _ Hcur). reflexivity.
Qed.

Section Walkers.
Variables walk1 walk2 : list (ParseNode * bool) -> ParseNode -> M unit.

(** X6: where the code is unreachable the statements of a suite are not walked:
    what [_walkStatementsAndReportUnreachable] does is the same for any
    two walkers. *)
Theorem unreachable_statements_not_walked (ancestors : list (ParseNode * bool))
    (statements : list ParseNode) (cur : FlowNode) (s : State) :
  _currentFlowNode (binder s) = Some cur ->
  hasFlag (FlowNode.flags cur) FlowFlags.Unreachable = true ->
  _walkStatementsAndReportUnreachable walk1 ancestors statements s
  = _walkStatementsAndReportUnreachable walk2 ancestors statements s.
Proof.
  intros Hcur Hunreachable. unfold _walkStatementsAndReportUnreachable.
  match goal with
  | |- bind (foldM ?f1 _ _) _ _ = bind (foldM ?f2 _ _) _ _ =>
      enough (Hfold : forall found s0,
                _currentFlowNode (binder s0) = Some cur ->
                foldM f1 statements found s0 = foldM f2 statements found s0)
        by (apply bind_congr; apply Hfold; exact Hcur);
      set (step1 := f1); set (step2 := f2)
  end.
  induction statements as [|statement statements IH]; intros found s0 Hcur0;
    [reflexivity|].
  change (foldM step1 (statement :: statements) found)
    with (bind (step1 found statement) (fun acc => foldM step1 statements acc)).
  change (foldM step2 (statement :: statements) found)
    with (bind (step2 found statement) (fun acc => foldM step2 statements acc)).
  assert (Hfound :
    forall s1, _currentFlowNode (binder s1) = Some cur ->
      (if negb found then _isCodeUnreachable else ret found) s1 = Ok true s1).
  { intros s1 Hcur1. destruct found; [reflexivity|]. cbn [negb].
    rewrite (isCodeUnreachable_eq cur s1 Hcur1), Hunreachable. reflexivity. }
  assert (Hstep : step1 found statement s0 = step2 found statement s0
                  /\ forall acc s1, step2 found statement s0 = Ok acc s1 ->
                       binder s1 = binder s0).
  { unfold step1, step2.
    erewrite !(bind_eq (getsBinder _currentFlowNode)) by reflexivity.
    erewrite !(bind_eq (AnalyzerNodeInfo.setFlowNode _ _)) by reflexivity.
    erewrite !(bind_eq (if negb found then _ else _)) by (apply Hfound; exact Hcur0).
    cbn [negb]. split; [reflexivity|].
    intros acc s1 Hrun.
    match type of Hrun with
    | ?m ?s2 = _ =>
        assert (Hk : keeps sameBinder m) by (solve [binder_auto]);
        apply Hk in Hrun
    end.
    exact Hrun. }
  destruct Hstep as [Hsame Hbinder].
  destruct (step2 found statement s0) as [acc s1| |] eqn:Hrun.
  - rewrite (bind_eq _ _ _ _ _ Hsame), (bind_eq _ _ _ _ _ Hrun).
    apply IH. rewrite (Hbinder acc s1 eq_refl). exact Hcur0.
  - unfold bind. rewrite Hsame, Hrun. reflexivity.
  - unfold bind. rewrite Hsame, Hrun. reflexivity.
Qed.

End Walkers.

Lemma getDeclaration_eq (declaration : nat) (d : Declaration) (s : State) :
  declarations (heap s) !! declaration = Some d -> getDeclaration declaration s = Ok d s.
Proof. intros Hd. unfold getDeclaration. munfold. rewrite Hd. reflexivity. Qed.

Lemma markGenerator_cons (statement : ParseNode) (statements : list ParseNode)
    (d : FunctionDeclaration.t) :
  markGenerator (statement :: statements) d
  = markGenerator statements
      (if negb (FunctionDeclaration.isGenerator d)
          && YieldFinder.checkContainsYield statement
       then FunctionDeclaration.setIsGenerator true d else d).
Proof.
  unfold markGenerator. cbn [existsb].
  destruct (FunctionDeclaration.isGenerator d) eqn:Hgenerator; cbn.
  - rewrite Hgenerator. reflexivity.
  - destruct (YieldFinder.checkContainsYield statement); cbn.
    + reflexivity.
    + rewrite Hgenerator. reflexivity.
Qed.

(** X7: a [yield] in unreachable code still makes the function a generator:
    where the code is unreachable the statements are not walked, but the
    declaration of the function being bound is marked when one of them
    contains a [yield]. *)
Theorem unreachable_yield_marks_generator
    (walk : list (ParseNode * bool) -> ParseNode -> M unit)
    (ancestors : list (ParseNode * bool)) (statements : list ParseNode)
    (cur : FlowNode) (target : nat) (d : FunctionDeclaration.t) (s : State) :
  _currentFlowNode (binder s) = Some cur ->
  hasFlag (FlowNode.flags cur) FlowFlags.Unreachable = true ->
  _targetFunctionDeclaration (binder s) = Some target ->
  declarations (heap s) !! target = Some (FunctionDecl d) ->
  exists s',
    _walkStatementsAndReportUnreachable walk ancestors statements s = Ok false s'
    /\ binder s' = binder s
    /\ declarations (heap s') !! target = Some (FunctionDecl (markGenerator statements d)).
Proof.
  intros Hcur Hunreachable Htarget Hd. unfold _walkStatementsAndReportUnreachable.
  match goal with
  | |- context [foldM ?f _ _] =>
      enough (Hfold : forall found s0 d0,
                _currentFlowNode (binder s0) = Some cur ->
                _targetFunctionDeclaration (binder s0) = Some target ->
                declarations (heap s0) !! target = Some (FunctionDecl d0) ->
                exists found' s',
                  foldM f statements found s0 = Ok found' s'
                  /\ binder s' = binder s0
                  /\ declarations (heap s') !! target
                     = Some (FunctionDecl (markGenerator statements d0)));
      [|set (step := f)]
  end.
  { destruct (Hfold false s d Hcur Htarget Hd) as (found' & s' & Hrun & Hbinder & Hd').
    exists s'. erewrite bind_eq by exact Hrun. auto. }
  induction statements as [|statement statements IH]; intros found s0 d0 Hcur0 Htarget0 Hd0.
  { exists found, s0. split; [reflexivity|]. split; [reflexivity|].
    unfold markGenerator. cbn. rewrite andb_false_r. exact Hd0. }
  change (foldM step (statement :: statements) found)
    with (bind (step found statement) (fun acc => foldM step statements acc)).
  assert (Hfound :
    forall s1, _currentFlowNode (binder s1) = Some cur ->
      (if negb found then _isCodeUnreachable else ret found) s1 = Ok true s1).
  { intros s1 Hcur1. destruct found; [reflexivity|]. cbn [negb].
    rewrite (isCodeUnreachable_eq cur s1 Hcur1), Hunreachable. reflexivity. }
  set (d1 := if negb (FunctionDeclaration.isGenerator d0)
                && YieldFinder.checkContainsYield statement
             then FunctionDeclaration.setIsGenerator true d0 else d0).
  assert (Hstep : exists s1,
            step found statement s0 = Ok true s1
            /\ binder s1 = binder s0
            /\ declarations (heap s1) !! target = Some (FunctionDecl d1)).
  { unfold step.
    erewrite (bind_eq (getsBinder _currentFlowNode)) by reflexivity.
    erewrite (bind_eq (AnalyzerNodeInfo.setFlowNode _ _)) by reflexivity.
    erewrite (bind_eq (if negb found then _ else _)) by (apply Hfound; exact Hcur0).
    cbn [negb].
    match goal with
    | |- context [bind ?marking (fun _ => ret true) ?s1] =>
        assert (Hmarking : exists s2,
                  marking s1 = Ok tt s2
                  /\ binder s2 = binder s0
                  /\ declarations (heap s2) !! target = Some (FunctionDecl d1))
    end.
    { erewrite (bind_eq (getsBinder _targetFunctionDeclaration)) by reflexivity.
      cbn [binder set_nodeInfo]. rewrite Htarget0. cbn [whenSome].
      erewrite (bind_eq (getDeclaration target)) by (apply getDeclaration_eq; exact Hd0).
      unfold d1.
      destruct (negb (FunctionDeclaration.isGenerator d0)
                && YieldFinder.checkContainsYield statement).
      - eexists. split; [reflexivity|]. split; [reflexivity|]. cbn.
        apply lookup_insert_eq.
      - eexists. split; [reflexivity|]. split; [reflexivity|]. exact Hd0. }
    destruct Hmarking as (s2 & Hrun & Hbinder & Hd1).
    exists s2. erewrite bind_eq by exact Hrun. auto. }
  destruct Hstep as (s1 & Hrun & Hbinder & Hd1).
  erewrite bind_eq by exact Hrun.
  destruct (IH true s1 d1) as (found' & s' & Hrest & Hbinder' & Hd').
  - rewrite Hbinder. exact Hcur0.
  - rewrite Hbinder. exact Htarget0.
  - exact Hd1.
  - exists found', s'. split; [exact Hrest|]. split; [congruence|].
    rewrite markGenerator_cons. exact Hd'.
Qed.

End Unreachable.

Lemma jump_statement_ends_flow_witness :
  @_isCodeUnreachable returnState = Ok true returnState.
Proof.
  apply (@jump_statement_ends_flow (exampleCollaborators None) 20 [] returnExample
           variableState returnState).
  - reflexivity.
  - vm_compute. reflexivity.
Defined.

Lemma unreachable_statements_not_walked_witness :
  _walkStatementsAndReportUnreachable (@walk (exampleCollaborators None) 20) []
    deadCodeExample deadCodeState
  = _walkStatementsAndReportUnreachable (fun _ _ => throw "a statement is walked") []
      deadCodeExample deadCodeState.
Proof.
  apply (unreachable_statements_not_walked _ _ [] deadCodeExample _unreachableFlowNode
           deadCodeState).
  - reflexivity.
  - reflexivity.
Defined.

Lemma unreachable_yield_marks_generator_witness :
  exists s',
    _walkStatementsAndReportUnreachable (@walk (exampleCollaborators None) 20) []
      deadCodeExample deadCodeState = Ok false s'
    /\ declarations (heap s') !! 4%nat
       = Some (FunctionDecl
                 (FunctionDeclaration.setIsGenerator true exampleFunctionDeclaration)).
Proof.
  destruct (unreachable_yield_marks_generator (@walk (exampleCollaborators None) 20) []
              deadCodeExample _unreachableFlowNode 4 exampleFunctionDeclaration
              deadCodeState) as (s' & Hrun & _ & Hd).
  - reflexivity.
  - reflexivity.
  - reflexivity.
  - reflexivity.
  - exists s'. split; [exact Hrun|exact Hd].
Defined.

(** ** Names declared global *)

#[local] Instance sameNameBindings_preorder : PreOrder sameNameBindings.
Proof.
  split; [intros s; reflexivity|].
  intros s1 s2 s3 H12 H23. unfold sameNameBindings in *. congruence.
Qed.

Ltac nameBindings_auto := repeat keeps_step ltac:(reflexivity) ltac:(fail).

Section GlobalNames.
Context `{Collaborators}.

Lemma currentScope_eq (scope : nat) (s : State) :
  _currentScope (binder s) = Some scope -> currentScope s = Ok scope s.
Proof. intros Hscope. unfold currentScope. munfold. rewrite Hscope. reflexivity. Qed.

Lemma currentScope_Ok (scope : nat) (s s' : State) :
  currentScope s = Ok scope s' -> s' = s /\ _currentScope (binder s) = Some scope.
Proof.
  unfold currentScope. munfold.
  destruct (_currentScope (binder s)); cbn; [|discriminate].
  intros [= -> <-]. auto.
Qed.

Lemma declaredGlobal_not_bound (s : State) (name : string) (scope : nat)
    (addedSymbols : option (list (string * nat))) :
  declaredGlobal s name ->
  _bindNameToScope scope name addedSymbols s = Ok (None, addedSymbols) s.
Proof.
  intros Hglobal. unfold _bindNameToScope.
  assert (Hbinding : notLocalBindingsGet name s = Ok (Some NameBindingType.Global) s).
  { unfold notLocalBindingsGet. munfold. unfold declaredGlobal in Hglobal.
    rewrite Hglobal. reflexivity. }
  erewrite bind_eq by exact Hbinding. reflexivity.
Qed.

Lemma visitGlobal_names (globalScope scope : nat) (nameList : list NameNode)
    (body : NameNode -> M unit) (s s' : State) :
  scope <> globalScope ->
  body = (fun name =>
    let nameValue := NameNode.value name in
    let* binding := notLocalBindingsGet nameValue in
    when (bool_decide (binding = Some NameBindingType.Nonlocal))
      (_addError "nonLocalRedefinition" nameValue (NameNode.id name);; ret tt);;
    let* scope := currentScope in
    let* valueWithScope := lookUpSymbolRecursive scope nameValue in
    when (bool_decide (snd <$> valueWithScope = Some scope))
      (_addError "globalReassignment" nameValue (NameNode.id name);; ret tt);;
    _bindNameToScope globalScope nameValue None;;
    when (negb (scope =? globalScope)%nat)
      (notLocalBindingsSet nameValue NameBindingType.Global)) ->
  _currentScope (binder s) = Some scope ->
  forEach nameList body s = Ok tt s' ->
  _currentScope (binder s') = Some scope
  /\ _notLocalBindings (binder s') = _notLocalBindings (binder s)
  /\ (forall name, declaredGlobal s name -> declaredGlobal s' name)
  /\ (forall name, name ∈ nameList -> declaredGlobal s' (NameNode.value name)).
Proof.
  intros Hne Hbody. revert s.
  induction nameList as [|name nameList IH]; intros s Hscope Hrun.
  { injection Hrun as <-. repeat split; auto. intros name Hin. inversion Hin. }
  rewrite forEach_cons in Hrun. apply bind_Ok in Hrun as ([] & s1 & Hname & Hrun).
  assert (Hstep : _currentScope (binder s1) = Some scope
                  /\ _notLocalBindings (binder s1) = _notLocalBindings (binder s)
                  /\ (forall name', declaredGlobal s name' -> declaredGlobal s1 name')
                  /\ declaredGlobal s1 (NameNode.value name)).
  { rewrite Hbody in Hname. cbv beta zeta in Hname.
    apply bind_Ok in Hname as (binding & s2 & Hbinding & Hname).
    injection Hbinding as _ <-.
    apply bind_Ok in Hname as ([] & s2 & Herror & Hname).
    apply bind_Ok in Hname as (scope' & s3 & Hscope' & Hname).
    apply currentScope_Ok in Hscope' as [-> Hscope'].
    apply bind_Ok in Hname as (valueWithScope & s3 & Hvalue & Hname).
    injection Hvalue as _ <-.
    apply bind_Ok in Hname as ([] & s3 & Herror' & Hname).
    apply bind_Ok in Hname as (bound & s4 & Hbound & Hname).
    match type of Herror with
    | ?m _ = _ =>
        assert (Hcontext1 : keeps sameContext m) by (solve [context_auto]);
        assert (Hbindings1 : keeps sameNameBindings m) by (solve [nameBindings_auto])
    end.
    match type of Herror' with
    | ?m _ = _ =>
        assert (Hcontext2 : keeps sameContext m) by (solve [context_auto]);
        assert (Hbindings2 : keeps sameNameBindings m) by (solve [nameBindings_auto])
    end.
    match type of Hbound with
    | ?m _ = _ =>
        assert (Hcontext3 : keeps sameContext m) by (solve [context_auto]);
        assert (Hbindings3 : keeps sameNameBindings m) by (solve [nameBindings_auto])
    end.
    pose proof (Hcontext1 _ _ _ Herror) as (_ & Hs1 & Hn1 & _).
    pose proof (Hcontext2 _ _ _ Herror') as (_ & Hs2 & Hn2 & _).
    pose proof (Hcontext3 _ _ _ Hbound) as (_ & Hs3 & Hn3 & _).
    pose proof (Hbindings1 _ _ _ Herror) as Hb1.
    pose proof (Hbindings2 _ _ _ Herror') as Hb2.
    pose proof (Hbindings3 _ _ _ Hbound) as Hb3.
    unfold sameNameBindings in *.
    assert (scope' = scope) as -> by congruence.
    assert ((scope =? globalScope)%nat = false) as Hneb by (apply Nat.eqb_neq; exact Hne).
    rewrite Hneb in Hname. injection Hname as <-.
    unfold declaredGlobal. cbn.
    assert (Hn : _notLocalBindings (binder s4) = _notLocalBindings (binder s))
      by congruence.
    assert (Hb : nameBindings (heap s4) = nameBindings (heap s)) by congruence.
    rewrite Hn, Hb, lookup_insert_eq. cbn.
    split; [congruence|]. split; [reflexivity|]. split.
    - intros name' Hglobal.
      destruct (decide (NameNode.value name = name')) as [<-|Hname'].
      + apply lookup_insert_eq.
      + rewrite lookup_insert_ne by exact Hname'. exact Hglobal.
    - apply lookup_insert_eq. }
  destruct Hstep as (Hscope1 & Hn1 & Hkept1 & Hname1).
  destruct (IH s1 Hscope1 Hrun) as (Hscope' & Hn' & Hkept' & Hnames').
  split; [exact Hscope'|]. split; [congruence|]. split; [auto|].
  intros name' [->|Hin]%elem_of_cons; auto.
Qed.

(** X8: a name declared [global] in a scope that is not the global scope is not
    bound in that scope afterwards: [_bindNameToScope] gives no symbol
    for it and leaves the state as it is. *)
Theorem global_names_not_bound_locally (nameList : list NameNode)
    (scope globalScope : nat) (s s' : State) :
  _currentScope (binder s) = Some scope ->
  getGlobalScope scope s = Ok globalScope s ->
  scope <> globalScope ->
  visitGlobal nameList s = Ok true s' ->
  forall name, name ∈ nameList ->
    forall (scope' : nat) (addedSymbols : option (list (string * nat))),
      _bindNameToScope scope' (NameNode.value name) addedSymbols s'
      = Ok (None, addedSymbols) s'.
Proof.
  intros Hscope Hglobal Hne Hrun name Hin scope' addedSymbols.
  unfold visitGlobal in Hrun.
  erewrite bind_eq in Hrun by (apply currentScope_eq; exact Hscope).
  erewrite bind_eq in Hrun by exact Hglobal.
  apply bind_Ok in Hrun as ([] & s1 & Hnames & Hrun). injection Hrun as <-.
  apply declaredGlobal_not_bound.
  eapply (visitGlobal_names globalScope scope nameList _ s s1 Hne eq_refl Hscope Hnames).
  exact Hin.
Qed.

End GlobalNames.

Lemma global_names_not_bound_locally_witness :
  @_bindNameToScope (exampleCollaborators None) 4 "x" None globalState
  = Ok (None, None) globalState.
Proof.
  refine (@global_names_not_bound_locally (exampleCollaborators None) [nameNode 70 "x"]
            4 2 classBodyState globalState _ _ _ _ (nameNode 70 "x") _ 4%nat None).
  - reflexivity.
  - vm_compute. reflexivity.
  - discriminate.
  - vm_compute. reflexivity.
  - left.
Defined.

(** ** Binding a name twice *)

#[local] Instance sameScopes_preorder : PreOrder sameScopes.
Proof.
  split; [intros s; reflexivity|].
  intros s1 s2 s3 H12 H23. unfold sameScopes in *. congruence.
Qed.

Ltac scopes_auto := repeat keeps_step ltac:(reflexivity) ltac:(fail).

Section BindTwice.
Context `{Collaborators}.

Lemma notLocalBindingsGet_Ok (name : string) (s s' : State)
    (binding : option NameBindingType.t) :
  notLocalBindingsGet name s = Ok binding s' ->
  s' = s
  /\ binding = default ∅ (nameBindings (heap s) !! _notLocalBindings (binder s)) !! name.
Proof. intros [= <- <-]. auto. Qed.

(** X9: binding a name that [_bindNameToScope] has bound gives the same
    symbol and changes nothing: an existing symbol is not overwritten. *)
Theorem bindNameToScope_idempotent (scope : nat) (name : string)
    (addedSymbols addedSymbols' again : option (list (string * nat)))
    (symbol : nat) (s s' : State) :
  _bindNameToScope scope name addedSymbols s = Ok (Some symbol, addedSymbols') s' ->
  _bindNameToScope scope name again s' = Ok (Some symbol, again) s'.
Proof.
  intros Hrun. unfold _bindNameToScope in Hrun.
  apply bind_Ok in Hrun as (binding & s1 & Hbinding & Hrun).
  apply notLocalBindingsGet_Ok in Hbinding as [-> Hbinding].
  destruct (bool_decide (binding = None)) eqn:Hnone; [|discriminate].
  apply bool_decide_eq_true in Hnone. rewrite Hnone in Hbinding. clear Hnone binding.
  apply bind_Ok in Hrun as (existing & s1 & Hlook & Hrun).
  apply lookUpSymbol_pure in Hlook as (-> & sc & Hsc & ->).
  assert (Hagain : forall s2 sc2,
            _notLocalBindings (binder s2) = _notLocalBindings (binder s) ->
            nameBindings (heap s2) = nameBindings (heap s) ->
            scopes (heap s2) !! scope = Some sc2 ->
            Scope.symbolTable sc2 !! name = Some symbol ->
            _bindNameToScope scope name again s2 = Ok (Some symbol, again) s2).
  { intros s2 sc2 Hn Hb Hsc2 Hname. unfold _bindNameToScope.
    assert (Hget : notLocalBindingsGet name s2 = Ok None s2).
    { unfold notLocalBindingsGet. munfold. rewrite Hn, Hb, <- Hbinding. reflexivity. }
    erewrite bind_eq by exact Hget. cbn [bool_decide decide_rel].
    rewrite bool_decide_eq_true_2 by reflexivity.
    erewrite bind_eq by (apply (lookUpSymbol_eq scope name sc2 s2 Hsc2)).
    rewrite Hname. reflexivity. }
  destruct (Scope.symbolTable sc !! name) as [existing|] eqn:Hexisting.
  - injection Hrun as <- _ <-. eapply Hagain; eauto.
  - apply bind_Ok in Hrun as (added & s1 & Hadd & Hrun).
    rewrite (addSymbol_eq scope name _ sc s Hsc) in Hadd. injection Hadd as <- <-.
    apply bind_Ok in Hrun as (type & s2 & Htype & Hrun).
    apply bind_Ok in Hrun as (done & s3 & Halias & Hrun).
    apply bind_Ok in Hrun as (fileInfo & s4 & HfileInfo & Hrun).
    injection HfileInfo as _ <-.
    apply bind_Ok in Hrun as (done' & s4 & Hhidden & Hrun).
    cbv beta in Hrun. unfold ret in Hrun. injection Hrun as <- _ <-.
    match type of Htype with
    | ?m _ = _ =>
        assert (Hcontext0 : keeps sameContext m) by (solve [context_auto]);
        assert (Hbindings0 : keeps sameNameBindings m) by (solve [nameBindings_auto]);
        assert (Hscopes0 : keeps sameScopes m) by (solve [scopes_auto])
    end.
    match type of Halias with
    | ?m _ = _ =>
        assert (Hcontext1 : keeps sameContext m) by (solve [context_auto]);
        assert (Hbindings1 : keeps sameNameBindings m) by (solve [nameBindings_auto]);
        assert (Hscopes1 : keeps sameScopes m) by (solve [scopes_auto])
    end.
    match type of Hhidden with
    | ?m _ = _ =>
        assert (Hcontext2 : keeps sameContext m) by (solve [context_auto]);
        assert (Hbindings2 : keeps sameNameBindings m) by (solve [nameBindings_auto]);
        assert (Hscopes2 : keeps sameScopes m) by (solve [scopes_auto])
    end.
    pose proof (Hcontext0 _ _ _ Htype) as (_ & _ & Hn0 & _).
    pose proof (Hcontext1 _ _ _ Halias) as (_ & _ & Hn1 & _).
    pose proof (Hcontext2 _ _ _ Hhidden) as (_ & _ & Hn2 & _).
    pose proof (Hbindings0 _ _ _ Htype) as Hb0.
    pose proof (Hbindings1 _ _ _ Halias) as Hb1.
    pose proof (Hbindings2 _ _ _ Hhidden) as Hb2.
    pose proof (Hscopes0 _ _ _ Htype) as Hs0.
    pose proof (Hscopes1 _ _ _ Halias) as Hs1.
    pose proof (Hscopes2 _ _ _ Hhidden) as Hs2.
    unfold sameNameBindings, sameScopes in *.
    eapply (Hagain s4 (Scope.setSymbol name (nextSymbolId (heap s)) sc)).
    + rewrite Hn2, Hn1, Hn0. reflexivity.
    + rewrite Hb2, Hb1, Hb0. reflexivity.
    + rewrite Hs2, Hs1, Hs0. cbn. apply lookup_insert_eq.
    + cbn. apply lookup_insert_eq.
Qed.

End BindTwice.

Lemma bindNameToScope_idempotent_witness :
  @_bindNameToScope (exampleCollaborators None) 4 "x" None classBoundState
  = Ok (Some 2%nat, None) classBoundState.
Proof.
  apply (@bindNameToScope_idempotent (exampleCollaborators None) 4 "x" None None None 2
           classBodyState classBoundState).
  vm_compute. reflexivity.
Defined.

(** ** Diagnostics of a rule *)

Section Diagnostics.
Context `{Collaborators}.


End Diagnostics.

(** ** Loader actions of implicit imports *)

Lemma assocGet_assocSet_eq {A} (k : string) (v : A) (m : list (string * A)) :
  assocGet k (assocSet k v m) = Some v.
Proof.
  induction m as [|[k' v'] m IH]; cbn.
  - rewrite String.eqb_refl. reflexivity.
  - destruct (String.eqb k k') eqn:Hk; cbn.
    + rewrite String.eqb_refl. reflexivity.
    + rewrite Hk. exact IH.
Qed.

Lemma assocGet_assocSet_ne {A} (k k' : string) (v : A) (m : list (string * A)) :
  k <> k' -> assocGet k' (assocSet k v m) = assocGet k' m.
Proof.
  intros Hne. assert (Hkk' : String.eqb k' k = false).
  { apply String.eqb_neq. congruence. }
  induction m as [|[k0 v0] m IH]; cbn.
  - rewrite Hkk'. reflexivity.
  - destruct (String.eqb k k0) eqn:Hk; cbn.
    + apply String.eqb_eq in Hk. subst k0. rewrite Hkk'. reflexivity.
    + destruct (String.eqb k' k0); [reflexivity|exact IH].
Qed.

Section LoaderActions.
Context `{Collaborators}.

Lemma lastImplicitImport_cons (name : string) (implicitImport : ImplicitImport.t)
    (implicitImports : list ImplicitImport.t) :
  lastImplicitImport name (implicitImport :: implicitImports)
  = match lastImplicitImport name implicitImports with
    | Some later => Some later
    | None => if decide (ImplicitImport.name implicitImport = name)
              then Some implicitImport else None
    end.
Proof.
  unfold lastImplicitImport. rewrite filter_cons.
  destruct (decide (ImplicitImport.name implicitImport = name)) as [Hname|Hname].
  - destruct (filter _ implicitImports) as [|later rest] eqn:Hfilter; [reflexivity|].
    rewrite last_cons. destruct (last (later :: rest)) eqn:Hlast; [reflexivity|].
    apply last_None in Hlast. discriminate.
  - destruct (last _); reflexivity.
Qed.

(** X11: the loader action [_addImplicitImportsToLoaderActions] leaves for the
    submodule of a name: for a name that no implicit import has, the one
    that was there; otherwise one with the path of the last implicit
    import of that name, and with the implicit imports of the action that
    was there, or with none for a new action. *)
Theorem addImplicitImports_loaderAction (importResult : ImportResult.t)
    (loaderActions : ModuleLoaderActions) (name : string) :
  loaderActionFor name (_addImplicitImportsToLoaderActions importResult loaderActions)
  = match lastImplicitImport name (ImportResult.implicitImports importResult) with
    | None => loaderActionFor name loaderActions
    | Some implicitImport =>
        Some {| loaderPath := ImplicitImport.path implicitImport;
                loaderImplicitImports :=
                  match loaderActionFor name loaderActions with
                  | Some existing => loaderImplicitImports existing
                  | None => Some []
                  end |}
    end.
Proof.
  unfold _addImplicitImportsToLoaderActions.
  generalize (ImportResult.implicitImports importResult) as implicitImports.
  intros implicitImports. revert loaderActions.
  induction implicitImports as [|implicitImport implicitImports IH]; intros loaderActions.
  { reflexivity. }
  cbn [fold_left]. rewrite IH, lastImplicitImport_cons. clear IH.
  match goal with
  | |- context [loaderActionFor name ?stepped] =>
      assert (Hstep : loaderActionFor name stepped
                = if decide (ImplicitImport.name implicitImport = name)
                  then Some {| loaderPath := ImplicitImport.path implicitImport;
                               loaderImplicitImports :=
                                 match loaderActionFor name loaderActions with
                                 | Some existing => loaderImplicitImports existing
                                 | None => Some []
                                 end |}
                  else loaderActionFor name loaderActions)
  end.
  { unfold loaderActionFor.
    destruct (decide (ImplicitImport.name implicitImport = name)) as [<-|Hname].
    - destruct (loaderImplicitImports loaderActions) as [table|]; cbn.
      + destruct (assocGet (ImplicitImport.name implicitImport) table) as [existing|];
          cbn; rewrite assocGet_assocSet_eq; reflexivity.
      + rewrite String.eqb_refl. reflexivity.
    - destruct (loaderImplicitImports loaderActions) as [table|]; cbn.
      + destruct (assocGet (ImplicitImport.name implicitImport) table) as [existing|];
          cbn; rewrite assocGet_assocSet_ne by exact Hname; reflexivity.
      + assert (String.eqb name (ImplicitImport.name implicitImport) = false) as ->
          by (apply String.eqb_neq; congruence).
        reflexivity. }
  rewrite Hstep.
  destruct (lastImplicitImport name implicitImports) as [later|];
    destruct (decide (ImplicitImport.name implicitImport = name)); reflexivity.
Qed.

End LoaderActions.

(** ** The implicit names of a module *)

Section ImplicitNames.
Context `{Collaborators}.

Hint Resolve bindings_newObject bindings_newScope bindings_bindNameToScope
  bindings_addSymbolToCurrentScope bindings_lookUpOrAddMember bindings_isAnnotationFinal
  bindings_addInferredTypeAssignmentForVariable bindings_bindPossibleTupleNamedTarget
  bindings_createAssignmentTargetFlowNodes bindings_walk : keeps.

Lemma bindings_runCallback fuel callback : keeps bindingsKept (runCallback fuel callback).
Proof. destruct callback; cbn [runCallback]; bindings_auto. Qed.

Hint Resolve bindings_runCallback : keeps.

Lemma bindings_bindDeferred fuel iterations :
  keeps bindingsKept (_bindDeferred fuel iterations).
Proof.
  induction iterations as [|iterations IH]; cbn [_bindDeferred]; bindings_auto.
Qed.

Lemma scopeBinds_kept (s s' : State) (scope : nat) (type : ScopeType.t)
    (parent : option nat) (names : list string) :
  bindingsKept s s' ->
  scopesAllocated s ->
  scopeBinds s scope type parent names ->
  scopesAllocated s' /\ scopeBinds s' scope type parent names.
Proof.
  intros [_ Hkept] Hallocated (sc & Hsc & Htype & Hparent & Hnames).
  destruct (Hkept Hallocated) as [Hallocated' Hscopes]. split; [exact Hallocated'|].
  destruct (Hscopes scope sc Hsc) as (sc' & Hsc' & Htype' & Hparent' & Hnames').
  exists sc'. split; [exact Hsc'|]. split; [congruence|]. split; [congruence|].
  intros name Hin. destruct (Hnames name Hin) as [symbol Hsymbol]. eauto.
Qed.

Lemma addBuiltInSymbol_binds (name : string) (node : nat) (type : string) (scope : nat)
    (scopeType : ScopeType.t) (parent : option nat) (names : list string) (s s' : State) :
  scopesAllocated s /\ _currentScope (binder s) = Some scope
  /\ scopeBinds s scope scopeType parent names ->
  _addBuiltInSymbolToCurrentScope name node type s = Ok tt s' ->
  scopesAllocated s' /\ _currentScope (binder s') = Some scope
  /\ scopeBinds s' scope scopeType parent (names ++ [name]).
Proof.
  intros (Hallocated & Hscope & Hbinds) Hrun.
  assert (Hkept : bindingsKept s s').
  { assert (Hkeeps : keeps bindingsKept (_addBuiltInSymbolToCurrentScope name node type))
      by bindings_auto.
    exact (Hkeeps _ _ _ Hrun). }
  assert (Hbinder : binder s' = binder s).
  { assert (Hkeeps : keeps sameBinder (_addBuiltInSymbolToCurrentScope name node type))
      by binder_auto.
    exact (Hkeeps _ _ _ Hrun). }
  destruct (scopeBinds_kept s s' scope scopeType parent names Hkept Hallocated Hbinds)
    as (Hallocated' & sc' & Hsc' & Htype' & Hparent' & Hnames').
  split; [exact Hallocated'|]. split; [rewrite Hbinder; exact Hscope|].
  exists sc'. split; [exact Hsc'|]. split; [exact Htype'|]. split; [exact Hparent'|].
  intros name' [Hin|Hin]%elem_of_app; [auto|].
  apply list_elem_of_singleton in Hin. subst name'.
  unfold _addBuiltInSymbolToCurrentScope in Hrun.
  apply bind_Ok in Hrun as (symbol & s1 & Hsymbol & Hrun).
  assert (Hbound : exists sc1,
            scopes (heap s1) !! scope = Some sc1
            /\ is_Some (Scope.symbolTable sc1 !! name)).
  { unfold _addSymbolToCurrentScope in Hsymbol.
    erewrite bind_eq in Hsymbol by (apply currentScope_eq; exact Hscope).
    apply bind_Ok in Hsymbol as (existing & s2 & Hlook & Hsymbol).
    apply lookUpSymbol_pure in Hlook as (-> & sc & Hsc & ->).
    destruct (Scope.symbolTable sc !! name) as [existing|] eqn:Hexisting.
    - injection Hsymbol as _ <-. exists sc. split; [exact Hsc|]. eauto.
    - cbv zeta in Hsymbol.
      erewrite bind_eq in Hsymbol by (apply (scopeType_eq scope sc s Hsc)).
      erewrite bind_eq in Hsymbol by reflexivity.
      rewrite (addSymbol_eq scope name _ sc s Hsc) in Hsymbol.
      injection Hsymbol as _ <-. eexists. split.
      + cbn. apply lookup_insert_eq.
      + cbn. rewrite lookup_insert_eq. eauto. }
  match type of Hrun with
  | ?m _ = _ => assert (Hscopes : keeps sameScopes m) by (solve [scopes_auto])
  end.
  apply Hscopes in Hrun. unfold sameScopes in Hrun.
  destruct Hbound as (sc1 & Hsc1 & Hname). rewrite <- Hrun in Hsc1.
  assert (sc1 = sc') as -> by congruence. exact Hname.
Qed.

Lemma newBinder_allocated (fileInfo : AnalyzerFileInfo.t) (scope : nat) :
  is_Some (scopes (heap (newBinder fileInfo)) !! scope) -> scope = 0%nat.
Proof.
  cbn. destruct (AnalyzerFileInfo.builtinsScope fileInfo).
  - intros [sc Hsc]. apply lookup_singleton_Some in Hsc as [<- _]. reflexivity.
  - intros [sc Hsc]. rewrite lookup_empty in Hsc. discriminate.
Qed.

(** X12: after binding a module with a new binder, the scope of the module
    (object 2) is a module scope under the builtins scope, or the
    builtins scope itself for the builtins module, and it binds the
    implicit names of a module. *)
Theorem bindModule_binds_implicit_names (fuel : nat) (node : ParseNode)
    (fileInfo : AnalyzerFileInfo.t) (results : BinderResults) (s' : State) :
  bindModule fuel node (newBinder fileInfo) = Ok results s' ->
  scopeBinds s' 2
    (if bool_decide (AnalyzerFileInfo.builtinsScope fileInfo = None)
     then ScopeType.Builtin else ScopeType.Module)
    (builtinsScopeRef fileInfo) implicitModuleNames.
Proof.
  intros Hrun. destruct node; try discriminate. cbn [bindModule] in Hrun.
  apply bind_Ok in Hrun as (fileInfo' & s1 & [= <- <-] & Hrun).
  apply bind_Ok in Hrun as ([] & s2 & Hscope & Hrun).
  apply bind_Ok in Hrun as ([] & s3 & Hdeferred & [= _ <-]).
  apply bindings_bindDeferred in Hdeferred.
  unfold _createNewScope in Hscope.
  set (scopeType := if bool_decide (AnalyzerFileInfo.builtinsScope fileInfo = None)
                    then ScopeType.Builtin else ScopeType.Module) in *.
  assert (Hexecution : match scopeType with
                       | ScopeType.Class | ScopeType.ListComprehension => false
                       | _ => true
                       end = true).
  { unfold scopeType. destruct (bool_decide _); reflexivity. }
  rewrite Hexecution in Hscope. cbn [when] in Hscope.
  apply bind_Ok in Hscope as (prevScope & s4 & [= <- <-] & Hscope).
  apply bind_Ok in Hscope as (scope & s4 & [= <- <-] & Hscope).
  apply bind_Ok in Hscope as ([] & s4 & [= <-] & Hscope).
  apply bind_Ok in Hscope as (prevReferenceMap & s4 & [= <- <-] & Hscope).
  apply bind_Ok in Hscope as ([] & s4 & [= <-] & Hscope).
  apply bind_Ok in Hscope as (prevNonLocalBindings & s4 & [= <- <-] & Hscope).
  apply bind_Ok in Hscope as (bindings & s4 & [= <- <-] & Hscope).
  apply bind_Ok in Hscope as ([] & s4 & [= <-] & Hscope).
  apply bind_Ok in Hscope as ([] & s4 & Hcallback & Hscope).
  apply bind_Ok in Hscope as ([] & s5 & [= <-] & Hscope).
  apply bind_Ok in Hscope as ([] & s5 & [= <-] & Hscope).
  injection Hscope as <-.
  apply bind_Ok in Hcallback as (scope & s5 & [= <- <-] & Hcallback).
  apply bind_Ok in Hcallback as ([] & s5 & [= <-] & Hcallback).
  apply bind_Ok in Hcallback as (cur & s5 & [= <- <-] & Hcallback).
  apply bind_Ok in Hcallback as ([] & s5 & [= <-] & Hcallback).
  match type of Hcallback with
  | _ ?s0 = _ =>
      assert (Hinv : scopesAllocated s0 /\ _currentScope (binder s0) = Some 2%nat
                     /\ scopeBinds s0 2 scopeType (builtinsScopeRef fileInfo) [])
  end.
  { split; [|split].
    - intros scope. cbn.
      destruct (decide (scope = 2%nat)) as [->|Hne]; [lia|].
      rewrite lookup_insert_ne by congruence. intros Hscope.
      apply (newBinder_allocated fileInfo) in Hscope. lia.
    - reflexivity.
    - eexists. split; [cbn; apply lookup_insert_eq|]. split; [reflexivity|].
      split; [reflexivity|]. intros name Hin. inversion Hin. }
  do 9 (apply bind_Ok in Hcallback as ([] & ? & Hadd & Hcallback);
        apply (addBuiltInSymbol_binds _ _ _ _ _ _ _ _ _ Hinv) in Hadd;
        clear Hinv; rename Hadd into Hinv).
  match type of Hcallback with
  | ?m _ = _ =>
      assert (Hrest : keeps bindingsKept m) by (solve [bindings_auto]);
      apply Hrest in Hcallback
  end.
  destruct Hinv as (Hallocated & _ & Hbinds).
  destruct (scopeBinds_kept _ _ _ _ _ _ Hcallback Hallocated Hbinds)
    as (Hallocated4 & Hbinds4).
  refine (proj2 (scopeBinds_kept _ _ _ _ _ _ Hdeferred _ _)).
  - exact Hallocated4.
  - exact Hbinds4.
Qed.

End ImplicitNames.

Lemma bindModule_binds_implicit_names_witness :
  scopeBinds ifTrueState 2 ScopeType.Module (Some 0%nat) implicitModuleNames.
Proof.
  apply (@bindModule_binds_implicit_names (exampleCollaborators None) 20 ifTrueExample
           (exampleFileInfo (fun _ => None)) {| moduleDocString := None |} ifTrueState).
  vm_compute. reflexivity.
Defined.

(** ** The flow nodes of the statements *)

#[local] Instance flowNodesKept_preorder : PreOrder flowNodesKept.
Proof.
  split.
  - intros s Hcur. auto.
  - intros s1 s2 s3 H12 H23 Hcur1. destruct (H12 Hcur1) as [Hcur2 Hnodes12].
    destruct (H23 Hcur2) as [Hcur3 Hnodes23]. auto.
Qed.

(** A step that attaches no flow node and leaves the binder with a
    current flow node. *)
Ltac flow_kept :=
  unfold flowNodesKept; cbn;
  let Hcur := fresh "Hcur" in
  intros Hcur; split; [first [exact Hcur | eexists; reflexivity]|auto].

Section FlowNodes.
Context `{Collaborators}.

Lemma flow_attached (node : nat) (s : State) :
  is_Some (_currentFlowNode (binder s)) ->
  exists s',
    AnalyzerNodeInfo.setFlowNode node (_currentFlowNode (binder s)) s = Ok tt s'
    /\ binder s' = binder s
    /\ is_Some (flowNode (nodeInfo s') !! node)
    /\ flowNodesKept s s'.
Proof.
  intros [cur Hcur]. eexists. split; [reflexivity|]. rewrite Hcur. cbn.
  split; [reflexivity|]. split; [rewrite lookup_insert_eq; eauto|].
  intros _. cbn. split; [eauto|]. intros node' Hnode'.
  destruct (decide (node = node')) as [<-|Hne].
  - rewrite lookup_insert_eq. eauto.
  - rewrite lookup_insert_ne by exact Hne. exact Hnode'.
Qed.

Lemma flow_attach_kept (node : nat) (s s' : State) :
  AnalyzerNodeInfo.setFlowNode node (_currentFlowNode (binder s)) s = Ok tt s' ->
  flowNodesKept s s'.
Proof.
  intros Hrun Hcur. destruct (flow_attached node s Hcur) as (s1 & Hrun1 & _ & _ & Hkept).
  assert (s1 = s') as <- by congruence. exact (Hkept Hcur).
Qed.

Lemma flow_attach_then {A} (node : nat) (rest : option FlowNode -> M A) :
  (forall cur, keeps flowNodesKept (rest cur)) ->
  keeps flowNodesKept
    (let* cur := getsBinder _currentFlowNode in
     AnalyzerNodeInfo.setFlowNode node cur;; rest cur).
Proof.
  intros Hrest s a s' Hrun.
  apply bind_Ok in Hrun as (cur & s1 & [= <- <-] & Hrun).
  apply bind_Ok in Hrun as ([] & s1 & Hattach & Hrun).
  transitivity s1; [exact (flow_attach_kept _ _ _ Hattach)|exact (Hrest _ _ _ _ Hrun)].
Qed.

Lemma flow_attach_last (node : nat) :
  keeps flowNodesKept
    (let* cur := getsBinder _currentFlowNode in AnalyzerNodeInfo.setFlowNode node cur).
Proof.
  intros s a s' Hrun.
  apply bind_Ok in Hrun as (cur & s1 & [= <- <-] & Hrun). destruct a.
  exact (flow_attach_kept _ _ _ Hrun).
Qed.

Ltac flow_step :=
  lazymatch goal with
  | |- keeps _ (bind (getsBinder _currentFlowNode) _) =>
      first
        [ apply flow_attach_last
        | apply flow_attach_then; intros ?
        | keeps_step flow_kept ltac:(fail) ]
  | _ => keeps_step flow_kept ltac:(fail)
  end.

Ltac flow_auto := repeat flow_step.

Lemma flow_addAntecedent label antecedent :
  keeps flowNodesKept (_addAntecedent label antecedent).
Proof. flow_auto. Qed.

Lemma flow_createCallFlowNode node : keeps flowNodesKept (_createCallFlowNode node).
Proof. flow_auto. Qed.

Lemma flow_createFlowWildcardImport node names :
  keeps flowNodesKept (_createFlowWildcardImport node names).
Proof. flow_auto. Qed.

Hint Resolve flow_addAntecedent flow_createCallFlowNode flow_createFlowWildcardImport
  : keeps.

Lemma flow_createFlowAssignment node unbound :
  keeps flowNodesKept (_createFlowAssignment node unbound).
Proof.
  intros s [] s' Hrun Hcur. unfold _createFlowAssignment in Hrun.
  apply bind_Ok in Hrun as (target & s1 & Htarget & Hrun).
  assert (Hkept1 : flowNodesKept s s1).
  { revert Htarget.
    match goal with
    | |- ?m _ = _ -> _ =>
        assert (Hk : keeps flowNodesKept m) by (solve [flow_auto]); apply Hk
    end. }
  destruct (Hkept1 Hcur) as [Hcur1 Hnodes1].
  apply bind_Ok in Hrun as (prevFlowNode & s2 & [= <- <-] & Hrun).
  apply bind_Ok in Hrun as (unreachable & s2 & Hunreachable & Hrun).
  apply bind_Ok in Hrun as ([] & s3 & Hassign & Hrun).
  apply bind_Ok in Hrun as (existing & s4 & [= <- <-] & Hrun).
  assert (Hkept2 : flowNodesKept s1 s3).
  { transitivity s2.
    - revert Hunreachable.
      match goal with
      | |- ?m _ = _ -> _ =>
          assert (Hk : keeps flowNodesKept m) by (solve [flow_auto]); apply Hk
      end.
    - revert Hassign.
      match goal with
      | |- ?m _ = _ -> _ =>
          assert (Hk : keeps flowNodesKept m) by (solve [flow_auto]); apply Hk
      end. }
  destruct (Hkept2 Hcur1) as [Hcur3 Hnodes3].
  destruct (negb unbound || bool_decide (flowNode (nodeInfo s3) !! nodeId node = None));
    cbn [when] in Hrun.
  - apply bind_Ok in Hrun as (cur & s4 & [= <- <-] & Hrun).
    assert (Hattached : is_Some (if unbound then _currentFlowNode (binder s1)
                                 else _currentFlowNode (binder s3)))
      by (destruct unbound; assumption).
    destruct Hattached as [attached Hattached]. rewrite Hattached in Hrun.
    injection Hrun as Hs'. rewrite <- Hs'. cbn.
    split; [exact Hcur3|]. intros node' Hnode'.
    destruct (decide (nodeId node = node')) as [<-|Hne].
    + rewrite lookup_insert_eq. eauto.
    + rewrite lookup_insert_ne by exact Hne. auto.
  - injection Hrun as Hs'. rewrite <- Hs'. split; [exact Hcur3|]. auto.
Qed.

Hint Resolve flow_createFlowAssignment : keeps.

Lemma flow_isAnnotationFinal typeAnnotation :
  keeps flowNodesKept (_isAnnotationFinal typeAnnotation).
Proof.
  induction typeAnnotation using ParseNode_ind; cbn [_isAnnotationFinal]; flow_auto.
Qed.

Hint Resolve flow_isAnnotationFinal : keeps.

Lemma flow_addInferredTypeAssignmentForVariable ancestors target source
    isPossibleTypeAlias :
  keeps flowNodesKept
    (_addInferredTypeAssignmentForVariable ancestors target source isPossibleTypeAlias).
Proof.
  revert isPossibleTypeAlias.
  induction target using ParseNode_ind; intros isPossibleTypeAlias;
    cbn [_addInferredTypeAssignmentForVariable]; flow_auto.
  all: match goal with
       | Hall : list_all _ _ ?l, Hin : _ ∈ ?l |- _ =>
           apply (list_all_elem_of _ _ Hall _ Hin)
       end.
Qed.

Hint Resolve flow_addInferredTypeAssignmentForVariable : keeps.

Lemma flow_bindPossibleTupleNamedTarget target addedSymbols :
  keeps flowNodesKept (_bindPossibleTupleNamedTarget target addedSymbols).
Proof.
  revert addedSymbols.
  induction target using ParseNode_ind; intros addedSymbols;
    cbn [_bindPossibleTupleNamedTarget]; flow_auto.
  all: match goal with
       | Hall : list_all _ _ ?l |- _ =>
           revert addedSymbols; induction Hall; intros addedSymbols; flow_auto
       end.
Qed.

Hint Resolve flow_bindPossibleTupleNamedTarget : keeps.

Section VisitorFlowNodes.
Variable walk : list (ParseNode * bool) -> ParseNode -> M unit.
Hypothesis Hwalk : forall ancestors node, keeps flowNodesKept (walk ancestors node).

Lemma flow_createAssignmentTargetFlowNodes ancestors target walkTargets unbound :
  keeps flowNodesKept
    (_createAssignmentTargetFlowNodes walk ancestors target walkTargets unbound).
Proof.
  revert walkTargets.
  induction target using ParseNode_ind; intros walkTargets;
    cbn [_createAssignmentTargetFlowNodes]; flow_auto.
  all: match goal with
       | Hall : list_all _ _ ?l, Hin : _ ∈ ?l |- _ =>
           apply (list_all_elem_of _ _ Hall _ Hin)
       end.
Qed.

Hint Resolve flow_createAssignmentTargetFlowNodes : keeps.

Lemma flow_visitNode ancestors node : keeps flowNodesKept (visitNode walk ancestors node).
Proof. flow_auto. Qed.

End VisitorFlowNodes.

Lemma flow_walk fuel ancestors node : keeps flowNodesKept (walk fuel ancestors node).
Proof.
  revert ancestors node. induction fuel as [|fuel IH]; intros ancestors node; cbn [walk].
  - apply (keeps_outOfFuel flowNodesKept).
  - apply (keeps_bind flowNodesKept); [apply flow_visitNode; exact IH|intros descend].
    destruct descend; [|apply (keeps_ret flowNodesKept)].
    apply (keeps_forEach flowNodesKept). intros child _. apply IH.
Qed.

Hint Resolve flow_walk : keeps.

(** X13: every statement of a suite gets a flow node: where the binder has a
    current flow node, the statements [_walkStatementsAndReportUnreachable] went
    through have a flow node attached afterwards, the unreachable ones included,
    and walking the later statements does not detach it. *)
Theorem walked_statements_have_flow_nodes (fuel : nat)
    (ancestors : list (ParseNode * bool)) (statements : list ParseNode)
    (found : bool) (s s' : State) :
  is_Some (_currentFlowNode (binder s)) ->
  _walkStatementsAndReportUnreachable (walk fuel) ancestors statements s = Ok found s' ->
  forall statement,
    statement ∈ statements ->
    is_Some (flowNode (nodeInfo s') !! nodeId statement).
Proof.
  intros Hcur Hrun. unfold _walkStatementsAndReportUnreachable in Hrun.
  apply bind_Ok in Hrun as (acc & s1 & Hfold & [= _ <-]).
  revert Hcur Hfold. generalize false as acc0.
  match goal with
  | |- forall acc0, _ -> foldM ?f _ _ _ = _ -> _ => set (step := f)
  end.
  intros acc0 Hcur Hfold.
  enough (Hall : is_Some (_currentFlowNode (binder s1))
                 /\ (forall node, is_Some (flowNode (nodeInfo s) !! node) ->
                       is_Some (flowNode (nodeInfo s1) !! node))
                 /\ forall statement, statement ∈ statements ->
                      is_Some (flowNode (nodeInfo s1) !! nodeId statement))
    by (destruct Hall as (_ & _ & Hall); exact Hall).
  revert acc0 s Hcur Hfold.
  induction statements as [|statement statements IH]; intros acc0 s Hcur Hfold.
  { injection Hfold as _ <-. split; [exact Hcur|]. split; [auto|].
    intros statement Hin. inversion Hin. }
  change (foldM step (statement :: statements) acc0)
    with (bind (step acc0 statement) (fun acc => foldM step statements acc)) in Hfold.
  apply bind_Ok in Hfold as (acc1 & s2 & Hstep & Hfold).
  unfold step in Hstep.
  apply bind_Ok in Hstep as (cur & s3 & [= <- <-] & Hstep).
  apply bind_Ok in Hstep as ([] & s3 & Hattach & Hstep).
  destruct (flow_attached (nodeId statement) s Hcur)
    as (s3' & Hattach' & Hbinder & Hattached & Hkept).
  assert (s3' = s3) as -> by congruence.
  match type of Hstep with
  | ?m _ = _ =>
      assert (Hrest : keeps flowNodesKept m) by (solve [flow_auto]);
      apply Hrest in Hstep
  end.
  destruct (Hkept Hcur) as [Hcur3 Hnodes3].
  destruct (Hstep Hcur3) as [Hcur2 Hnodes2].
  destruct (IH acc1 s2 Hcur2 Hfold) as (Hcur1 & Hnodes1 & Hstatements).
  split; [exact Hcur1|]. split; [auto|].
  intros statement' [->|Hin]%elem_of_cons; auto.
Qed.

End FlowNodes.

Lemma walked_statements_have_flow_nodes_witness :
  is_Some (flowNode (nodeInfo statementsState) !! 45%nat).
Proof.
  refine (@walked_statements_have_flow_nodes (exampleCollaborators None) 20 []
            rebindStatements false variableState statementsState _ _
            (StatementListNode 45
               [AssignmentNode 46 (Name (nameNode 47 "y")) (Name (nameNode 48 "x")) None])
            _).
  - eexists. reflexivity.
  - vm_compute. reflexivity.
  - right. left.
Defined.

(** ** The names of an assignment target *)

Section TargetNames.
Context `{Collaborators}.

Hint Resolve bindings_newObject bindings_newScope bindings_bindNameToScope
  bindings_addSymbolToCurrentScope bindings_lookUpOrAddMember : keeps.

Lemma nameBindings_bindPossibleTupleNamedTarget target addedSymbols :
  keeps sameNameBindings (_bindPossibleTupleNamedTarget target addedSymbols).
Proof.
  revert addedSymbols.
  induction target using ParseNode_ind; intros addedSymbols;
    cbn [_bindPossibleTupleNamedTarget]; nameBindings_auto.
  all: match goal with
       | Hall : list_all _ _ ?l |- _ =>
           revert addedSymbols; induction Hall; intros addedSymbols; nameBindings_auto
       end.
Qed.

Lemma nameBound_kept (s s' : State) (scope : nat) (name : string) :
  bindingsKept s s' -> scopesAllocated s -> nameBound s scope name ->
  nameBound s' scope name.
Proof.
  intros [_ Hkept] Hallocated (sc & Hsc & symbol & Hname).
  destruct (Hkept Hallocated) as [_ Hscopes].
  destruct (Hscopes scope sc Hsc) as (sc' & Hsc' & _ & _ & Hnames).
  exists sc'. split; [exact Hsc'|]. exists symbol. auto.
Qed.

Lemma bindNameToScope_binds (scope : nat) (name : string)
    (addedSymbols addedSymbols' : option (list (string * nat))) (symbol : option nat)
    (s s' : State) :
  localName s name ->
  _bindNameToScope scope name addedSymbols s = Ok (symbol, addedSymbols') s' ->
  nameBound s' scope name.
Proof.
  intros Hlocal Hrun. unfold _bindNameToScope in Hrun.
  apply bind_Ok in Hrun as (binding & s1 & Hbinding & Hrun).
  apply notLocalBindingsGet_Ok in Hbinding as [-> Hbinding].
  unfold localName in Hlocal. rewrite Hlocal in Hbinding. subst binding.
  rewrite bool_decide_eq_true_2 in Hrun by reflexivity.
  apply bind_Ok in Hrun as (existing & s1 & Hlook & Hrun).
  apply lookUpSymbol_pure in Hlook as (-> & sc & Hsc & ->).
  destruct (Scope.symbolTable sc !! name) as [existing|] eqn:Hexisting.
  - injection Hrun as _ _ <-. exists sc. split; [exact Hsc|]. eauto.
  - apply bind_Ok in Hrun as (added & s1 & Hadd & Hrun).
    rewrite (addSymbol_eq scope name _ sc s Hsc) in Hadd. injection Hadd as <- <-.
    match type of Hrun with
    | ?m _ = _ => assert (Hscopes : keeps sameScopes m) by (solve [scopes_auto])
    end.
    apply Hscopes in Hrun. unfold sameScopes in Hrun.
    eexists. rewrite Hrun. split.
    + cbn. apply lookup_insert_eq.
    + cbn. rewrite lookup_insert_eq. eauto.
Qed.

Lemma bound_after_target (target : ParseNode)
    (addedSymbols addedSymbols' : option (list (string * nat))) (s s' : State)
    (scope : nat) (name : string) :
  _bindPossibleTupleNamedTarget target addedSymbols s = Ok addedSymbols' s' ->
  scopesAllocated s /\ _currentScope (binder s) = Some scope ->
  (nameBound s scope name -> nameBound s' scope name)
  /\ (localName s name -> localName s' name)
  /\ scopesAllocated s' /\ _currentScope (binder s') = Some scope.
Proof.
  intros Hrun [Hallocated Hscope].
  pose proof (bindings_bindPossibleTupleNamedTarget _ _ _ _ _ Hrun) as Hkept.
  pose proof (context_bindPossibleTupleNamedTarget _ _ _ _ _ Hrun) as (_ & Hs & Hn & _).
  pose proof (nameBindings_bindPossibleTupleNamedTarget _ _ _ _ _ Hrun) as Hb.
  unfold sameNameBindings in Hb.
  split; [intros Hbound; exact (nameBound_kept _ _ _ _ Hkept Hallocated Hbound)|].
  split; [unfold localName; rewrite Hn, Hb; auto|].
  split; [exact (proj1 (proj2 Hkept Hallocated))|congruence].
Qed.

(** X14: binding the names of an assignment target binds every name of it in the
    current scope: the names in the entries of tuples and lists, also
    nested, under a star and under a type annotation, unless the name is
    declared [global] or [nonlocal] there. *)
Theorem target_names_bound (target : ParseNode) :
  forall (addedSymbols addedSymbols' : option (list (string * nat))) (s s' : State)
      (scope : nat),
    scopesAllocated s ->
    _currentScope (binder s) = Some scope ->
    _bindPossibleTupleNamedTarget target addedSymbols s = Ok addedSymbols' s' ->
    forall name, name ∈ targetNames target -> localName s name -> nameBound s' scope name.
Proof.
  assert (Hentries : forall entries : list ParseNode,
    list_all ParseNode
      (fun target =>
         forall (addedSymbols addedSymbols' : option (list (string * nat))) (s s' : State)
             (scope : nat),
           scopesAllocated s ->
           _currentScope (binder s) = Some scope ->
           _bindPossibleTupleNamedTarget target addedSymbols s = Ok addedSymbols' s' ->
           forall name, name ∈ targetNames target -> localName s name ->
             nameBound s' scope name) entries ->
    forall (addedSymbols addedSymbols' : option (list (string * nat))) (s s' : State)
        (scope : nat),
      scopesAllocated s ->
      _currentScope (binder s) = Some scope ->
      _bindPossibleTupleNamedTarget (TupleNode 0 entries) addedSymbols s
      = Ok addedSymbols' s' ->
      forall name, name ∈ flat_map targetNames entries -> localName s name ->
        nameBound s' scope name).
  { intros entries Hall. induction Hall as [|entry Hentry entries Hall IH];
      intros addedSymbols addedSymbols' s s' scope Hallocated Hscope Hrun name Hin Hlocal.
    { inversion Hin. }
    cbn [_bindPossibleTupleNamedTarget] in Hrun.
    apply bind_Ok in Hrun as (added1 & s1 & Hfirst & Hrest).
    change (_bindPossibleTupleNamedTarget (TupleNode 0 entries) added1 s1
            = Ok addedSymbols' s') in Hrest.
    destruct (bound_after_target entry _ _ _ _ scope name Hfirst (conj Hallocated Hscope))
      as (_ & Hlocal1 & Hallocated1 & Hscope1).
    cbn [flat_map] in Hin. apply elem_of_app in Hin as [Hin|Hin].
    - destruct (bound_after_target (TupleNode 0 entries) _ _ _ _ scope name Hrest
                  (conj Hallocated1 Hscope1)) as (Hbound & _).
      apply Hbound.
      exact (Hentry addedSymbols added1 s s1 scope Hallocated Hscope Hfirst name Hin Hlocal).
    - exact (IH added1 addedSymbols' s1 s' scope Hallocated1 Hscope1 Hrest name Hin
               (Hlocal1 Hlocal)). }
  induction target using ParseNode_ind;
    intros addedSymbols addedSymbols' s s' scope Hallocated Hscope Hrun name' Hin Hlocal;
    cbn [targetNames] in Hin; try (inversion Hin; fail).
  all: try match goal with
       | Hall : list_all _ _ ?entries |- _ =>
           exact (Hentries entries Hall addedSymbols addedSymbols' s s' scope Hallocated
                    Hscope Hrun name' Hin Hlocal)
       | IH : forall addedSymbols, _ |- _ =>
           exact (IH addedSymbols addedSymbols' s s' scope Hallocated Hscope Hrun name'
                    Hin Hlocal)
       end.
  apply list_elem_of_singleton in Hin. subst name'.
  cbn [_bindPossibleTupleNamedTarget] in Hrun.
  erewrite bind_eq in Hrun by (apply currentScope_eq; exact Hscope).
  apply bind_Ok in Hrun as ([symbol added1] & s1 & Hbind & Hrun).
  injection Hrun as _ <-.
  eapply bindNameToScope_binds; eassumption.
Qed.

End TargetNames.

Lemma target_names_bound_witness : nameBound tupleTargetState 2 "c".
Proof.
  apply (@target_names_bound (exampleCollaborators None) tupleTargetExample None None
           variableState tupleTargetState 2).
  - intros scope Hscope.
    assert (Hall : map_Forall (fun ref _ => (ref < 4)%nat) (scopes (heap variableState)))
      by (apply map_Forall_to_list; vm_compute; repeat constructor).
    destruct Hscope as [sc Hsc]. exact (Hall scope sc Hsc).
  - reflexivity.
  - vm_compute. reflexivity.
  - right. right. left.
  - reflexivity.
Defined.

(** ** The scopes of classes *)

#[local] Instance classesKept_preorder : PreOrder classesKept.
Proof.
  split.
  - intros s. split; [reflexivity|auto].
  - intros s1 s2 s3 [Hk12 Hc12] [Hk23 Hc23]. split; [etransitivity; eassumption|].
    intros Ha1 Hc1. apply Hc23; [exact (proj1 (proj2 Hk12 Ha1))|auto].
Qed.

#[local] Instance noNewScopes_preorder : PreOrder noNewScopes.
Proof.
  split; [intros s scope Hscope; exact Hscope|].
  intros s1 s2 s3 H12 H23 scope Hscope. auto.
Qed.

Lemma classesKept_frame (s s' : State) :
  scopes (heap s') = scopes (heap s) ->
  nextObjectId (heap s') = nextObjectId (heap s) ->
  classesKept s s'.
Proof.
  intros Hscopes Hnext. split; [apply bindingsKept_frame; assumption|].
  unfold classesOutside, outsideClasses. rewrite Hscopes. auto.
Qed.

Lemma classesKept_same_scopes (s s' : State) :
  bindingsKept s s' -> noNewScopes s s' -> classesKept s s'.
Proof.
  intros Hkept Hnone. split; [exact Hkept|]. intros Hallocated Houtside scope sc' Hsc' Hclass.
  destruct Hkept as [_ Hkept]. destruct (Hkept Hallocated) as [_ Hscopes].
  destruct (scopes (heap s) !! scope) as [sc|] eqn:Hsc.
  2:{ rewrite (Hnone scope Hsc) in Hsc'. discriminate. }
  destruct (Hscopes scope sc Hsc) as (sc'' & Hsc'' & Htype & Hparent & _).
  assert (sc'' = sc') as -> by congruence.
  destruct (Houtside scope sc Hsc) as (parent & psc & Hp & Hpsc & Hnot); [congruence|].
  destruct (Hscopes parent psc Hpsc) as (psc' & Hpsc' & Hptype & _).
  exists parent, psc'. split; [congruence|]. split; [exact Hpsc'|congruence].
Qed.

(** A step that leaves the scopes and the counter of objects alone. *)
Ltac classes_kept := apply classesKept_frame; reflexivity.

Ltac noNewScopes_auto := repeat keeps_step ltac:(intros ? ?; assumption) ltac:(fail).

Section ClassScopes.
Context `{Collaborators}.

Hint Resolve bindings_newObject bindings_newScope bindings_bindNameToScope
  bindings_addSymbolToCurrentScope bindings_lookUpOrAddMember bindings_isAnnotationFinal
  bindings_addInferredTypeAssignmentForVariable bindings_bindPossibleTupleNamedTarget
  bindings_createAssignmentTargetFlowNodes bindings_walk : keeps.

Lemma noNewScopes_addSymbol scope name flags :
  keeps noNewScopes (addSymbol scope name flags).
Proof.
  intros s symbol s' Hrun scope' Hnone.
  destruct (scopes (heap s) !! scope) as [sc|] eqn:Hsc.
  - rewrite (addSymbol_eq scope name flags sc s Hsc) in Hrun. injection Hrun as _ <-.
    cbn. rewrite lookup_insert_ne by congruence. exact Hnone.
  - unfold addSymbol, getScopeObject in Hrun. munfold. rewrite Hsc in Hrun. discriminate.
Qed.

Hint Resolve noNewScopes_addSymbol : keeps.

Lemma classes_newObject : keeps classesKept newObject.
Proof.
  intros s ref s' Hrun. split; [exact (bindings_newObject _ _ _ Hrun)|].
  injection Hrun as _ <-. auto.
Qed.

Lemma classes_bindNameToScope scope name addedSymbols :
  keeps classesKept (_bindNameToScope scope name addedSymbols).
Proof.
  intros s a s' Hrun. apply classesKept_same_scopes.
  - exact (bindings_bindNameToScope _ _ _ _ _ _ Hrun).
  - revert Hrun.
    assert (Hk : keeps noNewScopes (_bindNameToScope scope name addedSymbols))
      by noNewScopes_auto.
    apply Hk.
Qed.

Lemma classes_addSymbolToCurrentScope nameValue isInitiallyUnbound :
  keeps classesKept (_addSymbolToCurrentScope nameValue isInitiallyUnbound).
Proof.
  intros s a s' Hrun. apply classesKept_same_scopes.
  - exact (bindings_addSymbolToCurrentScope _ _ _ _ _ Hrun).
  - revert Hrun.
    assert (Hk : keeps noNewScopes (_addSymbolToCurrentScope nameValue isInitiallyUnbound))
      by noNewScopes_auto.
    apply Hk.
Qed.

Lemma classes_lookUpOrAddMember classScope name :
  keeps classesKept (lookUpOrAddMember classScope name).
Proof.
  intros s a s' Hrun. apply classesKept_same_scopes.
  - exact (bindings_lookUpOrAddMember _ _ _ _ _ Hrun).
  - revert Hrun.
    assert (Hk : keeps noNewScopes (lookUpOrAddMember classScope name))
      by noNewScopes_auto.
    apply Hk.
Qed.

Hint Resolve classes_newObject classes_bindNameToScope classes_addSymbolToCurrentScope
  classes_lookUpOrAddMember : keeps.

(** A new scope that is not the scope of a class, or lies in a scope
    that is not. *)
Lemma classes_newScope (type : ScopeType.t) (parent : option nat) (s s' : State)
    (ref : nat) :
  (type = ScopeType.Class ->
   exists p psc, parent = Some p /\ scopes (heap s) !! p = Some psc
                 /\ Scope.type psc <> ScopeType.Class) ->
  newScope type parent s = Ok ref s' ->
  classesKept s s'.
Proof.
  intros Hparent Hrun. split; [exact (bindings_newScope _ _ _ _ _ Hrun)|].
  injection Hrun as _ <-. intros Hallocated Houtside scope sc. cbn.
  assert (Hfresh : forall scope' sc', scopes (heap s) !! scope' = Some sc' ->
                     nextObjectId (heap s) <> scope').
  { intros scope' sc' Hsc'. assert (scope' < nextObjectId (heap s))%nat
      by (apply Hallocated; eauto). lia. }
  destruct (decide (nextObjectId (heap s) = scope)) as [<-|Hne].
  - rewrite lookup_insert_eq. intros [= <-] Hclass. cbn in Hclass.
    destruct (Hparent Hclass) as (p & psc & -> & Hpsc & Hnot).
    exists p, psc. cbn. rewrite lookup_insert_ne by (eapply Hfresh; eassumption). auto.
  - rewrite lookup_insert_ne by exact Hne. intros Hsc Hclass.
    destruct (Houtside scope sc Hsc Hclass) as (p & psc & Hp & Hpsc & Hnot).
    exists p, psc. cbn. rewrite lookup_insert_ne by (eapply Hfresh; eassumption). auto.
Qed.

Ltac classes_auto :=
  repeat keeps_step classes_kept ltac:(fail).

(** The rest of a run, by the relation it keeps. *)
Ltac classes_rest H :=
  cbv beta in H;
  lazymatch type of H with
  | ?m ?s = Ok _ ?s' =>
      let Hk := fresh "Hkeeps" in
      assert (Hk : keeps classesKept m) by (solve [classes_auto]);
      apply Hk in H
  end.

Lemma classes_createNewScope_in (scopeType : ScopeType.t) (parentScope : option nat)
    (callback : M unit) (s s' : State) :
  (scopeType = ScopeType.Class ->
   exists p psc, parentScope = Some p /\ scopes (heap s) !! p = Some psc
                 /\ Scope.type psc <> ScopeType.Class) ->
  keeps classesKept callback ->
  _createNewScope scopeType parentScope callback s = Ok tt s' ->
  classesKept s s'.
Proof.
  intros Hparent Hcallback Hrun. unfold _createNewScope in Hrun.
  apply bind_Ok in Hrun as (prevScope & s1 & [= <- <-] & Hrun).
  apply bind_Ok in Hrun as (scope & s1 & Hscope & Hrun).
  apply (classes_newScope _ _ _ _ _ Hparent) in Hscope.
  transitivity s1; [exact Hscope|]. clear Hscope Hparent.
  apply bind_Ok in Hrun as ([] & s2 & Hset & Hrun). classes_rest Hset.
  apply bind_Ok in Hrun as (prevReferenceMap & s3 & [= <- <-] & Hrun).
  apply bind_Ok in Hrun as ([] & s3 & Hmap & Hrun). classes_rest Hmap.
  apply bind_Ok in Hrun as (prevNonLocalBindings & s4 & [= <- <-] & Hrun).
  apply bind_Ok in Hrun as (bindings & s4 & Hbindings & Hrun). classes_rest Hbindings.
  apply bind_Ok in Hrun as ([] & s5 & Hset' & Hrun). classes_rest Hset'.
  apply bind_Ok in Hrun as ([] & s6 & Hrun' & Hrun). apply Hcallback in Hrun'.
  classes_rest Hrun.
  repeat (etransitivity; [eassumption|]). reflexivity.
Qed.

Lemma classes_createNewScope (scopeType : ScopeType.t) (parentScope : option nat)
    (callback : M unit) :
  scopeType <> ScopeType.Class ->
  keeps classesKept callback ->
  keeps classesKept (_createNewScope scopeType parentScope callback).
Proof.
  intros Hnot Hcallback s [] s' Hrun.
  eapply classes_createNewScope_in; [|exact Hcallback|exact Hrun].
  intros Hclass. contradiction.
Qed.

Ltac classes_auto ::=
  repeat keeps_step classes_kept
    ltac:(apply classes_createNewScope; [discriminate|]).

Lemma skipClassScopes_outside (fuel : nat) (table : gmap nat Scope.t)
    (scope parent : nat) :
  skipClassScopes fuel table scope = Some parent ->
  exists psc, table !! parent = Some psc /\ Scope.type psc <> ScopeType.Class.
Proof.
  revert scope. induction fuel as [|fuel IH]; intros scope; cbn [skipClassScopes];
    [discriminate|].
  destruct (table !! scope) as [sc|] eqn:Hsc; [|discriminate].
  destruct (Scope.type sc) eqn:Htype;
    try (intros [= <-]; exists sc; split; [exact Hsc|congruence]).
  destruct (Scope.parent sc) as [p|]; [apply IH|discriminate].
Qed.

Lemma classes_isAnnotationFinal typeAnnotation :
  keeps classesKept (_isAnnotationFinal typeAnnotation).
Proof.
  induction typeAnnotation using ParseNode_ind; cbn [_isAnnotationFinal]; classes_auto.
Qed.

Hint Resolve classes_isAnnotationFinal : keeps.

Lemma classes_addInferredTypeAssignmentForVariable ancestors target source
    isPossibleTypeAlias :
  keeps classesKept
    (_addInferredTypeAssignmentForVariable ancestors target source isPossibleTypeAlias).
Proof.
  revert isPossibleTypeAlias.
  induction target using ParseNode_ind; intros isPossibleTypeAlias;
    cbn [_addInferredTypeAssignmentForVariable]; classes_auto.
  all: match goal with
       | Hall : list_all _ _ ?l, Hin : _ ∈ ?l |- _ =>
           apply (list_all_elem_of _ _ Hall _ Hin)
       end.
Qed.

Hint Resolve classes_addInferredTypeAssignmentForVariable : keeps.

Lemma classes_bindPossibleTupleNamedTarget target addedSymbols :
  keeps classesKept (_bindPossibleTupleNamedTarget target addedSymbols).
Proof.
  revert addedSymbols.
  induction target using ParseNode_ind; intros addedSymbols;
    cbn [_bindPossibleTupleNamedTarget]; classes_auto.
  all: match goal with
       | Hall : list_all _ _ ?l |- _ =>
           revert addedSymbols; induction Hall; intros addedSymbols; classes_auto
       end.
Qed.

Hint Resolve classes_bindPossibleTupleNamedTarget : keeps.

Section VisitorClassScopes.
Variable walk : list (ParseNode * bool) -> ParseNode -> M unit.
Hypothesis Hwalk : forall ancestors node, keeps classesKept (walk ancestors node).

Lemma classes_createAssignmentTargetFlowNodes ancestors target walkTargets unbound :
  keeps classesKept
    (_createAssignmentTargetFlowNodes walk ancestors target walkTargets unbound).
Proof.
  revert walkTargets.
  induction target using ParseNode_ind; intros walkTargets;
    cbn [_createAssignmentTargetFlowNodes]; classes_auto.
  all: match goal with
       | Hall : list_all _ _ ?l, Hin : _ ∈ ?l |- _ =>
           apply (list_all_elem_of _ _ Hall _ Hin)
       end.
Qed.

Hint Resolve classes_createAssignmentTargetFlowNodes : keeps.

Lemma classes_visitClass ancestors node decorators name arguments suite :
  keeps classesKept (visitClass walk ancestors node decorators name arguments suite).
Proof.
  intros s a s' Hrun. unfold visitClass in Hrun.
  apply bind_Ok in Hrun as ([] & s1 & Hdecorators & Hrun). classes_rest Hdecorators.
  apply bind_Ok in Hrun as (fileInfo & s2 & [= <- <-] & Hrun).
  apply bind_Ok in Hrun as (classDeclaration & s2 & Hdeclaration & Hrun).
  classes_rest Hdeclaration.
  apply bind_Ok in Hrun as (scope & s3 & Hscope & Hrun). classes_rest Hscope.
  apply bind_Ok in Hrun as ([symbol added] & s4 & Hbind & Hrun). classes_rest Hbind.
  apply bind_Ok in Hrun as ([] & s5 & Hupdate & Hrun). classes_rest Hupdate.
  apply bind_Ok in Hrun as ([] & s6 & Hattach & Hrun). classes_rest Hattach.
  apply bind_Ok in Hrun as ([] & s7 & Harguments & Hrun). classes_rest Harguments.
  apply bind_Ok in Hrun as (scope' & s8 & Hscope' & Hrun). classes_rest Hscope'.
  apply bind_Ok in Hrun as (parentScope & s9 & [= <- <-] & Hrun).
  apply bind_Ok in Hrun as (parent & s9 & Hparent & Hrun).
  change (unwrap (skipClassScopes (S (size (scopes (heap s8)))) (scopes (heap s8)) scope')
            "parentScope" s8 = Ok parent s9) in Hparent.
  destruct (skipClassScopes _ _ scope') as [parent'|] eqn:Hskip; [|discriminate].
  injection Hparent as <- <-.
  apply skipClassScopes_outside in Hskip as (psc & Hpsc & Hnot).
  apply bind_Ok in Hrun as ([] & s9 & Hclass & Hrun).
  eapply classes_createNewScope_in in Hclass.
  2:{ intros _. exists parent', psc. auto. }
  2:{ classes_auto. }
  classes_rest Hrun.
  repeat (etransitivity; [eassumption|]). reflexivity.
Qed.

Hint Resolve classes_visitClass : keeps.

Lemma classes_visitNode ancestors node : keeps classesKept (visitNode walk ancestors node).
Proof. classes_auto. Qed.

End VisitorClassScopes.

Lemma classes_walk fuel ancestors node : keeps classesKept (walk fuel ancestors node).
Proof.
  revert ancestors node. induction fuel as [|fuel IH]; intros ancestors node; cbn [walk].
  - apply (keeps_outOfFuel classesKept).
  - apply (keeps_bind classesKept); [apply classes_visitNode; exact IH|intros descend].
    destruct descend; [|apply (keeps_ret classesKept)].
    apply (keeps_forEach classesKept). intros child _. apply IH.
Qed.

Hint Resolve classes_walk : keeps.

Lemma classes_runCallback fuel callback : keeps classesKept (runCallback fuel callback).
Proof. destruct callback; cbn [runCallback]; classes_auto. Qed.

Hint Resolve classes_runCallback : keeps.

Lemma classes_bindDeferred fuel iterations :
  keeps classesKept (_bindDeferred fuel iterations).
Proof.
  induction iterations as [|iterations IH]; cbn [_bindDeferred]; classes_auto.
Qed.

Hint Resolve classes_bindDeferred : keeps.

Lemma classes_bindModule fuel node : keeps classesKept (bindModule fuel node).
Proof.
  destruct node; cbn [bindModule]; try apply (keeps_throw classesKept).
  apply (keeps_bind classesKept); [classes_auto|intros fileInfo].
  apply (keeps_bind classesKept).
  - apply classes_createNewScope; [destruct (bool_decide _); discriminate|]. classes_auto.
  - intros []. classes_auto.
Qed.

(** X15: after binding a module with a new binder, the scope of a class
    lies in a scope that is not the scope of a class: the scope of a
    nested class lies in the scope around the outermost class. *)
Theorem class_scopes_outside_classes (fuel : nat) (node : ParseNode)
    (fileInfo : AnalyzerFileInfo.t) (results : BinderResults) (s' : State)
    (scope : nat) (sc : Scope.t) :
  bindModule fuel node (newBinder fileInfo) = Ok results s' ->
  scopes (heap s') !! scope = Some sc ->
  Scope.type sc = ScopeType.Class ->
  exists parent psc,
    Scope.parent sc = Some parent
    /\ scopes (heap s') !! parent = Some psc
    /\ Scope.type psc <> ScopeType.Class.
Proof.
  intros Hrun Hsc Hclass.
  destruct (classes_bindModule fuel node _ _ _ Hrun) as [_ Hkept].
  refine (Hkept _ _ scope sc Hsc Hclass).
  - intros scope0 Hscope0. apply (newBinder_allocated fileInfo) in Hscope0.
    subst scope0. cbn. lia.
  - intros scope0 sc0 Hsc0 Hclass0. exfalso. revert Hsc0. cbn.
    destruct (AnalyzerFileInfo.builtinsScope fileInfo).
    + intros [<- <-]%lookup_singleton_Some. discriminate.
    + rewrite lookup_empty. discriminate.
Qed.

End ClassScopes.

Lemma class_scopes_outside_classes_witness :
  exists parent psc,
    Some 2%nat = Some parent
    /\ scopes (heap nestedClassState) !! parent = Some psc
    /\ Scope.type psc <> ScopeType.Class.
Proof.
  apply (@class_scopes_outside_classes (exampleCollaborators None) 20 nestedClassExample
           (exampleFileInfo (fun _ => None)) {| moduleDocString := None |}
           nestedClassState 18%nat
           {| Scope.type := ScopeType.Class; Scope.parent := Some 2%nat;
              Scope.symbolTable := ∅ |}).
  all: vm_compute; reflexivity.
Defined.
